(** * Lynkr gateway: translation, dispatch, routing and memory

    A shallow embedding of the request-routing and format-conversion
    engine of the Lynkr proxy (JavaScript) and of the properties its
    specification states about it.

    - [JS]: the fragment of JavaScript the code relies on (JSON values,
      truthiness, property reads, [||], [===], exceptions).
    - [ResponsesFormat]: src/clients/responses-format.js.
    - [Databricks]: src/clients/databricks.js (the HTTP helper, the
      provider clients, the dispatcher).
    - [Regex], [Complexity]: src/routing/complexity-analyzer.js.
    - [Search]: the memory search module ([prepareFTS5Query], the keyword
      searches), with [FTS5], the query syntax of the full-text engine it
      feeds.
    - [Extractor]: the memory extraction module
      ([createMemoryWithSurprise]).
    - [Truncate]: src/tools/truncate.js.
    - [SmartSelection]: src/tools/smart-selection.js.
    - [TinyFish]: the argument normalisers of src/tools/tinyfish.js.

    Logging and metrics calls have no effect on the values computed and are
    left out, except where a log argument could itself raise. *)

From stdpp Require Import base option list strings gmap.
From Stdlib Require Import ZArith QArith Qminmax Qround Lia Ascii String List DecimalString.
Import ListNotations.

#[local] Close Scope Q_scope.
#[local] Open Scope string_scope.
#[local] Open Scope list_scope.

(** ** JavaScript values *)

Module JS.

#[local] Set Warnings "-register-all".

(** JSON values as JavaScript sees them, plus [undefined] and references to
    built-in objects (the members of [Object.prototype], a response body
    stream).  Objects keep their keys in insertion order.  Numbers are
    modelled as exact rationals. *)
Inductive value : Type :=
| VUndefined
| VNull
| VBool (b : bool)
| VNum (q : Q)
| VStr (s : string)
| VArr (items : list value)
| VObj (fields : list (string * value))
| VBuiltin (name : string).

(** The outcome of running a piece of code: a value, a thrown exception (any
    value can be thrown), or [Unmodelled] where the code reaches a corner of
    the language this development leaves out (string-to-number coercion,
    printing of fractional numbers). *)
Inductive result (A : Type) : Type :=
| Ok (a : A)
| Throw (e : value)
| Unmodelled.

Arguments Ok {A} a.
Arguments Throw {A} e.
Arguments Unmodelled {A}.

#[global] Instance result_ret : MRet result := fun A a => Ok a.

#[global] Instance result_bind : MBind result := fun A B f m =>
  match m with
  | Ok a => f a
  | Throw e => Throw e
  | Unmodelled => Unmodelled
  end.

#[global] Instance result_fmap : FMap result := fun A B f m =>
  match m with
  | Ok a => Ok (f a)
  | Throw e => Throw e
  | Unmodelled => Unmodelled
  end.

(** The line feed character and the double quote. *)
Definition nl : string := String "010"%char EmptyString.
Definition dquote : ascii := "034"%char.

Definition num (z : Z) : value := VNum (inject_Z z).

(** [new Error(message)] and the engine's own [TypeError]. *)
Definition mkError (message : string) : value :=
  VObj [("name", VStr "Error"); ("message", VStr message)].

Definition TypeError : value :=
  VObj [("name", VStr "TypeError"); ("message", VStr "invalid operand")].

(** ToBoolean. *)
Definition truthy (v : value) : bool :=
  match v with
  | VUndefined | VNull => false
  | VBool b => b
  | VNum q => negb (Qeq_bool q 0%Q)
  | VStr s => negb (String.eqb s EmptyString)
  | VArr _ | VObj _ | VBuiltin _ => true
  end.

(** [a || b] and [a ?? b] *)
Definition or (a b : value) : value := if truthy a then a else b.

Definition nullish (a b : value) : value :=
  match a with
  | VUndefined | VNull => b
  | _ => a
  end.

(** [Array.isArray(v)] and [typeof v === 'string'] *)
Definition isArray (v : value) : bool :=
  match v with VArr _ => true | _ => false end.

Definition isString (v : value) : bool :=
  match v with VStr _ => true | _ => false end.

(** [a === b].  Arrays and objects are compared by identity; the operands
    compared in this code base are fields of distinct parsed messages, or a
    literal, so two of them are never the same object. *)
Definition strict_eq (a b : value) : bool :=
  match a, b with
  | VUndefined, VUndefined => true
  | VNull, VNull => true
  | VBool x, VBool y => Bool.eqb x y
  | VNum x, VNum y => Qeq_bool x y
  | VStr x, VStr y => String.eqb x y
  | VBuiltin x, VBuiltin y => String.eqb x y
  | _, _ => false
  end.

(** [v === "s"] for a string literal. *)
Definition is_str (s : string) (v : value) : bool := strict_eq v (VStr s).

(** Own-property lookup (the last write of a key wins, so lists are kept
    without repeated keys; the first binding is the one found). *)
Fixpoint assoc (k : string) (fields : list (string * value)) : option value :=
  match fields with
  | [] => None
  | (k', v) :: rest => if String.eqb k k' then Some v else assoc k rest
  end.

(** [obj.k = v]: overwrite in place or append. *)
Fixpoint put (k : string) (v : value) (fields : list (string * value))
  : list (string * value) :=
  match fields with
  | [] => [(k, v)]
  | (k', v') :: rest =>
      if String.eqb k k' then (k, v) :: rest else (k', v') :: put k v rest
  end.

(** The property names every object literal inherits from
    [Object.prototype]. *)
Definition object_prototype_keys : list string :=
  [ "constructor"; "__defineGetter__"; "__defineSetter__"; "hasOwnProperty";
    "__lookupGetter__"; "__lookupSetter__"; "isPrototypeOf";
    "propertyIsEnumerable"; "toString"; "valueOf"; "__proto__";
    "toLocaleString" ].

Definition inherited (k : string) : value :=
  if existsb (String.eqb k) object_prototype_keys then VBuiltin k else VUndefined.

(** [v.k].  A read on [undefined] or [null] raises a TypeError.  Strings and
    arrays answer [length]; none of the other keys this program reads is a
    member of their prototypes. *)
Definition get (k : string) (v : value) : result value :=
  match v with
  | VUndefined | VNull => Throw TypeError
  | VObj fields =>
      Ok (match assoc k fields with Some x => x | None => inherited k end)
  | VStr s =>
      Ok (if String.eqb k "length" then num (Z.of_nat (String.length s))
          else VUndefined)
  | VArr items =>
      Ok (if String.eqb k "length" then num (Z.of_nat (List.length items))
          else VUndefined)
  | VBool _ | VNum _ | VBuiltin _ => Ok VUndefined
  end.

(** [v?.k] *)
Definition get_opt (k : string) (v : value) : value :=
  match get k v with Ok x => x | _ => VUndefined end.

(** A method call [v.filter(..)], [v.map(..)], [v.some(..)]: only arrays have
    these methods. *)
Definition as_array (v : value) : result (list value) :=
  match v with
  | VArr items => Ok items
  | _ => Throw TypeError
  end.

(** [{...v}]: the own enumerable properties.  The indexed properties a
    string or an array would contribute are never read by this code. *)
Definition spread (v : value) : list (string * value) :=
  match v with VObj fields => fields | _ => [] end.

(** [items.map(f)] and [items.filter(f)] for callbacks that may raise. *)
Fixpoint mapR {A B : Type} (f : A -> result B) (l : list A) : result (list B) :=
  match l with
  | [] => Ok []
  | x :: rest => y ← f x; ys ← mapR f rest; Ok (y :: ys)
  end.

Fixpoint filterR {A : Type} (f : A -> result bool) (l : list A) : result (list A) :=
  match l with
  | [] => Ok []
  | x :: rest =>
      b ← f x; ys ← filterR f rest; Ok (if b : bool then x :: ys else ys)
  end.

(** [parts.join(sep)] on strings. *)
Fixpoint join (sep : string) (parts : list string) : string :=
  match parts with
  | [] => EmptyString
  | [p] => p
  | p :: rest => p ++ sep ++ join sep rest
  end.

(** Number::toString, for the integers below 10^21 (which print in plain
    decimal notation). *)
Definition number_to_string (q : Q) : result string :=
  let r := Qred q in
  if Pos.eqb (Qden r) 1 && (Z.abs (Qnum r) <? 10 ^ 21)%Z
  then Ok (NilZero.string_of_int (Z.to_int (Qnum r)))
  else Unmodelled.

(** ToString.  An array prints its elements separated by commas, [null] and
    [undefined] elements as nothing.  A plain object prints as
    "[object Object]" unless it carries its own [toString] or [valueOf]. *)
Fixpoint to_string (v : value) : result string :=
  match v with
  | VUndefined => Ok "undefined"
  | VNull => Ok "null"
  | VBool true => Ok "true"
  | VBool false => Ok "false"
  | VNum q => number_to_string q
  | VStr s => Ok s
  | VArr items =>
      parts ← (fix elements (l : list value) : result (list string) :=
                 match l with
                 | [] => Ok []
                 | x :: rest =>
                     s ← match x with
                         | VUndefined | VNull => Ok EmptyString
                         | _ => to_string x
                         end;
                     ss ← elements rest;
                     Ok (s :: ss)
                 end) items;
      Ok (join "," parts)
  | VObj fields =>
      match assoc "toString" fields, assoc "valueOf" fields with
      | None, None => Ok "[object Object]"
      | _, _ => Unmodelled
      end
  | VBuiltin _ => Unmodelled
  end.

(** [values.join(sep)] on an array of arbitrary values. *)
Definition join_values (sep : string) (items : list value) : result string :=
  parts ← mapR (fun x => match x with
                         | VUndefined | VNull => Ok EmptyString
                         | _ => to_string x
                         end) items;
  Ok (join sep parts).

(** [v > 0], for the operands that need no string-to-number coercion. *)
Definition gt_zero (v : value) : result bool :=
  match v with
  | VNum q => Ok (negb (Qle_bool q 0%Q))
  | VUndefined | VNull => Ok false
  | VBool b => Ok b
  | _ => Unmodelled
  end.

(** The answer of a collaborator: a value, or an exception raised ([inr]). *)
Definition outcome {A : Type} (o : A + value) : result A :=
  match o with inl a => Ok a | inr e => Throw e end.

(** [needle] occurs in [s] ([s.includes(needle)], [s.startsWith(needle)]). *)
Fixpoint starts_with (p s : string) : bool :=
  match p, s with
  | EmptyString, _ => true
  | String a p', String b s' => Ascii.eqb a b && starts_with p' s'
  | String _ _, EmptyString => false
  end.

Fixpoint includes (needle s : string) : bool :=
  starts_with needle s ||
  match s with
  | EmptyString => false
  | String _ s' => includes needle s'
  end.

End JS.

Import JS.

(** ** src/clients/responses-format.js *)

Module ResponsesFormat.

(** The filter callback of [convertResponsesToChat]:
    [msg && msg.role && (msg.content || msg.tool_calls || msg.tool_call_id)],
    read as a boolean by [Array.prototype.filter]. *)
Definition isValid (msg : value) : result bool :=
  if truthy msg then
    role ← get "role" msg;
    if truthy role then
      content ← get "content" msg;
      tool_calls ← get "tool_calls" msg;
      tool_call_id ← get "tool_call_id" msg;
      Ok (truthy (JS.or (JS.or content tool_calls) tool_call_id))
    else Ok false
  else Ok false.

(** [part && (part.type === 'text' || part.type === 'input_text')] *)
Definition isTextPart (part : value) : result bool :=
  if truthy part then
    ty ← get "type" part;
    Ok (is_str "text" ty || is_str "input_text" ty)
  else Ok false.

(** [part.text || part.input_text || ''] *)
Definition partText (part : value) : result value :=
  text ← get "text" part;
  input_text ← get "input_text" part;
  Ok (JS.or (JS.or text input_text) (VStr EmptyString)).

(** [text.length > 0] *)
Definition nonEmptyText (text : value) : result bool :=
  len ← get "length" text;
  gt_zero len.

(** The [textParts] of a content array. *)
Definition textParts (content : list value) : result (list value) :=
  parts ← filterR isTextPart content;
  texts ← mapR partText parts;
  filterR nonEmptyText texts.

(** The content of a cleaned message: a content array with at least one
    non-empty text part becomes the parts joined by a blank line; any other
    content is kept ([null] when it was falsy). *)
Definition cleanContent (content0 : value) : result value :=
  let content := JS.or content0 VNull in
  match content with
  | VArr parts =>
      texts ← textParts parts;
      match texts with
      | [] => Ok content
      | _ :: _ => s ← join_values (nl ++ nl) texts; Ok (VStr s)
      end
  | _ => Ok content
  end.

(** [if (msg.k) cleaned.k = msg.k] *)
Definition optional_field (k : string) (v : value) : list (string * value) :=
  if truthy v then [(k, v)] else [].

(** The map callback of [convertResponsesToChat]. *)
Definition cleanMessage (msg : value) : result value :=
  content0 ← get "content" msg;
  content ← cleanContent content0;
  role ← get "role" msg;
  name ← get "name" msg;
  tool_calls ← get "tool_calls" msg;
  tool_call_id ← get "tool_call_id" msg;
  Ok (VObj ([("role", role); ("content", content)]
            ++ optional_field "name" name
            ++ optional_field "tool_calls" tool_calls
            ++ optional_field "tool_call_id" tool_call_id)).

Definition no_valid_messages : value :=
  mkError "Responses API: No valid messages after filtering. All messages were invalid.".

(** The [messages] computed from [input]. *)
Definition convertInput (input : value) : result (list value) :=
  match input with
  | VStr _ => Ok [VObj [("role", VStr "user"); ("content", input)]]
  | VArr entries =>
      kept ← filterR isValid entries;
      messages ← mapR cleanMessage kept;
      match messages with
      | [] => Throw no_valid_messages
      | _ :: _ => Ok messages
      end
  | _ =>
      s ← to_string (JS.or input (VStr EmptyString));
      Ok [VObj [("role", VStr "user"); ("content", VStr s)]]
  end.

(** [convertResponsesToChat(responsesRequest)] *)
Definition convertResponsesToChat (responsesRequest : value) : result value :=
  input ← get "input" responsesRequest;
  model ← get "model" responsesRequest;
  max_tokens ← get "max_tokens" responsesRequest;
  temperature ← get "temperature" responsesRequest;
  top_p ← get "top_p" responsesRequest;
  tools ← get "tools" responsesRequest;
  tool_choice ← get "tool_choice" responsesRequest;
  stream ← get "stream" responsesRequest;
  messages ← convertInput input;
  Ok (VObj [ ("model", JS.or model (VStr "gpt-4o"));
             ("messages", VArr messages);
             ("max_tokens", JS.or max_tokens (num 4096));
             ("temperature", temperature);
             ("top_p", top_p);
             ("tools", tools);
             ("tool_choice", tool_choice);
             ("stream", JS.or stream (VBool false)) ]).

(** The object literal [mapping] of [mapFinishReason]: its own properties. *)
Definition mapping : gmap string string :=
  <["stop" := "end_turn"]>
  (<["length" := "max_tokens"]>
  (<["tool_calls" := "tool_use"]>
  (<["content_filter" := "content_filter"]> ∅))).

(** [mapping[key]]: the own properties first, then [Object.prototype]. *)
Definition mapping_get (key : string) : value :=
  match mapping !! key with
  | Some v => VStr v
  | None => inherited key
  end.

(** [mapFinishReason(finishReason)].  The argument is a string, or absent
    ([None]: JavaScript's [undefined], whose property key is "undefined"). *)
Definition mapFinishReason (finishReason : option string) : value :=
  let key := match finishReason with Some s => s | None => "undefined" end in
  JS.or (mapping_get key) (VStr "end_turn").

(** [convertChatToResponses(chatResponse)] *)
Definition convertChatToResponses (chatResponse : value) : result value :=
  choices ← get "choices" chatResponse;
  first ← match choices with
          | VArr (c :: _) => Ok c
          | VArr [] => Ok VUndefined
          | VObj _ => get "0" choices
          | VUndefined | VNull => Throw TypeError
          | _ => Unmodelled
          end;
  message ← get "message" first;
  content0 ← get "content" message;
  tool_calls0 ← get "tool_calls" message;
  let toolCalls := JS.or tool_calls0 (VArr []) in
  len ← get "length" toolCalls;
  has_calls ← gt_zero len;
  id ← get "id" chatResponse;
  created ← get "created" chatResponse;
  model ← get "model" chatResponse;
  finish ← get "finish_reason" first;
  usage ← get "usage" chatResponse;
  stop ← match finish with
         | VStr s => Ok (mapFinishReason (Some s))
         | VUndefined => Ok (mapFinishReason None)
         | _ => key ← to_string finish; Ok (mapFinishReason (Some key))
         end;
  Ok (VObj [ ("id", id);
             ("object", VStr "response");
             ("created", created);
             ("model", model);
             ("content", JS.or content0 (VStr EmptyString));
             ("tool_calls", if has_calls : bool then toolCalls else VUndefined);
             ("stop_reason", stop);
             ("usage", usage) ]).

End ResponsesFormat.

(** ** src/clients/databricks.js *)

Module Databricks.

(** *** Effects

    The provider clients talk to the network ([fetch]) and to the retry
    wrapper; the dispatcher [invokeModel] moreover talks to the circuit
    breakers and to the metrics collector.  The effects of the first kind
    are kept in a log of events threaded through every call (the monad
    [M]), those of the dispatcher in a list of steps beside it (the monad
    [D], below); what the outside world answers may depend on both. *)

(** What [fetch] resolves to, as far as this file reads it.  [resp_text] is
    [await response.text()], which may raise; [resp_json] is
    [JSON.parse(text)], or [null] when the text is not JSON. *)
Record Response : Type := mkResponse {
  resp_ok : bool;
  resp_status : value;
  resp_text : result string;
  resp_json : value;
  resp_contentType : value;
  resp_headers : value;
  resp_body : value
}.

Inductive FetchOutcome : Type :=
| Rejected (e : value)
| Responded (r : Response).

Inductive Event : Type :=
| EvPost (url : string) (headers body : value)
| EvWithRetry (options : value).

Definition Log : Type := list Event.

(** The dispatcher's own steps: [breaker.execute(..)] for the primary
    provider, [fallbackBreaker.execute(..)] for the fallback provider, and
    the calls of the metrics collector (latencies and token counts left
    out). *)
Inductive Step : Type :=
| ExecutePrimary (provider : value)
| ExecuteFallback (provider : value)
| Metric (name : string) (args : list value).

Definition M (A : Type) : Type := Log -> result A * Log.

#[global] Instance M_ret : MRet M := fun A a log => (Ok a, log).

#[global] Instance M_bind : MBind M := fun A B f m log =>
  match m log with
  | (Ok a, log') => f a log'
  | (Throw e, log') => (Throw e, log')
  | (Unmodelled, log') => (Unmodelled, log')
  end.

Definition lift {A : Type} (r : result A) : M A := fun log => (r, log).

Definition throw {A : Type} (e : value) : M A := fun log => (Throw e, log).

Definition emit (ev : Event) : M unit := fun log => (Ok tt, log ++ [ev]).

(** [try { m } catch (e) { handler(e) }] *)
Definition try_catch {A : Type} (m : M A) (handler : value -> M A) : M A :=
  fun log =>
    match m log with
    | (Throw e, log') => handler e log'
    | other => other
    end.

Inductive Backend : Type :=
| AzureOpenAI | AzureAnthropic | Ollama | OpenRouter | OpenAI
| LlamaCpp | LMStudio | Bedrock | DatabricksBackend.

(** The collaborators of the file: modules it requires that are not among
    the sources, the process environment, the clock and the network. *)
Record World : Type := mkWorld {
  (** [require("../config")] *)
  config : value;
  (** [process.env.NAME] *)
  process_env : string -> value;
  (** [Date.now()] *)
  now : Z;
  (** the answer to a POST, given what happened so far *)
  network : Log -> string -> value -> FetchOutcome;
  (** [withRetry(fn, options)] of ./retry *)
  withRetry : M value -> value -> M value;
  (** whether the breaker of a provider is open, given what happened so far *)
  breaker_open : value -> list Step -> Log -> bool;
  (** ./standard-tools *)
  STANDARD_TOOLS : list value;
  (** ./bedrock-utils *)
  detectModelFamily : value -> value;
  (** ./ollama-utils and ./openrouter-utils *)
  convertAnthropicToolsToOllama : value -> result value;
  convertAnthropicToolsToOpenRouter : value -> result value;
  convertAnthropicMessagesToOpenRouter : value -> result value;
  (** ./routing *)
  determineProvider : value -> value;
  isFallbackEnabled : value;
  getFallbackProvider : value;
  analyzeComplexity : value -> value;
  (** the six provider clients of this file that the properties below do
      not look into (Azure OpenAI, Azure Anthropic, OpenRouter, OpenAI,
      LM Studio and Databricks): like the three modelled below, they check
      their configuration, build a body and call [performJsonRequest] *)
  invokeCloud : Backend -> value -> M value
}.

Section WithWorld.

Variable w : World.

(** *** [performJsonRequest] *)

Definition fetch (url : string) (headers body : value) : M Response :=
  fun log =>
    let log' := log ++ [EvPost url headers body] in
    match network w log url body with
    | Rejected e => (Throw e, log')
    | Responded r => (Ok r, log')
    end.

(** The options handed to the retry wrapper. *)
Definition retryOptions : value :=
  let apiRetry := get_opt "apiRetry" (config w) in
  VObj [ ("maxRetries", JS.or (get_opt "maxRetries" apiRetry) (num 3));
         ("initialDelay", JS.or (get_opt "initialDelay" apiRetry) (num 1000));
         ("maxDelay", JS.or (get_opt "maxDelay" apiRetry) (num 30000)) ].

(** The streaming branch: one POST, its outcome handed back. *)
Definition streamingRequest (url : string) (headers body : value) : M value :=
  response ← fetch url headers body;
  _ ← (if resp_ok response then mret tt
       else _ ← lift (resp_text response); mret tt);
  mret (VObj [ ("ok", VBool (resp_ok response));
               ("status", resp_status response);
               ("stream", resp_body response);
               ("contentType", resp_contentType response);
               ("headers", resp_headers response) ]).

(** One attempt of the non-streaming branch (the callback given to
    [withRetry]). *)
Definition attempt (url : string) (headers body : value) : M value :=
  response ← fetch url headers body;
  text ← lift (resp_text response);
  mret (VObj [ ("ok", VBool (resp_ok response));
               ("status", resp_status response);
               ("json", resp_json response);
               ("text", VStr text);
               ("contentType", resp_contentType response);
               ("headers", resp_headers response) ]).

(** [performJsonRequest(url, { headers, body }, providerLabel)] *)
Definition performJsonRequest (url : string) (headers body : value) : M value :=
  stream ← lift (get "stream" body);
  if strict_eq stream (VBool true)
  then streamingRequest url headers body
  else (_ ← emit (EvWithRetry retryOptions);
        withRetry w (attempt url headers body) retryOptions).

(** *** Messages for the local providers *)

(** The map callback of [invokeOllama]: content blocks become one string. *)
Definition ollamaMessage (msg : value) : result value :=
  content0 ← get "content" msg;
  content ← match content0 with
            | VArr blocks =>
                texts ← filterR (fun block => ty ← get "type" block;
                                              Ok (is_str "text" ty)) blocks;
                strs ← mapR (fun block => t ← get "text" block;
                                          Ok (JS.or t (VStr EmptyString))) texts;
                s ← join_values nl strs;
                Ok (VStr s)
            | _ => Ok content0
            end;
  role ← get "role" msg;
  Ok (VObj [("role", role); ("content", JS.or content (VStr EmptyString))]).

(** The argument of the debug log written when a message is skipped:
    [msg.content.substring(0, 50)] for Ollama. *)
Definition ollamaSkipLog (msg : value) : result unit :=
  content ← get "content" msg;
  match content with
  | VStr _ => Ok tt
  | _ => Throw TypeError
  end.

(** ... and for llama.cpp: the content itself when it is a string, else
    [JSON.stringify(msg.content).substring(0, 50)], where [JSON.stringify]
    gives [undefined] for an absent content. *)
Definition llamacppSkipLog (msg : value) : result unit :=
  content ← get "content" msg;
  match content with
  | VUndefined | VBuiltin _ => Throw TypeError
  | _ => Ok tt
  end.

(** One turn of the loop that drops consecutive messages of the same role:
    the state is the array [deduplicated] and [lastRole]. *)
Definition dedupStep (skipLog : value -> result unit)
    (st : list value * value) (msg : value) : result (list value * value) :=
  role ← get "role" msg;
  if strict_eq role (snd st)
  then (_ ← skipLog msg; Ok st)
  else Ok (fst st ++ [msg], role).

Fixpoint dedupLoop (skipLog : value -> result unit)
    (st : list value * value) (msgs : list value) : result (list value * value) :=
  match msgs with
  | [] => Ok st
  | msg :: rest => st' ← dedupStep skipLog st msg; dedupLoop skipLog st' rest
  end.

(** [const deduplicated = []; let lastRole = null; for (const msg of ...)] *)
Definition deduplicate (skipLog : value -> result unit) (msgs : list value)
  : result (list value) :=
  st ← dedupLoop skipLog ([], VNull) msgs; Ok (fst st).

(** The tools sent along, for the providers that inject the standard tools
    when the client sent none: [Some] tools to convert, or [None]. *)
Definition toolsToSend (inject : bool) (tools : value) : option (list value) :=
  match tools with
  | VArr (t :: ts) => Some (t :: ts)
  | _ => if inject
         then match STANDARD_TOOLS w with [] => None | l => Some l end
         else None
  end.

(** Whether the client sent tools of its own (a non-empty array). *)
Definition clientSentTools (tools : value) : bool :=
  match tools with VArr (_ :: _) => true | _ => false end.

(** The info logs of the tool names: [STANDARD_TOOLS.map(t => t.name)] when
    the standard tools are injected, [toolsToSend.map(t => t.name)] when
    tools are sent. *)
Definition toolNames (tools : list value) : result (list value) :=
  mapR (get "name") tools.

Definition injectionLog (tools0 : value) (l : list value) : result (list value) :=
  if clientSentTools tools0 then Ok [] else toolNames l.

(** The argument of the info logs of the roles,
    [msgs.map(m => m.role).join(' → ')]. *)
Definition rolesLog (msgs : list value) : result unit :=
  roles ← mapR (get "role") msgs;
  _ ← join_values " → " roles;
  Ok tt.

(** [if (deduplicated.length !== messages.length) logger.info(..)] *)
Definition removedLog (messages deduplicated : list value) : result unit :=
  if Nat.eqb (List.length deduplicated) (List.length messages) then Ok tt
  else (_ ← rolesLog messages; rolesLog deduplicated).

(** The body [invokeOllama] posts. *)
Definition ollamaBody (body : value) : result value :=
  messages0 ← get "messages" body;
  messages ← as_array (JS.or messages0 (VArr []));
  convertedMessages ← mapR ollamaMessage messages;
  deduplicated ← deduplicate ollamaSkipLog convertedMessages;
  _ ← removedLog convertedMessages deduplicated;
  temperature ← get "temperature" body;
  max_tokens ← get "max_tokens" body;
  top_p ← get "top_p" body;
  tools0 ← get "tools" body;
  let inject := negb (is_str "false" (process_env w "INJECT_TOOLS_OLLAMA")) in
  tools ← match toolsToSend inject tools0 with
          | Some l =>
              _ ← injectionLog tools0 l;
              converted ← convertAnthropicToolsToOllama w (VArr l);
              _ ← toolNames l;
              Ok [("tools", converted)]
          | None => Ok []
          end;
  Ok (VObj ([ ("model", get_opt "model" (get_opt "ollama" (config w)));
              ("messages", VArr deduplicated);
              ("stream", VBool false);
              ("options",
               VObj [ ("temperature", nullish temperature (VNum (7 # 10)%Q));
                      ("num_predict", nullish max_tokens (num 4096));
                      ("top_p", nullish top_p (num 1)) ]) ]
            ++ tools)).

Definition jsonHeaders : value := VObj [("Content-Type", VStr "application/json")].

(** [invokeOllama(body)] *)
Definition invokeOllama (body : value) : M value :=
  let endpoint0 := get_opt "endpoint" (get_opt "ollama" (config w)) in
  if negb (truthy endpoint0)
  then throw (mkError "Ollama endpoint is not configured.")
  else
    base ← lift (to_string endpoint0);
    ollama ← lift (ollamaBody body);
    performJsonRequest (base ++ "/api/chat")%string jsonHeaders ollama.

(** The messages [invokeLlamaCpp] posts, before and after the removal of
    consecutive roles. *)
Definition llamacppMessages (body : value) : result (list value) :=
  messages0 ← get "messages" body;
  converted ← convertAnthropicMessagesToOpenRouter w (JS.or messages0 (VArr []));
  messages ← as_array converted;
  system ← get "system" body;
  Ok (if truthy system
      then VObj [("role", VStr "system"); ("content", system)] :: messages
      else messages).

Definition llamacppBody (body : value) : result value :=
  messages ← llamacppMessages body;
  deduplicated ← deduplicate llamacppSkipLog messages;
  _ ← removedLog messages deduplicated;
  temperature ← get "temperature" body;
  max_tokens ← get "max_tokens" body;
  top_p ← get "top_p" body;
  stream ← get "stream" body;
  tools0 ← get "tools" body;
  let inject := negb (is_str "false" (process_env w "INJECT_TOOLS_LLAMACPP")) in
  tools ← match toolsToSend inject tools0 with
          | Some l =>
              _ ← injectionLog tools0 l;
              converted ← convertAnthropicToolsToOpenRouter w (VArr l);
              _ ← toolNames l;
              Ok [("tools", converted); ("tool_choice", VStr "auto")]
          | None => Ok []
          end;
  (* the log of the request: the roles joined, and a preview of each
     content, read as in the loop above *)
  _ ← rolesLog deduplicated;
  _ ← mapR llamacppSkipLog deduplicated;
  Ok (VObj ([ ("messages", VArr deduplicated);
              ("temperature", nullish temperature (VNum (7 # 10)%Q));
              ("max_tokens", nullish max_tokens (num 4096));
              ("top_p", nullish top_p (num 1));
              ("stream", nullish stream (VBool false)) ]
            ++ tools)).

(** [invokeLlamaCpp(body)] *)
Definition invokeLlamaCpp (body : value) : M value :=
  let llamacpp := get_opt "llamacpp" (config w) in
  let endpoint0 := get_opt "endpoint" llamacpp in
  if negb (truthy endpoint0)
  then throw (mkError "llama.cpp endpoint is not configured.")
  else
    base ← lift (to_string endpoint0);
    headers ← lift (if truthy (get_opt "apiKey" llamacpp)
                    then key ← to_string (get_opt "apiKey" llamacpp);
                         Ok (VObj [ ("Content-Type", VStr "application/json");
                                    ("Authorization", VStr ("Bearer " ++ key)%string) ])
                    else Ok jsonHeaders);
    llama ← lift (llamacppBody body);
    performJsonRequest (base ++ "/v1/chat/completions")%string headers llama.


(** *** [invokeBedrock] *)

(** [c.text || c.content || ""] *)
Definition blockText (c : value) : result value :=
  text ← get "text" c;
  content ← get "content" c;
  Ok (JS.or (JS.or text content) (VStr EmptyString)).

Definition textPart (t : value) : value := VObj [("text", t)].

(** The map callback that builds a Converse message. *)
Definition converseMessage (msg : value) : result value :=
  role ← get "role" msg;
  content ← get "content" msg;
  parts ← match content with
          | VArr blocks => mapR (fun c => t ← blockText c; Ok (textPart t)) blocks
          | _ => Ok [textPart content]
          end;
  Ok (VObj [("role", role); ("content", VArr parts)]).

Definition isSystem (msg : value) : result bool :=
  role ← get "role" msg; Ok (is_str "system" role).

Definition notSystem (msg : value) : result bool :=
  role ← get "role" msg; Ok (negb (is_str "system" role)).

(** The text of the system prompt taken from the first system message. *)
Definition systemContent (first : value) : result value :=
  content ← get "content" first;
  match content with
  | VArr blocks =>
      texts ← mapR blockText blocks;
      s ← join_values nl texts;
      Ok (VStr s)
  | _ => Ok content
  end.

Definition toolSpec (tool : value) : result value :=
  name ← get "name" tool;
  description ← get "description" tool;
  input_schema ← get "input_schema" tool;
  Ok (VObj [("toolSpec",
             VObj [ ("name", name);
                    ("description", description);
                    ("inputSchema", VObj [("json", input_schema)]) ])]).

(** The Converse request body built from the canonical request. *)
Definition converseBody (body : value) : result value :=
  tools0 ← get "tools" body;
  let tools := if clientSentTools tools0 then tools0 else VArr (STANDARD_TOOLS w) in
  _ ← (if clientSentTools tools0 then Ok [] else toolNames (STANDARD_TOOLS w));
  let bedrockBody := VObj (put "tools" tools (spread body)) in
  messages0 ← get "messages" bedrockBody;
  messages ← as_array messages0;
  systemMessages ← filterR isSystem messages;
  others ← filterR notSystem messages;
  converted ← mapR converseMessage others;
  system0 ← get "system" bedrockBody;
  system ← (if truthy system0
            then Ok [("system", VArr [textPart system0])]
            else match systemMessages with
                 | first :: _ =>
                     content ← systemContent first;
                     Ok [("system", VArr [textPart content])]
                 | [] => Ok []
                 end);
  max_tokens ← get "max_tokens" bedrockBody;
  temperature ← get "temperature" bedrockBody;
  top_p ← get "top_p" bedrockBody;
  let inferenceConfig :=
    if truthy max_tokens
    then [("inferenceConfig",
           VObj [ ("maxTokens", max_tokens);
                  ("temperature", temperature);
                  ("topP", top_p) ])]
    else [] in
  toolConfig ← match tools with
               | VArr (t :: ts) =>
                   specs ← mapR toolSpec (t :: ts);
                   Ok [("toolConfig", VObj [("tools", VArr specs)])]
               | _ => Ok []
               end;
  Ok (VObj ([("messages", VArr converted)] ++ system ++ inferenceConfig ++ toolConfig)).

(** The map callback that turns a Converse content item back into a
    canonical block. *)
Definition canonicalBlock (item : value) : result value :=
  text ← get "text" item;
  if truthy text
  then Ok (VObj [("type", VStr "text"); ("text", text)])
  else
    toolUse ← get "toolUse" item;
    if truthy toolUse
    then
      id ← get "toolUseId" toolUse;
      name ← get "name" toolUse;
      input ← get "input" toolUse;
      Ok (VObj [ ("type", VStr "tool_use"); ("id", id);
                 ("name", name); ("input", input) ])
    else Ok item.

Definition stopReason (reason : value) : value :=
  if is_str "end_turn" reason then VStr "end_turn"
  else if is_str "tool_use" reason then VStr "tool_use"
  else if is_str "max_tokens" reason then VStr "max_tokens"
  else VStr "end_turn".

(** [items.some(c => c.toolUse)], an argument of the response log. *)
Fixpoint someToolUse (items : list value) : result bool :=
  match items with
  | [] => Ok false
  | c :: rest =>
      toolUse ← get "toolUse" c;
      if truthy toolUse then Ok true else someToolUse rest
  end.

Definition responseLog (converseResponse : value) : result bool :=
  _ ← get "stopReason" converseResponse;
  match get_opt "content" (get_opt "message" (get_opt "output" converseResponse)) with
  | VUndefined | VNull => Ok false
  | content => items ← as_array content; someToolUse items
  end.

(** The canonical response built from the Converse response:
    [modelId] is [config.bedrock.modelId]. *)
Definition anthropicResponse (modelId : value) (converseResponse : value)
  : result value :=
  _ ← responseLog converseResponse;
  output ← get "output" converseResponse;
  message ← get "message" output;
  stamp ← number_to_string (inject_Z (now w));
  role ← get "role" message;
  content0 ← get "content" message;
  items ← as_array content0;
  content ← mapR canonicalBlock items;
  reason ← get "stopReason" converseResponse;
  let usage := get_opt "usage" converseResponse in
  Ok (VObj [ ("id", VStr ("bedrock-" ++ stamp)%string);
             ("type", VStr "message");
             ("role", role);
             ("model", modelId);
             ("content", VArr content);
             ("stop_reason", stopReason reason);
             ("usage",
              VObj [ ("input_tokens", JS.or (get_opt "inputTokens" usage) (num 0));
                     ("output_tokens", JS.or (get_opt "outputTokens" usage) (num 0)) ]) ]).

Definition bedrockKeyMissing : value :=
  mkError ("AWS Bedrock requires AWS_BEDROCK_API_KEY (Bearer token). " ++
           "Generate from AWS Console → Bedrock → API Keys, then set AWS_BEDROCK_API_KEY in your .env file.")%string.

(** The [catch] of the request: it logs [e.message] and raises [e] again. *)
Definition rethrow {A : Type} (e : value) : M A :=
  match get "message" e with
  | Throw t => throw t
  | _ => throw e
  end.

(** [invokeBedrock(body)] *)
Definition invokeBedrock (body : value) : M value :=
  let bedrock := get_opt "bedrock" (config w) in
  let apiKey := get_opt "apiKey" bedrock in
  if negb (truthy apiKey) then throw bedrockKeyMissing
  else
    let modelId := get_opt "modelId" bedrock in
    let modelFamily := detectModelFamily w modelId in
    converse ← lift (converseBody body);
    model ← lift (to_string modelId);
    region ← lift (to_string (get_opt "region" bedrock));
    token ← lift (to_string apiKey);
    let endpoint :=
      ("https://bedrock-runtime." ++ region ++ ".amazonaws.com/model/" ++ model
       ++ "/converse")%string in
    let headers := VObj [ ("Content-Type", VStr "application/json");
                          ("Authorization", VStr ("Bearer " ++ token)%string) ] in
    try_catch
      (response ← performJsonRequest endpoint headers converse;
       ok ← lift (get "ok" response);
       if negb (truthy ok)
       then
         status ← lift (get "status" response ≫= to_string);
         errorText ← lift (get "text" response ≫= to_string);
         throw (mkError ("Bedrock Converse API failed: " ++ status ++ " " ++ errorText)%string)
       else
         json ← lift (get "json" response);
         canonical ← lift (anthropicResponse modelId json);
         mret (VObj [ ("ok", VBool true);
                      ("status", num 200);
                      ("json", canonical);
                      ("actualProvider", VStr "bedrock");
                      ("modelFamily", modelFamily) ]))
      rethrow.

(** *** [invokeModel] *)

(** [error.message?.includes(needle)] *)
Definition messageIncludes (needle : string) (message : value) : result bool :=
  match message with
  | VUndefined | VNull => Ok false
  | VStr s => Ok (includes needle s)
  | VArr items => Ok (existsb (strict_eq (VStr needle)) items)
  | _ => Throw TypeError
  end.

(** [categorizeFailure(error)]: "Categorize failure for metrics". *)
Definition categorizeFailure (error : value) : result string :=
  name ← get "name" error;
  code ← get "code" error;
  if is_str "CircuitBreakerError" name || is_str "circuit_breaker_open" code
  then Ok "circuit_breaker"
  else if is_str "AbortError" name || is_str "ETIMEDOUT" code
  then Ok "timeout"
  else
    message ← get "message" error;
    notConfigured ← messageIncludes "not configured" message;
    notAvailable ← (if notConfigured : bool then Ok true
                    else messageIncludes "not available" message);
    if notAvailable || is_str "ECONNREFUSED" code
    then Ok "service_unavailable"
    else
      tool ← messageIncludes "tool" message;
      function ← (if tool : bool then Ok true else messageIncludes "function" message);
      if function : bool
      then Ok "tool_incompatible"
      else
        status ← get "status" error;
        if strict_eq status (num 429) || is_str "RATE_LIMITED" code
        then Ok "rate_limited"
        else Ok "error".

(** The provider reached by the if-chain of the primary attempt ... *)
Definition primaryBackend (provider : value) : Backend :=
  if is_str "azure-openai" provider then AzureOpenAI
  else if is_str "azure-anthropic" provider then AzureAnthropic
  else if is_str "ollama" provider then Ollama
  else if is_str "openrouter" provider then OpenRouter
  else if is_str "openai" provider then OpenAI
  else if is_str "llamacpp" provider then LlamaCpp
  else if is_str "lmstudio" provider then LMStudio
  else if is_str "bedrock" provider then Bedrock
  else DatabricksBackend.

(** ... and by the if-chain of the fallback attempt. *)
Definition fallbackBackend (provider : value) : Backend :=
  if is_str "azure-openai" provider then AzureOpenAI
  else if is_str "azure-anthropic" provider then AzureAnthropic
  else if is_str "openrouter" provider then OpenRouter
  else if is_str "openai" provider then OpenAI
  else if is_str "llamacpp" provider then LlamaCpp
  else DatabricksBackend.

Definition invokeBackend (b : Backend) (body : value) : M value :=
  match b with
  | Ollama => invokeOllama body
  | LlamaCpp => invokeLlamaCpp body
  | Bedrock => invokeBedrock body
  | other => invokeCloud w other body
  end.

Definition circuitBreakerError : value :=
  VObj [ ("name", VStr "CircuitBreakerError");
         ("message", VStr "Circuit breaker is open");
         ("code", VStr "circuit_breaker_open") ].

(** The dispatcher's monad: the steps taken so far beside the log. *)
Definition D (A : Type) : Type := list Step * Log -> result A * (list Step * Log).

#[global] Instance D_ret : MRet D := fun A a st => (Ok a, st).

#[global] Instance D_bind : MBind D := fun A B f m st =>
  match m st with
  | (Ok a, st') => f a st'
  | (Throw e, st') => (Throw e, st')
  | (Unmodelled, st') => (Unmodelled, st')
  end.

(** A provider client run by the dispatcher: it leaves the steps alone. *)
Definition client {A : Type} (m : M A) : D A :=
  fun st => let (r, log') := m (snd st) in (r, (fst st, log')).

Definition pure {A : Type} (r : result A) : D A := fun st => (r, st).

Definition raise {A : Type} (e : value) : D A := fun st => (Throw e, st).

Definition step (s : Step) : D unit := fun st => (Ok tt, (fst st ++ [s], snd st)).

(** [try { m } catch (e) { handler(e) }] *)
Definition attemptOr {A : Type} (m : D A) (handler : value -> D A) : D A :=
  fun st =>
    match m st with
    | (Throw e, st') => handler e st'
    | other => other
    end.

(** Modelled from the spec: [breaker.execute(fn)] of ./circuit-breaker,
    which is not among the sources.  "An open breaker fails fast with a
    distinguished error class circuit_breaker_open"; otherwise the call is
    made and its outcome handed back. *)
Definition execute (provider : value) (fn : M value) : D value :=
  fun st => if breaker_open w provider (fst st) (snd st)
            then (Throw circuitBreakerError, st)
            else client fn st.

Definition metric (name : string) (args : list value) : D unit :=
  step (Metric name args).

(** [if (result.json?.usage) metricsCollector.recordTokens(..)] *)
Definition recordUsage (result : value) : D unit :=
  json ← pure (get "json" result);
  if truthy (get_opt "usage" json) then metric "recordTokens" [] else mret tt.

Definition routingDecision (initialProvider complexityAnalysis : value) : value :=
  VObj [ ("provider", initialProvider);
         ("score", get_opt "score" complexityAnalysis);
         ("threshold", get_opt "threshold" complexityAnalysis);
         ("mode", get_opt "mode" complexityAnalysis);
         ("recommendation", get_opt "recommendation" complexityAnalysis);
         ("method", match get_opt "score" complexityAnalysis with
                    | VUndefined => VStr "static"
                    | _ => VStr "complexity"
                    end);
         ("taskType",
          get_opt "reason" (get_opt "taskType" (get_opt "breakdown" complexityAnalysis))) ].

(** The inner [try] and [catch]: the call of the fallback provider. *)
Definition fallbackCall (body decision err : value) (reason : string) : D value :=
  let fallbackProvider := getFallbackProvider w in
  attemptOr
    (_ ← step (ExecuteFallback fallbackProvider);
     fallbackResult ←
       execute fallbackProvider (invokeBackend (fallbackBackend fallbackProvider) body);
     _ ← metric "recordFallbackSuccess" [];
     _ ← metric "recordDatabricksRequest" [VBool true];
     _ ← recordUsage fallbackResult;
     mret (VObj (put "routingDecision"
                   (VObj (put "fallbackReason" (VStr reason)
                         (put "method" (VStr "fallback")
                         (put "provider" fallbackProvider (spread decision)))))
                (put "actualProvider" fallbackProvider (spread fallbackResult)))))
    (fun fallbackErr =>
       _ ← metric "recordFallbackFailure" [];
       _ ← metric "recordDatabricksRequest" [VBool false];
       _ ← pure (get "message" err);
       _ ← pure (get "message" fallbackErr);
       raise fallbackErr).

(** The fallback attempt, entered from the [catch] of the primary attempt:
    the failure is categorized for the metrics, then the fallback provider
    is called. *)
Definition fallbackAttempt (body initialProvider decision err : value) : D value :=
  reason ← pure (categorizeFailure err);
  _ ← pure (get "message" err);
  _ ← metric "recordFallbackAttempt"
        [initialProvider; getFallbackProvider w; VStr reason];
  fallbackCall body decision err reason.

(** [options.forceProvider ?? determineProvider(body)] *)
Definition initialProvider (body options : value) : value :=
  nullish (get_opt "forceProvider" options) (determineProvider w body).

(** [config.modelProvider?.preferOllama ?? false] *)
Definition preferOllama : value :=
  nullish (get_opt "preferOllama" (get_opt "modelProvider" (config w))) (VBool false).

(** [preferOllama && initialProvider === "ollama" && isFallbackEnabled() &&
    !options.disableFallback] *)
Definition shouldFallback (body options : value) : bool :=
  truthy preferOllama && is_str "ollama" (initialProvider body options) &&
  truthy (isFallbackEnabled w) && negb (truthy (get_opt "disableFallback" options)).

(** The [try] block of [invokeModel]: the primary attempt. *)
Definition primaryAttempt (body options : value) : D value :=
  let provider := initialProvider body options in
  _ ← step (ExecutePrimary provider);
  result ← execute provider (invokeBackend (primaryBackend provider) body);
  _ ← metric "recordProviderSuccess" [provider];
  _ ← metric "recordDatabricksRequest" [VBool true];
  _ ← recordUsage result;
  mret (VObj (put "routingDecision"
                (routingDecision provider (analyzeComplexity w body))
             (put "actualProvider" provider (spread result)))).

(** Its [catch] block. *)
Definition onPrimaryFailure (body options err : value) : D value :=
  let provider := initialProvider body options in
  _ ← metric "recordProviderFailure" [provider];
  if negb (shouldFallback body options)
  then (_ ← metric "recordDatabricksRequest" [VBool false]; raise err)
  else fallbackAttempt body provider
         (routingDecision provider (analyzeComplexity w body)) err.

(** [invokeModel(body, options = {})] *)
Definition invokeModel (body options : value) : D value :=
  _ ← pure (get "forceProvider" options);
  _ ← metric "recordProviderRouting" [initialProvider body options];
  attemptOr (primaryAttempt body options) (onPrimaryFailure body options).

(** *** The cloud clients *)

(** [`Bearer ${key}`] *)
Definition bearer (key : value) : result value :=
  s ← to_string key; Ok (VStr ("Bearer " ++ s)%string).

(** The messages of the OpenAI family: the converted messages, with the
    system prompt put first when the request has one. *)
Definition openAIMessages (body : value) : result value :=
  messages0 ← get "messages" body;
  messages ← convertAnthropicMessagesToOpenRouter w (JS.or messages0 (VArr []));
  system ← get "system" body;
  if truthy system
  then items ← as_array messages;
       Ok (VArr (VObj [("role", VStr "system"); ("content", system)] :: items))
  else Ok messages.

(** The tools sent by the clients that always inject the standard tools
    when the client sent none, converted, with the fields set beside
    them. *)
Definition convertedTools (body : value) (beside : list (string * value))
  : result (list (string * value)) :=
  tools0 ← get "tools" body;
  match toolsToSend true tools0 with
  | Some l =>
      _ ← injectionLog tools0 l;
      converted ← convertAnthropicToolsToOpenRouter w (VArr l);
      _ ← toolNames l;
      Ok (("tools", converted) :: beside)
  | None => Ok []
  end.

(** [invokeDatabricks(body)]: the tools of the copy [{ ...body }], the
    standard tools when the client sent none, in the OpenAI format. *)
Definition databricksTools (tools0 : value) : result value :=
  _ ← injectionLog tools0 (STANDARD_TOOLS w);
  let tools := if clientSentTools tools0 then tools0 else VArr (STANDARD_TOOLS w) in
  match tools with
  | VArr (first :: rest) =>
      let type := match first with
                  | VUndefined | VNull => VUndefined
                  | _ => get_opt "type" first
                  end in
      sent ← (if is_str "function" type then Ok tools
              else convertAnthropicToolsToOpenRouter w tools);
      _ ← get "length" sent;
      items ← as_array sent;
      _ ← mapR (get "function") items;
      Ok sent
  | _ => Ok tools
  end.

(** [{ ...body }] for a body that is an object, [null] or [undefined]. *)
Definition copy (body : value) : result (list (string * value)) :=
  match body with
  | VObj _ | VNull | VUndefined => Ok (spread body)
  | _ => Unmodelled
  end.

Definition invokeDatabricks (body : value) : M value :=
  let databricks := get_opt "databricks" (config w) in
  if negb (truthy (get_opt "url" databricks))
  then throw (mkError "Databricks configuration is missing required URL.")
  else
    fields ← lift (copy body);
    tools ← lift (databricksTools (get_opt "tools" (VObj fields)));
    authorization ← lift (bearer (get_opt "apiKey" databricks));
    url ← lift (to_string (get_opt "url" databricks));
    performJsonRequest url
      (VObj [ ("Authorization", authorization);
              ("Content-Type", VStr "application/json") ])
      (VObj (put "tools" tools fields)).

(** [invokeAzureAnthropic(body)]: the body is the caller's own object, with
    the standard tools written into it when it has none. *)
Definition invokeAzureAnthropic (body : value) : M value :=
  let azure := get_opt "azureAnthropic" (config w) in
  if negb (truthy (get_opt "endpoint" azure))
  then throw (mkError "Azure Anthropic endpoint is not configured.")
  else
    tools0 ← lift (get "tools" body);
    _ ← lift (injectionLog tools0 (STANDARD_TOOLS w));
    let sent :=
      match body with
      | VObj fields =>
          if clientSentTools tools0 then body
          else VObj (put "tools" (VArr (STANDARD_TOOLS w)) fields)
      | _ => body
      end in
    url ← lift (to_string (get_opt "endpoint" azure));
    performJsonRequest url
      (VObj [ ("Content-Type", VStr "application/json");
              ("x-api-key", get_opt "apiKey" azure);
              ("anthropic-version",
               nullish (get_opt "version" azure) (VStr "2023-06-01")) ])
      sent.

(** [invokeOpenRouter(body)] *)
Definition openRouterBody (body : value) : result value :=
  messages ← openAIMessages body;
  temperature ← get "temperature" body;
  max_tokens ← get "max_tokens" body;
  top_p ← get "top_p" body;
  stream ← get "stream" body;
  tools ← convertedTools body [];
  Ok (VObj ([ ("model", get_opt "model" (get_opt "openrouter" (config w)));
              ("messages", messages);
              ("temperature", nullish temperature (VNum (7 # 10)%Q));
              ("max_tokens", nullish max_tokens (num 4096));
              ("top_p", nullish top_p (num 1));
              ("stream", nullish stream (VBool false)) ]
            ++ tools)).

Definition invokeOpenRouter (body : value) : M value :=
  let openrouter := get_opt "openrouter" (config w) in
  if negb (truthy (get_opt "endpoint" openrouter))
     || negb (truthy (get_opt "apiKey" openrouter))
  then throw (mkError "OpenRouter endpoint or API key is not configured.")
  else
    authorization ← lift (bearer (get_opt "apiKey" openrouter));
    sent ← lift (openRouterBody body);
    url ← lift (to_string (get_opt "endpoint" openrouter));
    performJsonRequest url
      (VObj [ ("Authorization", authorization);
              ("Content-Type", VStr "application/json");
              ("HTTP-Referer", VStr "https://localhost:8080");
              ("X-Title", VStr "Claude-Ollama-Proxy") ])
      sent.

(** [detectAzureFormat(url)] *)
Definition detectAzureFormat (url : string) : result string :=
  if includes "/openai/responses" url then Ok "responses"
  else if includes "/models/" url then Ok "models"
  else if includes "/openai/deployments" url then Ok "deployments"
  else Throw (mkError "Unknown Azure OpenAI endpoint").

(** [Math.min(body.max_tokens ?? 4096, 16384)], for a number. *)
Definition cappedMaxTokens (max_tokens : value) : result value :=
  match nullish max_tokens (num 4096) with
  | VNum q => Ok (VNum (Qmin q (inject_Z 16384)))
  | _ => Unmodelled
  end.

(** The body [invokeAzureOpenAI] builds, before the format is looked at. *)
Definition azureOpenAIBody (body : value) : result value :=
  messages ← openAIMessages body;
  temperature ← get "temperature" body;
  max_tokens0 ← get "max_tokens" body;
  max_tokens ← cappedMaxTokens max_tokens0;
  top_p ← get "top_p" body;
  tools0 ← get "tools" body;
  tools ← match toolsToSend true tools0 with
          | Some l =>
              _ ← injectionLog tools0 l;
              converted ← convertAnthropicToolsToOpenRouter w (VArr l);
              _ ← toolNames l;
              _ ← get "length" messages;
              _ ← get "0" converted;
              Ok [ ("tools", converted);
                   ("parallel_tool_calls", VBool true);
                   ("tool_choice", VStr "auto") ]
          | None => Ok []
          end;
  Ok (VObj ([ ("messages", messages);
              ("temperature", nullish temperature (VNum (3 # 10)%Q));
              ("max_tokens", max_tokens);
              ("top_p", nullish top_p (num 1));
              ("stream", VBool false);
              ("model", get_opt "deployment" (get_opt "azureOpenAI" (config w))) ]
            ++ tools)).

(** [delete obj.k] *)
Definition remove (k : string) (fields : list (string * value)) : list (string * value) :=
  List.filter (fun kv => negb (String.eqb (fst kv) k)) fields.

(** The body posted for an endpoint of the given format. *)
Definition azureOpenAIRequest (format : string) (azureBody : value) : result value :=
  if String.eqb format "deployments" || String.eqb format "models" then Ok azureBody
  else if String.eqb format "responses" then
    max_tokens ← get "max_tokens" azureBody;
    Ok (VObj (remove "top_p"
             (remove "temperature"
             (remove "max_tokens"
             (put "max_completion_tokens" max_tokens (spread azureBody))))))
  else Throw (mkError ("Unsupported Azure OpenAI endpoint format: " ++ format)%string).

(** The headers: Azure AI Foundry takes a bearer token, Azure OpenAI an
    [api-key] header. *)
Definition azureOpenAIHeaders (endpoint : string) (apiKey : value) : result value :=
  if includes "services.ai.azure.com" endpoint
  then authorization ← bearer apiKey;
       Ok (VObj [ ("Content-Type", VStr "application/json");
                  ("Authorization", authorization) ])
  else Ok (VObj [ ("Content-Type", VStr "application/json");
                  ("api-key", apiKey) ]).

(** [invokeAzureOpenAI(body)], for an endpoint that is a string. *)
Definition invokeAzureOpenAI (body : value) : M value :=
  let azure := get_opt "azureOpenAI" (config w) in
  if negb (truthy (get_opt "endpoint" azure)) || negb (truthy (get_opt "apiKey" azure))
  then throw (mkError "Azure OpenAI endpoint or API key is not configured.")
  else
    match get_opt "endpoint" azure with
    | VStr endpoint =>
        format ← lift (detectAzureFormat endpoint);
        headers ← lift (azureOpenAIHeaders endpoint (get_opt "apiKey" azure));
        azureBody ← lift (azureOpenAIBody body);
        sent ← lift (azureOpenAIRequest format azureBody);
        performJsonRequest endpoint headers sent
    | _ => lift Unmodelled
    end.

(** [invokeOpenAI(body)] *)
Definition openAIBody (body : value) : result value :=
  messages ← openAIMessages body;
  temperature ← get "temperature" body;
  max_tokens ← get "max_tokens" body;
  top_p ← get "top_p" body;
  stream ← get "stream" body;
  tools ← convertedTools body [ ("parallel_tool_calls", VBool true);
                                ("tool_choice", VStr "auto") ];
  Ok (VObj ([ ("model", JS.or (get_opt "model" (get_opt "openai" (config w)))
                              (VStr "gpt-4o"));
              ("messages", messages);
              ("temperature", nullish temperature (VNum (7 # 10)%Q));
              ("max_tokens", nullish max_tokens (num 4096));
              ("top_p", nullish top_p (num 1));
              ("stream", nullish stream (VBool false)) ]
            ++ tools)).

Definition invokeOpenAI (body : value) : M value :=
  let openai := get_opt "openai" (config w) in
  if negb (truthy (get_opt "apiKey" openai))
  then throw (mkError "OpenAI API key is not configured.")
  else
    authorization ← lift (bearer (get_opt "apiKey" openai));
    let organization := get_opt "organization" openai in
    sent ← lift (openAIBody body);
    url ← lift (to_string (JS.or (get_opt "endpoint" openai)
                                 (VStr "https://api.openai.com/v1/chat/completions")));
    performJsonRequest url
      (VObj ([ ("Authorization", authorization);
               ("Content-Type", VStr "application/json") ]
             ++ (if truthy organization
                 then [("OpenAI-Organization", organization)] else [])))
      sent.

(** [invokeLMStudio(body)] *)
Definition lmstudioBody (body : value) : result value :=
  messages ← openAIMessages body;
  temperature ← get "temperature" body;
  max_tokens ← get "max_tokens" body;
  top_p ← get "top_p" body;
  stream ← get "stream" body;
  tools ← convertedTools body [("tool_choice", VStr "auto")];
  Ok (VObj ([ ("messages", messages);
              ("temperature", nullish temperature (VNum (7 # 10)%Q));
              ("max_tokens", nullish max_tokens (num 4096));
              ("top_p", nullish top_p (num 1));
              ("stream", nullish stream (VBool false)) ]
            ++ tools)).

Definition invokeLMStudio (body : value) : M value :=
  let lmstudio := get_opt "lmstudio" (config w) in
  if negb (truthy (get_opt "endpoint" lmstudio))
  then throw (mkError "LM Studio endpoint is not configured.")
  else
    base ← lift (to_string (get_opt "endpoint" lmstudio));
    headers ← lift (if truthy (get_opt "apiKey" lmstudio)
                    then authorization ← bearer (get_opt "apiKey" lmstudio);
                         Ok (VObj [ ("Content-Type", VStr "application/json");
                                    ("Authorization", authorization) ])
                    else Ok jsonHeaders);
    sent ← lift (lmstudioBody body);
    performJsonRequest (base ++ "/v1/chat/completions")%string headers sent.

(** The client of each backend. *)
Definition invokeClient (b : Backend) (body : value) : M value :=
  match b with
  | AzureOpenAI => invokeAzureOpenAI body
  | AzureAnthropic => invokeAzureAnthropic body
  | Ollama => invokeOllama body
  | OpenRouter => invokeOpenRouter body
  | OpenAI => invokeOpenAI body
  | LlamaCpp => invokeLlamaCpp body
  | LMStudio => invokeLMStudio body
  | Bedrock => invokeBedrock body
  | DatabricksBackend => invokeDatabricks body
  end.

End WithWorld.

End Databricks.

(** ** Regular expressions

    The fragment of JavaScript's regular expressions that the patterns of
    the code use, with the [i] flag and without the [g] and [m] flags, on
    strings whose characters are code units below 256. *)

Module Regex.

Definition chars (s : string) : list ascii := list_ascii_of_string s.

(** [\s]: the space, the controls 9 to 13 and the no-break space. *)
Definition is_space (c : ascii) : bool :=
  let n := nat_of_ascii c in
  Nat.eqb n 32 || (Nat.leb 9 n && Nat.leb n 13) || Nat.eqb n 160.

Definition is_digit (c : ascii) : bool :=
  let n := nat_of_ascii c in Nat.leb 48 n && Nat.leb n 57.

Definition is_upper (c : ascii) : bool :=
  let n := nat_of_ascii c in Nat.leb 65 n && Nat.leb n 90.

Definition is_lower (c : ascii) : bool :=
  let n := nat_of_ascii c in Nat.leb 97 n && Nat.leb n 122.

(** [\w] *)
Definition is_word (c : ascii) : bool :=
  is_upper c || is_lower c || is_digit c || Ascii.eqb c "_"%char.

Definition lower (c : ascii) : ascii :=
  if is_upper c then ascii_of_nat (nat_of_ascii c + 32) else c.

Definition is_newline (c : ascii) : bool :=
  let n := nat_of_ascii c in Nat.eqb n 10 || Nat.eqb n 13.

Inductive re : Type :=
| Eps
| Chr (p : ascii -> bool)
| Seq (a b : re)
| Alt (a b : re)
| Star (a : re)
| Bol
| Eol
| WordB.

Definition word_before (prev : option ascii) : bool :=
  match prev with Some c => is_word c | None => false end.

Definition word_after (s : list ascii) : bool :=
  match s with c :: _ => is_word c | [] => false end.

(** A backtracking matcher in continuation style: [matches r prev s k] tells
    whether [r] matches a prefix of [s] that [k] accepts the rest of;
    [prev] is the character before [s], if any.  An iteration of a star
    must consume a character. *)
Fixpoint matches (r : re) (prev : option ascii) (s : list ascii)
    (k : option ascii -> list ascii -> bool) {struct r} : bool :=
  match r with
  | Eps => k prev s
  | Chr p =>
      match s with
      | c :: s' => if p c then k (Some c) s' else false
      | [] => false
      end
  | Seq a b => matches a prev s (fun prev' s' => matches b prev' s' k)
  | Alt a b => if matches a prev s k then true else matches b prev s k
  | Star a =>
      (fix loop (fuel : nat) (prev : option ascii) (s : list ascii) : bool :=
         if k prev s then true else
         match fuel with
         | O => false
         | S fuel' =>
             matches a prev s
               (fun prev' s' =>
                  if Nat.ltb (List.length s') (List.length s)
                  then loop fuel' prev' s' else false)
         end) (List.length s) prev s
  | Bol => match prev with None => k prev s | Some _ => false end
  | Eol => match s with [] => k prev s | _ :: _ => false end
  | WordB => if xorb (word_before prev) (word_after s) then k prev s else false
  end.

Definition accept : option ascii -> list ascii -> bool := fun _ _ => true.

(** A match starting at any position. *)
Fixpoint search (r : re) (prev : option ascii) (s : list ascii) : bool :=
  if matches r prev s accept then true else
  match s with
  | [] => false
  | c :: s' => search r (Some c) s'
  end.

(** [pattern.test(s)] *)
Definition test (r : re) (s : string) : bool := search r None (chars s).

(** Building blocks: a literal (compared without regard to case), a
    sequence, an alternation, [r?], [r+], a character class given by its
    members, [\s], [\w], [\d], [.]. *)
Definition chr (x : ascii) : re := Chr (fun c => Ascii.eqb (lower c) (lower x)).

Fixpoint lit_chars (l : list ascii) : re :=
  match l with
  | [] => Eps
  | [x] => chr x
  | x :: rest => Seq (chr x) (lit_chars rest)
  end.

Definition lit (s : string) : re := lit_chars (chars s).

Fixpoint seqs (l : list re) : re :=
  match l with
  | [] => Eps
  | [r] => r
  | r :: rest => Seq r (seqs rest)
  end.

Fixpoint alts (l : list re) : re :=
  match l with
  | [] => Chr (fun _ => false)
  | [r] => r
  | r :: rest => Alt r (alts rest)
  end.

Definition words (l : list string) : re := alts (List.map lit l).

Definition opt (r : re) : re := Alt r Eps.
Definition plus (r : re) : re := Seq r (Star r).

Definition one_of (members : string) : ascii -> bool :=
  fun c => existsb (Ascii.eqb c) (chars members).

(** A class of letters under the [i] flag. *)
Definition one_of_i (members : string) : ascii -> bool :=
  fun c => existsb (fun x => Ascii.eqb (lower c) (lower x)) (chars members).

Definition space : re := Chr is_space.
Definition spaces : re := Star space.
Definition spaces1 : re := plus space.
Definition word_char : re := Chr is_word.
Definition digit : re := Chr is_digit.
Definition any : re := Chr (fun c => negb (is_newline c)).

(** [\b( ... )\b] *)
Definition whole (r : re) : re := seqs [WordB; r; WordB].

End Regex.

(** ** src/routing/complexity-analyzer.js *)

Module Complexity.
Import Regex.

(** *** Patterns *)

Module PATTERNS.

Definition greeting : re :=
  seqs [ Bol;
         alts [ lit "hi"; lit "hello"; lit "hey";
                seqs [lit "good"; spaces; words ["morning"; "afternoon"; "evening"]];
                lit "howdy"; lit "greetings"; lit "sup"; lit "yo";
                seqs [lit "thank"; opt (lit "s")];
                seqs [lit "thank"; spaces; lit "you"] ];
         Star (Chr (fun c => is_space c || one_of ".!?," c));
         Eol ].

Definition simpleQuestion : re :=
  seqs [ Bol;
         alts [ seqs [lit "what"; spaces1; lit "is"]; lit "what's"; lit "define";
                seqs [lit "who"; spaces1; lit "is"];
                seqs [lit "when"; spaces1; lit "was"];
                seqs [lit "where"; spaces1; lit "is"] ];
         spaces1; word_char ].

Definition yesNo : re :=
  seqs [ Bol;
         alts [ seqs [lit "is"; spaces1; lit "it"];
                seqs [lit "are"; spaces1; lit "there"];
                seqs [lit "can"; spaces1; lit "i"];
                seqs [lit "do"; spaces1; lit "you"];
                seqs [lit "does"; spaces1; lit "it"];
                seqs [lit "will"; spaces1; lit "it"];
                seqs [lit "should"; spaces1; lit "i"] ];
         spaces1 ].

Definition technical : re :=
  whole (words [ "code"; "function"; "class"; "method"; "variable"; "api";
                 "database"; "server"; "client"; "module"; "import"; "export";
                 "async"; "await"; "promise"; "component"; "interface"; "type";
                 "struct"; "enum" ]).

End PATTERNS.

Module ADVANCED_PATTERNS.

Definition files : re := seqs [lit "file"; opt (lit "s")].

Definition multiFile : re :=
  whole (alts [ seqs [plus digit; spaces; opt (lit "+"); spaces; files];
                seqs [lit "multiple"; spaces1; files];
                seqs [lit "across"; spaces1; files];
                seqs [lit "all"; spaces1; files];
                seqs [lit "every"; spaces1; lit "file"] ]).

Definition architecture : re :=
  whole (alts [ seqs [lit "architect"; opt (lit "ure")]; lit "microservice";
                lit "distributed"; seqs [lit "system"; spaces1; lit "design"];
                lit "scalab"; lit "infrastructure" ]).

Definition concurrent : re :=
  whole (alts [ lit "async"; lit "concurrent"; lit "parallel"; lit "thread";
                lit "worker"; lit "queue"; lit "mutex"; lit "lock";
                seqs [lit "race"; spaces1; lit "condition"] ]).

Definition security : re :=
  whole (alts [ lit "security"; seqs [lit "auth"; opt (lit "entication")];
                seqs [lit "authori"; Chr (one_of_i "sz"); lit "ation"];
                lit "encrypt"; lit "decrypt"; lit "vulnerab"; lit "injection";
                lit "xss"; lit "csrf"; lit "sanitiz" ]).

Definition testing : re :=
  whole (alts [ seqs [lit "test"; spaces1; lit "coverage"];
                seqs [lit "integration"; spaces1; lit "test"];
                lit "e2e";
                seqs [lit "end"; any; lit "to"; any; lit "end"];
                seqs [lit "unit"; spaces1; lit "test"];
                lit "regression"; lit "benchmark" ]).

Definition performance : re :=
  whole (alts [ seqs [lit "optimi"; Chr (one_of_i "sz"); lit "e"]; lit "performance";
                seqs [lit "memory"; spaces1; lit "leak"]; lit "profil";
                lit "bottleneck";
                seqs [lit "cach"; alts [lit "e"; lit "ing"]] ]).

Definition database : re :=
  whole (alts [ lit "migration"; lit "schema"; lit "index";
                seqs [lit "query"; spaces1; lit "optimi"];
                lit "transaction"; lit "rollback"; lit "backup" ]).

Definition stepByStep : re :=
  whole (alts [ seqs [lit "step"; spaces1; lit "by"; spaces1; lit "step"];
                seqs [lit "think"; spaces1; lit "through"];
                seqs [lit "let"; opt (lit "'"); lit "s"; spaces1; lit "reason"];
                lit "reasoning";
                seqs [lit "chain"; spaces1; lit "of"; spaces1; lit "thought"] ]).

Definition tradeoffs : re :=
  whole (alts [ seqs [lit "trade"; opt any; lit "off"];
                seqs [lit "pro"; opt (lit "s"); spaces1; lit "and"; spaces1;
                      lit "con"; opt (lit "s")];
                seqs [lit "compare"; spaces1; lit "option"; opt (lit "s")];
                seqs [lit "weigh"; spaces1; opt (seqs [lit "the"; spaces1]);
                      lit "option"; opt (lit "s")];
                seqs [lit "advantage"; opt (lit "s"); spaces1; lit "and"; spaces1;
                      lit "disadvantage"; opt (lit "s")] ]).

Definition analysis : re :=
  whole (alts [ seqs [lit "analy"; Chr (one_of_i "sz"); lit "e"]; lit "evaluat";
                lit "assess";
                seqs [lit "review"; spaces1; words ["the"; "this"; "my"]];
                lit "audit"; lit "investigate"; lit "diagnos" ]).

Definition planning : re :=
  whole (alts [ seqs [lit "plan"; opt (lit "ning")]; lit "strategy"; lit "approach";
                lit "roadmap"; seqs [lit "design"; spaces1; lit "doc"];
                lit "rfc"; lit "proposal" ]).

Definition edgeCases : re :=
  whole (alts [ seqs [lit "edge"; spaces1; lit "case"];
                seqs [lit "corner"; spaces1; lit "case"];
                seqs [lit "what"; spaces1; lit "if"];
                lit "exception";
                seqs [lit "error"; spaces1; lit "handling"];
                lit "fallback" ]).

Definition entire : re :=
  seqs [ WordB;
         alts [ lit "entire"; lit "whole"; lit "complete"; lit "full";
                seqs [lit "all"; spaces1; lit "of"] ];
         spaces1;
         words ["codebase"; "project"; "app"; "application"; "system"; "repo"] ].

Definition refactor : re :=
  whole (alts [ lit "refactor"; lit "restructure";
                seqs [lit "reorgani"; Chr (one_of_i "sz"); lit "e"];
                lit "rewrite"; lit "overhaul"; lit "migrate" ]).

Definition implement : re :=
  seqs [ WordB;
         words ["implement"; "build"; "create"; "develop"];
         spaces1;
         opt (seqs [lit "a"; spaces1]);
         opt (seqs [lit "new"; spaces1]);
         words ["feature"; "system"; "module"; "service"; "api"] ].

Definition fromScratch : re :=
  whole (alts [ seqs [lit "from"; spaces1; lit "scratch"];
                seqs [lit "ground"; spaces1; lit "up"];
                lit "greenfield"; lit "bootstrap"; lit "scaffold" ]).

End ADVANCED_PATTERNS.

(** Each force-cloud pattern with the first 30 characters of its source,
    which [scoreTaskType] reports. *)
Definition FORCE_CLOUD_PATTERNS : list (re * string) :=
  [ (whole (alts [ seqs [lit "security"; spaces1; words ["audit"; "review"; "assessment"]];
                   seqs [lit "penetration"; spaces1; lit "test"];
                   seqs [lit "vulnerability"; spaces1; lit "scan"] ]),
     "\b(security\s+(audit|review|as");
    (whole (alts [ seqs [lit "architect"; opt (lit "ure"); spaces1;
                         words ["review"; "design"; "diagram"]];
                   seqs [lit "system"; spaces1; lit "design"] ]),
     "\b(architect(ure)?\s+(review|d");
    (whole (alts [ seqs [lit "refactor"; spaces1;
                         alts [ lit "entire"; lit "whole"; lit "all";
                                seqs [lit "the"; spaces1; lit "entire"] ]];
                   seqs [lit "complete"; spaces1; lit "rewrite"] ]),
     "\b(refactor\s+(entire|whole|al");
    (whole (alts [ seqs [lit "code"; spaces1; lit "review"];
                   seqs [lit "pr"; spaces1; lit "review"];
                   seqs [lit "pull"; spaces1; lit "request"; spaces1; lit "review"] ]),
     "\b(code\s+review|pr\s+review|p");
    (whole (seqs [ lit "debug"; opt (lit "ging"); spaces1;
                   words ["complex"; "difficult"; "hard"; "tricky"] ]),
     "\b(debug(ging)?\s+(complex|dif");
    (whole (seqs [ lit "production"; spaces1;
                   words ["issue"; "bug"; "incident"; "outage"] ]),
     "\b(production\s+(issue|bug|inc") ].

Definition trailing : re := Star (Chr (fun c => is_space c || one_of ".!?" c)).

Definition FORCE_LOCAL_PATTERNS : list re :=
  [ seqs [ Bol;
           alts [ lit "hi"; lit "hello"; lit "hey";
                  seqs [lit "thank"; opt (lit "s")];
                  seqs [lit "thank"; spaces; lit "you"]; lit "bye"; lit "goodbye" ];
           trailing; Eol ];
    seqs [ Bol; lit "what"; spaces1; words ["time"; "day"; "date"]; spaces1;
           lit "is"; spaces1; lit "it" ];
    seqs [ Bol;
           alts [ lit "yes"; lit "no"; lit "ok"; lit "okay"; lit "sure";
                  seqs [lit "got"; spaces1; lit "it"]; lit "understood" ];
           trailing; Eol ];
    seqs [ Bol;
           alts [ lit "help"; lit "menu"; seqs [lit "command"; opt (lit "s")];
                  seqs [lit "option"; opt (lit "s")] ];
           trailing; Eol ] ].

(** *** The request payload

    The payload as the canonical data model has it: a list of messages
    (possibly absent), each with a role and a content that is a string, a
    list of blocks, or something else; and a list of tools (possibly
    absent).  A block has a type and a text, empty when it has none. *)

Record Block : Type := mkBlock { block_type : string; block_text : string }.

Inductive Content : Type :=
| Text (s : string)
| Blocks (blocks : list Block)
| Other.

Record Message : Type := mkMessage { role : string; content : Content }.

Record Payload : Type := mkPayload {
  messages : option (list Message);
  tools : option (list value)
}.

(** [config.smartToolSelection?.mode], when set. *)
Definition ModeSetting : Type := option string.

(** *** Core analysis functions *)

Definition blocksText (sep : string) (blocks : list Block) : string :=
  join sep (List.map block_text
              (List.filter (fun b => String.eqb (block_type b) "text") blocks)).

(** The loop of [extractContent], from the last message down. *)
Fixpoint lastUserContent (reversed : list Message) : string :=
  match reversed with
  | [] => EmptyString
  | msg :: earlier =>
      if String.eqb (role msg) "user" then
        match content msg with
        | Text s => s
        | Blocks blocks => blocksText " " blocks
        | Other => lastUserContent earlier
        end
      else lastUserContent earlier
  end.

Definition extractContent (payload : Payload) : string :=
  match messages payload with
  | None => EmptyString
  | Some msgs => lastUserContent (List.rev msgs)
  end.

Definition contentChars (c : Content) : Z :=
  match c with
  | Text s => Z.of_nat (String.length s)
  | Blocks blocks =>
      List.fold_left (fun total b => total + Z.of_nat (String.length (block_text b)))%Z
                     blocks 0%Z
  | Other => 0%Z
  end.

(** [Math.ceil(totalChars / 4)] *)
Definition estimateTokens (payload : Payload) : Z :=
  match messages payload with
  | None => 0%Z
  | Some msgs =>
      let totalChars :=
        List.fold_left (fun total msg => total + contentChars (content msg))%Z msgs 0%Z in
      ((totalChars + 3) / 4)%Z
  end.

Definition scoreTokens (payload : Payload) : Z :=
  let tokens := estimateTokens payload in
  if (tokens <? 500)%Z then 0%Z
  else if (tokens <? 1000)%Z then 4%Z
  else if (tokens <? 2000)%Z then 8%Z
  else if (tokens <? 4000)%Z then 12%Z
  else if (tokens <? 8000)%Z then 16%Z
  else 20%Z.

Definition toolCount (payload : Payload) : Z :=
  match tools payload with
  | Some l => Z.of_nat (List.length l)
  | None => 0%Z
  end.

Definition scoreTools (payload : Payload) : Z :=
  let count := toolCount payload in
  if (count =? 0)%Z then 0%Z
  else if (count <=? 3)%Z then 4%Z
  else if (count <=? 6)%Z then 8%Z
  else if (count <=? 10)%Z then 12%Z
  else if (count <=? 15)%Z then 16%Z
  else 20%Z.

Record Scored : Type := mkScored { score : Z; reason : string; pattern : option string }.

Definition firstForceCloud (text : string) : option string :=
  match List.find (fun p => test (fst p) text) FORCE_CLOUD_PATTERNS with
  | Some p => Some (snd p)
  | None => None
  end.

Definition scoreTaskType (text : string) : Scored :=
  if existsb (fun p => test p text) FORCE_LOCAL_PATTERNS
  then mkScored 0 "force_local" (Some "greeting_or_simple")
  else match firstForceCloud text with
  | Some source => mkScored 25 "force_cloud" (Some source)
  | None =>
  if test PATTERNS.greeting text then mkScored 0 "greeting" None
  else if test PATTERNS.simpleQuestion text && negb (test PATTERNS.technical text)
  then mkScored 3 "simple_question" None
  else if test PATTERNS.yesNo text then mkScored 2 "yes_no_question" None
  else if test ADVANCED_PATTERNS.entire text then mkScored 22 "entire_codebase" None
  else if test ADVANCED_PATTERNS.fromScratch text then mkScored 20 "from_scratch" None
  else if test ADVANCED_PATTERNS.implement text then mkScored 18 "new_implementation" None
  else if test ADVANCED_PATTERNS.refactor text then mkScored 16 "refactoring" None
  else if test PATTERNS.technical text then mkScored 10 "technical_content" None
  else mkScored 5 "general" None
  end.

(** The additive scores: each pattern that matches adds its points and its
    reason. *)
Definition tally (rules : list (re * Z * string)) (text : string) : Z * list string :=
  List.fold_left
    (fun acc rule =>
       match rule with
       | (pattern, points, name) =>
           if test pattern text then (fst acc + points, snd acc ++ [name])%Z else acc
       end)
    rules (0%Z, []).

Definition codeComplexityRules : list (re * Z * string) :=
  [ (ADVANCED_PATTERNS.multiFile, 5, "multi_file");
    (ADVANCED_PATTERNS.architecture, 5, "architecture");
    (ADVANCED_PATTERNS.concurrent, 3, "concurrency");
    (ADVANCED_PATTERNS.security, 4, "security");
    (ADVANCED_PATTERNS.testing, 2, "testing");
    (ADVANCED_PATTERNS.performance, 3, "performance");
    (ADVANCED_PATTERNS.database, 3, "database") ]%Z.

Definition reasoningRules : list (re * Z * string) :=
  [ (ADVANCED_PATTERNS.stepByStep, 4, "step_by_step");
    (ADVANCED_PATTERNS.tradeoffs, 4, "tradeoffs");
    (ADVANCED_PATTERNS.analysis, 3, "analysis");
    (ADVANCED_PATTERNS.planning, 3, "planning");
    (ADVANCED_PATTERNS.edgeCases, 2, "edge_cases") ]%Z.

Definition scoreCodeComplexity (text : string) : Z * list string :=
  let t := tally codeComplexityRules text in (Z.min (fst t) 20, snd t).

Definition scoreReasoning (text : string) : Z * list string :=
  let t := tally reasoningRules text in (Z.min (fst t) 15, snd t).

Definition modeOf (cfg : ModeSetting) : string :=
  match cfg with Some mode => mode | None => "heuristic" end.

Definition getThreshold (cfg : ModeSetting) : Z :=
  let mode := modeOf cfg in
  if String.eqb mode "aggressive" then 60%Z
  else if String.eqb mode "conservative" then 25%Z
  else 40%Z.

Record Analysis : Type := mkAnalysis {
  total : Z;
  threshold : Z;
  mode : string;
  recommendation : string;
  tokens : Z;
  toolsScore : Z;
  taskType : Scored;
  codeComplexity : Z * list string;
  reasoning : Z * list string;
  conversationBonus : Z
}.

(** [analyzeComplexity(payload)]; [total] is the [score] of the result. *)
Definition analyzeComplexity (cfg : ModeSetting) (payload : Payload) : Analysis :=
  let text := extractContent payload in
  let messageCount :=
    match messages payload with
    | Some msgs => Z.of_nat (List.length msgs)
    | None => 0%Z
    end in
  let tokenScore := scoreTokens payload in
  let toolScore := scoreTools payload in
  let taskTypeResult := scoreTaskType text in
  let codeComplexityResult := scoreCodeComplexity text in
  let reasoningResult := scoreReasoning text in
  let totalScore :=
    Z.min (tokenScore + toolScore + score taskTypeResult
           + fst codeComplexityResult + fst reasoningResult) 100 in
  let bonus :=
    if (10 <? messageCount)%Z then 5%Z
    else if (5 <? messageCount)%Z then 2%Z else 0%Z in
  let adjustedScore := Z.min (totalScore + bonus) 100 in
  let limit := getThreshold cfg in
  let advice :=
    if String.eqb (reason taskTypeResult) "force_local" then "local"
    else if String.eqb (reason taskTypeResult) "force_cloud" then "cloud"
    else if (limit <=? adjustedScore)%Z then "cloud" else "local" in
  mkAnalysis adjustedScore limit (modeOf cfg) advice tokenScore toolScore
             taskTypeResult codeComplexityResult reasoningResult bonus.

(** [shouldForceLocal(payload)] and [shouldForceCloud(payload)] *)
Definition shouldForceLocal (payload : Payload) : bool :=
  existsb (fun p => test p (extractContent payload)) FORCE_LOCAL_PATTERNS.

Definition shouldForceCloud (payload : Payload) : bool :=
  existsb (fun p => test (fst p) (extractContent payload)) FORCE_CLOUD_PATTERNS.

End Complexity.

(** ** The memory search module ([searchMemories], [prepareFTS5Query]) *)

Module Search.
Import Regex.

(** *** String operations *)

Fixpoint dropWhile (p : ascii -> bool) (s : list ascii) : list ascii :=
  match s with
  | [] => []
  | c :: rest => if p c then dropWhile p rest else s
  end.

(** [s.trim()] *)
Definition trim (s : list ascii) : list ascii :=
  List.rev (dropWhile is_space (List.rev (dropWhile is_space s))).

(** The number of characters that [[^>]+>] matches at the head of [s]. *)
Fixpoint tagLength (s : list ascii) : option nat :=
  match s with
  | [] => None
  | c :: rest =>
      if Ascii.eqb c ">"%char then None
      else match rest with
           | [] => None
           | c' :: _ =>
               if Ascii.eqb c' ">"%char then Some 2
               else S <$> tagLength rest
           end
  end.

(** [s.replace(/<[^>]+>/g, ' ')]: [skip] characters of a tag remain to be
    dropped. *)
Fixpoint stripTagsFrom (skip : nat) (s : list ascii) : list ascii :=
  match s with
  | [] => []
  | c :: rest =>
      match skip with
      | S n => stripTagsFrom n rest
      | O =>
          if Ascii.eqb c "<"%char then
            match tagLength rest with
            | Some n => " "%char :: stripTagsFrom n rest
            | None => c :: stripTagsFrom 0 rest
            end
          else c :: stripTagsFrom 0 rest
      end
  end.

Definition stripTags (s : list ascii) : list ascii := stripTagsFrom 0 s.

(** [s.replace(/\s+/g, ' ')]: a space is written at the last character of
    each run of white space. *)
Fixpoint collapse (s : list ascii) : list ascii :=
  match s with
  | [] => []
  | c :: rest =>
      if is_space c then
        match rest with
        | c' :: _ => if is_space c' then collapse rest else " "%char :: collapse rest
        | [] => [" "%char]
        end
      else c :: collapse rest
  end.

(** [s.replace(/[...]/g, ' ')] for a character class. *)
Definition blank (class : ascii -> bool) (s : list ascii) : list ascii :=
  List.map (fun c => if class c then " "%char else c) s.

(** The class of step 4, and the class of step 6: neither a word character,
    nor white space, nor a double quote. *)
Definition special : ascii -> bool := one_of "*()<>-:[]|,+=?!;/\@#$%^&{}".

Definition unsafe (c : ascii) : bool :=
  negb (is_word c || is_space c || Ascii.eqb c dquote).

(** Step 5: every double quote is written twice. *)
Definition escapeQuotes (s : list ascii) : list ascii :=
  List.flat_map (fun c => if Ascii.eqb c dquote then [dquote; dquote] else [c]) s.

(** [/\b(AND|OR|NOT)\b/i] *)
Definition operators : re := whole (words ["AND"; "OR"; "NOT"]).

(** *** [prepareFTS5Query] *)

(** Steps 1 and 2: the query without its tags. *)
Definition tagless (query : list ascii) : list ascii :=
  trim (collapse (stripTags (trim query))).

(** Step 3. *)
Definition hasFTS5Operators (cleaned : list ascii) : bool :=
  search operators None cleaned.

(** Steps 4 to 6. *)
Definition residue (cleaned : list ascii) : list ascii :=
  let cleaned := blank special cleaned in
  let cleaned := trim (collapse cleaned) in
  let cleaned := escapeQuotes cleaned in
  let cleaned := blank unsafe cleaned in
  trim (collapse cleaned).

Definition quoted (s : list ascii) : list ascii := dquote :: s ++ [dquote].

Definition prepareFTS5Query (query : string) : string :=
  let cleaned := tagless (chars query) in
  match cleaned with
  | [] => string_of_list_ascii (quoted (chars "empty query"))
  | _ :: _ =>
      if hasFTS5Operators cleaned
      then string_of_list_ascii (residue cleaned)
      else string_of_list_ascii (quoted (residue cleaned))
  end.

(** *** [searchMemories]

    The database is a collaborator: [db.prepare(sql).all(...params)] answers
    rows or raises ([inr]), and so does [JSON.parse]. *)

Record Database : Type := mkDatabase {
  all : string -> list value -> list value + value;
  JSON_parse : value -> value + value
}.

(** A destructured option with its default. *)
Definition option_or (k : string) (default : value) (options : value) : result value :=
  v ← get k options;
  Ok (match v with VUndefined => default | _ => v end).

Definition select : string :=
  ("SELECT m.id, m.session_id, m.content, m.type, m.category, m.importance, "
   ++ "m.surprise_score, m.access_count, m.decay_factor, m.source_turn_id, "
   ++ "m.created_at, m.updated_at, m.last_accessed_at, m.metadata, fts.rank "
   ++ "FROM memories_fts fts JOIN memories m ON m.id = fts.rowid "
   ++ "WHERE memories_fts MATCH ?")%string.

(** [names && Array.isArray(names) && names.length > 0]: the clause and the
    parameters that a list filter adds. *)
Definition listFilter (column : string) (names : value) : string * list value :=
  match names with
  | VArr (n :: rest) =>
      ((" AND " ++ column ++ " IN ("
          ++ join "," (List.map (fun _ => "?") (n :: rest)) ++ ")")%string,
       n :: rest)
  | _ => (EmptyString, [])
  end.

Definition sessionFilter (sessionId : value) : string * list value :=
  if truthy sessionId
  then (" AND (m.session_id = ? OR m.session_id IS NULL)", [sessionId])
  else (EmptyString, []).

Definition importanceFilter (minImportance : value) : string * list value :=
  match minImportance with
  | VNum _ => (" AND m.importance >= ?", [minImportance])
  | _ => (EmptyString, [])
  end.

(** The callback of [rows.map]. *)
Definition memoryOfRow (db : Database) (row : value) : result value :=
  id ← get "id" row;
  session_id ← get "session_id" row;
  content ← get "content" row;
  type ← get "type" row;
  category ← get "category" row;
  importance ← get "importance" row;
  surprise_score ← get "surprise_score" row;
  access_count ← get "access_count" row;
  decay_factor ← get "decay_factor" row;
  source_turn_id ← get "source_turn_id" row;
  created_at ← get "created_at" row;
  updated_at ← get "updated_at" row;
  last_accessed_at ← get "last_accessed_at" row;
  metadata0 ← get "metadata" row;
  metadata ← (if truthy metadata0 then outcome (JSON_parse db metadata0)
              else Ok (VObj []));
  rank ← get "rank" row;
  Ok (VObj [ ("id", id);
             ("sessionId", nullish session_id VNull);
             ("content", content);
             ("type", type);
             ("category", nullish category VNull);
             ("importance", nullish importance (VNum (1 # 2)));
             ("surpriseScore", nullish surprise_score (num 0));
             ("accessCount", nullish access_count (num 0));
             ("decayFactor", nullish decay_factor (num 1));
             ("sourceTurnId", nullish source_turn_id VNull);
             ("createdAt", created_at);
             ("updatedAt", updated_at);
             ("lastAccessedAt", nullish last_accessed_at VNull);
             ("metadata", metadata);
             ("rank", rank) ]).

(** [try { ... } catch (err) { return []; }] *)
Definition orEmpty (attempt : result (list value)) : result (list value) :=
  match attempt with
  | Throw _ => Ok []
  | other => other
  end.

Definition searchMemories (db : Database) (options : value) : result (list value) :=
  query ← get "query" options;
  limit ← option_or "limit" (num 10) options;
  types ← option_or "types" VNull options;
  categories ← option_or "categories" VNull options;
  sessionId ← option_or "sessionId" VNull options;
  minImportance ← option_or "minImportance" VNull options;
  match query with
  | VStr (String c q) =>
      let ftsQuery := prepareFTS5Query (String c q) in
      let filters := [ sessionFilter sessionId;
                       listFilter "m.type" types;
                       listFilter "m.category" categories;
                       importanceFilter minImportance ] in
      let sql := (select ++ String.concat EmptyString (List.map fst filters)
                    ++ " ORDER BY fts.rank, m.importance DESC LIMIT ?")%string in
      let params := [VStr ftsQuery] ++ List.concat (List.map snd filters) ++ [limit] in
      orEmpty (rows ← outcome (all db sql params); mapR (memoryOfRow db) rows)
  | _ => Ok []
  end.


(** *** Keywords *)

(** [s.toLowerCase()] on code units below 256. *)
Definition lowerCase (c : ascii) : ascii :=
  let n := nat_of_ascii c in
  if is_upper c || (Nat.leb 192 n && Nat.leb n 222 && negb (Nat.eqb n 215))
  then ascii_of_nat (n + 32) else c.

Definition toLowerCase (s : list ascii) : list ascii := List.map lowerCase s.

(** [s.split(/\s+/)]: [word] holds the characters of the current piece,
    last first; a piece ends at the last character of a run of white
    space. *)
Fixpoint splitFrom (word : list ascii) (s : list ascii) : list (list ascii) :=
  match s with
  | [] => [List.rev word]
  | c :: rest =>
      if is_space c then
        match rest with
        | c' :: _ =>
            if is_space c' then splitFrom word rest
            else List.rev word :: splitFrom [] rest
        | [] => [List.rev word; []]
        end
      else splitFrom (c :: word) rest
  end.

Definition split (s : list ascii) : list (list ascii) := splitFrom [] s.

Definition stopwords : list string :=
  [ "the"; "is"; "at"; "which"; "on"; "and"; "or"; "not"; "this"; "that";
    "with"; "from"; "for"; "to"; "in"; "of"; "a"; "an" ].

(** The filter callback of [extractKeywords]. *)
Definition isKeyword (word : string) : bool :=
  Nat.ltb 3 (String.length word) && negb (existsb (String.eqb word) stopwords).

Definition keywordsOf (text : string) : list string :=
  List.filter isKeyword
    (List.map (fun word => string_of_list_ascii (List.filter is_word word))
              (split (toLowerCase (chars text)))).

(** [extractKeywords(text)].  A text that is not a string has no
    [toLowerCase] method. *)
Definition extractKeywords (text : value) : result (list string) :=
  if negb (truthy text) then Ok []
  else match text with
       | VStr s => Ok (keywordsOf s)
       | _ => Throw TypeError
       end.

(** *** Searches built on [searchMemories] *)

(** A number used in arithmetic; the coercion of other values is not
    modelled. *)
Definition number (v : value) : result Q :=
  match v with
  | VNum q => Ok q
  | _ => Unmodelled
  end.

(** ToIntegerOrInfinity on a rational: the fraction is dropped. *)
Definition truncate (q : Q) : Z := Z.quot (Qnum q) (Zpos (Qden q)).

(** [items.slice(0, limit)] *)
Definition sliceTo (limit : Q) (items : list value) : list value :=
  let len := Z.of_nat (List.length items) in
  let n := truncate limit in
  let to := if (n <? 0)%Z then Z.max (len + n) 0 else Z.min n len in
  List.firstn (Z.to_nat to) items.

(** [items.length < limit] *)
Definition fewerThan (limit : Q) (items : list value) : bool :=
  negb (Qle_bool limit (inject_Z (Z.of_nat (List.length items)))).

(** The inner loop of [searchWithExpansion]: the results not seen yet are
    pushed, and their ids added to [seen]. *)
Fixpoint addNew (found results seen : list value) : result (list value * list value) :=
  match found with
  | [] => Ok (results, seen)
  | r :: rest =>
      id ← get "id" r;
      if existsb (strict_eq id) seen then addNew rest results seen
      else addNew rest (results ++ [r]) (seen ++ [id])
  end.

(** Its outer loop, over the keywords. *)
Fixpoint expand (db : Database) (options : value) (limit : Q)
    (keywords : list string) (results seen : list value) : result (list value) :=
  match keywords with
  | [] => Ok results
  | keyword :: rest =>
      if negb (fewerThan limit results) then Ok results
      else
        let remaining := (limit - inject_Z (Z.of_nat (List.length results)))%Q in
        kwResults ← searchMemories db
                      (VObj (put "limit" (VNum remaining)
                            (put "query" (VStr keyword) (spread options))));
        st ← addNew kwResults results seen;
        expand db options limit rest (fst st) (snd st)
  end.

(** [searchWithExpansion(options)] *)
Definition searchWithExpansion (db : Database) (options : value) : result (list value) :=
  query ← get "query" options;
  limit0 ← option_or "limit" (num 10) options;
  keywords ← extractKeywords query;
  limit ← number limit0;
  results ← searchMemories db (VObj (put "limit" (VNum (limit * 2)%Q) (spread options)));
  results ←
    (if fewerThan limit results && Nat.ltb 1 (List.length keywords)
     then seen ← mapR (get "id") results;
          expand db options limit keywords results seen
     else Ok results);
  Ok (sliceTo limit results).

(** [keywords.join(" OR ")] *)
Definition orQuery (keywords : list string) : string := join " OR " keywords.

(** [findSimilar(memoryId, limit = 5)]; [getMemory] is [store.getMemory],
    which answers a memory, nothing, or raises. *)
Definition findSimilar (getMemory : value -> value + value) (db : Database)
    (memoryId limit0 : value) : result (list value) :=
  let limit1 := match limit0 with VUndefined => num 5 | _ => limit0 end in
  memory ← outcome (getMemory memoryId);
  if negb (truthy memory)
  then id ← to_string memoryId;
       Throw (mkError ("Memory with id " ++ id ++ " not found")%string)
  else
    content ← get "content" memory;
    keywords ← extractKeywords content;
    match keywords with
    | [] => Ok []
    | _ :: _ =>
        limit ← number limit1;
        results ← searchMemories db
                    (VObj [ ("query", VStr (orQuery keywords));
                            ("limit", VNum (limit + 1)%Q) ]);
        others ← filterR (fun r => id ← get "id" r;
                                   Ok (negb (strict_eq id memoryId))) results;
        Ok (sliceTo limit others)
    end.

(** [searchByContent(content, options = {})] *)
Definition searchByContent (db : Database) (content options0 : value)
  : result (list value) :=
  let options := match options0 with VUndefined => VObj [] | _ => options0 end in
  keywords ← extractKeywords content;
  match keywords with
  | [] => Ok []
  | _ :: _ =>
      searchMemories db
        (VObj (put "query" (VStr (orQuery (List.firstn 5 keywords))) (spread options)))
  end.

(** [countSearchResults(options)] *)
Definition countSearchResults (db : Database) (options : value) : result nat :=
  results ← searchMemories db (VObj (put "limit" (num 1000) (spread options)));
  Ok (List.length results).
End Search.

(** ** The full-text engine

    The query syntax of SQLite's FTS5, which evaluates
    [memories_fts MATCH ?].  The engine is not part of the repository; this
    is its documented grammar, for queries made of barewords, quoted
    strings and the operators AND, OR and NOT.  Column filters, NEAR
    groups, prefix and initial-token marks and parentheses are left out. *)

Module FTS5.
Import Regex.

Inductive token : Type := STRING | AND | OR | NOT | PUNCT (c : ascii).

Inductive state : Type :=
| Outside
| Bareword (seen : list ascii)
| Quoted
| QuoteSeen.

Definition is_blank : ascii -> bool :=
  fun c => let n := nat_of_ascii c in
           Nat.eqb n 32 || Nat.eqb n 9 || Nat.eqb n 10 || Nat.eqb n 13.

(** The characters of a bareword: letters, digits, the underscore, the
    substitute character and every character above 127. *)
Definition is_bareword (c : ascii) : bool :=
  is_word c || Nat.eqb (nat_of_ascii c) 26 || Nat.leb 128 (nat_of_ascii c).

(** The operators are recognised in upper case only. *)
Definition bareword (seen : list ascii) : token :=
  let w := string_of_list_ascii seen in
  if String.eqb w "AND" then AND
  else if String.eqb w "OR" then OR
  else if String.eqb w "NOT" then NOT
  else STRING.

(** A character met between two tokens. *)
Definition start (c : ascii) : option (state * list token) :=
  if is_blank c then Some (Outside, [])
  else if Ascii.eqb c dquote then Some (Quoted, [])
  else if is_bareword c then Some (Bareword [c], [])
  else if one_of "(){}:,+*-^" c then Some (Outside, [PUNCT c])
  else None.

(** The tokens of a query; [None] on a character that starts no token and on
    an unterminated string.  Inside a string, two double quotes stand for
    one. *)
Fixpoint lex (st : state) (s : list ascii) : option (list token) :=
  match s with
  | [] =>
      match st with
      | Outside => Some []
      | Bareword seen => Some [bareword seen]
      | Quoted => None
      | QuoteSeen => Some [STRING]
      end
  | c :: rest =>
      match st with
      | Outside =>
          match start c with
          | Some (st', out) => (fun l => out ++ l) <$> lex st' rest
          | None => None
          end
      | Bareword seen =>
          if is_bareword c then lex (Bareword (seen ++ [c])) rest
          else match start c with
               | Some (st', out) => (fun l => bareword seen :: out ++ l) <$> lex st' rest
               | None => None
               end
      | Quoted =>
          if Ascii.eqb c dquote then lex QuoteSeen rest else lex Quoted rest
      | QuoteSeen =>
          if Ascii.eqb c dquote then lex Quoted rest
          else match start c with
               | Some (st', out) => (fun l => STRING :: out ++ l) <$> lex st' rest
               | None => None
               end
      end
  end.

(** A query is one or more strings, or two queries joined by an operator:
    every operator stands between two strings. *)
Fixpoint expr (operand : bool) (tokens : list token) : bool :=
  match tokens with
  | [] => negb operand
  | STRING :: rest => expr false rest
  | _ :: rest => if operand then false else expr true rest
  end.

Definition is_punct (t : token) : bool :=
  match t with PUNCT _ => true | _ => false end.

Inductive verdict : Type := Accepted | Rejected | NotModelled.

(** The engine's answer to a query.  A NUL character, which ends the
    engine's input, is not modelled. *)
Definition parse (query : string) : verdict :=
  if existsb (Ascii.eqb zero) (chars query) then NotModelled
  else match lex Outside (chars query) with
       | None => Rejected
       | Some tokens =>
           if existsb is_punct tokens then NotModelled
           else if expr true tokens then Accepted else Rejected
       end.

End FTS5.

(** ** The memory extraction module ([extractMemories],
       [createMemoryWithSurprise]) *)

Module Extractor.

(** The argument of [store.createMemory]. *)
Record NewMemory : Type := mkNewMemory {
  sessionId : value;
  content : string;
  type : string;
  category : string;
  importance : Q;
  surpriseScore : Q;
  metadata : list (string * value)
}.

(** The argument of [createMemoryWithSurprise]. *)
Record Options : Type := mkOptions {
  o_content : string;
  o_type : string;
  o_category : string;
  o_sessionId : value;
  o_userContent : string;
  o_metadata : list (string * value)
}.

Record Relationship : Type := mkRelationship {
  r_from : string;
  r_to : string;
  r_relationship : string
}.

(** What the extraction patterns find in a text: the results of
    [extractByType] for the three types, of [extractEntities] and of
    [extractRelationships]. *)
Record Candidates : Type := mkCandidates {
  preferences : list string;
  decisions : list string;
  facts : list string;
  entities : list string;
  relationships : list Relationship
}.

(** [classifyCategory(content)] *)
Definition toLowerCase (s : string) : string :=
  string_of_list_ascii (List.map Regex.lower (list_ascii_of_string s)).

Definition classifyCategory (content : string) : string :=
  let lower := toLowerCase content in
  if includes "code" lower || includes "function" lower || includes "file" lower
     || includes "class" lower || includes "module" lower then "code"
  else if includes "project" lower || includes "application" lower
          || includes "system" lower then "project"
  else if includes "user" lower || includes "prefer" lower || includes "like" lower
  then "user"
  else "general".

(** The object literal [baseImportance]: its own properties. *)
Definition baseImportance : gmap string Q :=
  <["preference" := (7 # 10)%Q]>
  (<["decision" := (8 # 10)%Q]>
  (<["fact" := (6 # 10)%Q]>
  (<["entity" := (4 # 10)%Q]>
  (<["relationship" := (5 # 10)%Q]> ∅)))).

(** [calculateInitialImportance(type, surpriseScore)].  For a type that
    names a member of [Object.prototype] the base is not a number. *)
Definition calculateInitialImportance (type : string) (surpriseScore : Q) : result Q :=
  match baseImportance !! type with
  | Some base => Ok (Qmin 1 (base + surpriseScore * (3 # 10)))%Q
  | None =>
      match inherited type with
      | VUndefined => Ok (Qmin 1 ((5 # 10) + surpriseScore * (3 # 10)))%Q
      | _ => Unmodelled
      end
  end.

(** The part of [require("../config")] that the module reads:
    [config.memory?.extraction?.enabled] as a boolean, and
    [config.memory?.surpriseThreshold] when it is neither [null] nor
    absent. *)
Record Config : Type := mkConfig {
  extractionEnabled : bool;
  surpriseThreshold : option Q
}.

(** The collaborators: the store (./store), whose state is of type
    [store]; the surprise calculation (./surprise); the clock; and the
    pattern matching of this module, which the properties below do not look
    into.  A call to a collaborator answers or raises ([inr]). *)
Record Collaborators (store : Type) : Type := mkCollaborators {
  config : Config;
  getRecentMemories : Z -> value -> store -> (list value + value) * store;
  createMemory : NewMemory -> store -> (value + value) * store;
  trackEntity : string -> store -> (unit + value) * store;
  calculateSurprise : string * string * string -> list value -> string -> Q + value;
  now : Z;
  extractContent : value -> string;
  candidates : string -> Candidates
}.

Arguments config {store} _.
Arguments getRecentMemories {store} _.
Arguments createMemory {store} _.
Arguments trackEntity {store} _.
Arguments calculateSurprise {store} _.
Arguments now {store} _.
Arguments extractContent {store} _.
Arguments candidates {store} _.

Section WithCollaborators.

Context {store : Type}.
Variable w : Collaborators store.

(** A computation on the store.  Next to the store, the state keeps the
    records handed to [store.createMemory] so far, in order. *)
Definition State : Type := store * list NewMemory.

Definition P (A : Type) : Type := State -> result A * State.

#[global] Instance P_ret : MRet P := fun A a st => (Ok a, st).

#[global] Instance P_bind : MBind P := fun A B f m st =>
  match m st with
  | (Ok a, st') => f a st'
  | (Throw e, st') => (Throw e, st')
  | (Unmodelled, st') => (Unmodelled, st')
  end.

Definition ofResult {A : Type} (r : result A) : P A := fun st => (r, st).

(** [try { m } catch (err) { handler(err) }] *)
Definition tryCatch {A : Type} (m : P A) (handler : value -> P A) : P A :=
  fun st =>
    match m st with
    | (Throw e, st') => handler e st'
    | other => other
    end.

(** [store.getRecentMemories({ limit, sessionId })] *)
Definition recent (limit : Z) (session : value) : P (list value) :=
  fun st =>
    let (answer, st') := getRecentMemories w limit session (fst st) in
    (outcome answer, (st', snd st)).

(** [store.createMemory(memory)] *)
Definition hand (memory : NewMemory) : P value :=
  fun st =>
    let (answer, st') := createMemory w memory (fst st) in
    (outcome answer, (st', snd st ++ [memory])).

(** [store.trackEntity({ type: 'code', name, context })] *)
Definition track (name : string) : P unit :=
  fun st =>
    let (answer, st') := trackEntity w name (fst st) in
    (outcome answer, (st', snd st)).

(** [config.memory?.surpriseThreshold ?? 0.3] *)
Definition threshold : Q :=
  match surpriseThreshold (config w) with
  | Some t => t
  | None => (3 # 10)%Q
  end.

(** [a < b] *)
Definition Qlt_bool (a b : Q) : bool := negb (Qle_bool b a).

(** [createMemoryWithSurprise(options)]: the memory created, or [null]. *)
Definition createMemoryWithSurprise (options : Options) : P value :=
  existingMemories ← recent 100 (o_sessionId options);
  surprise ← ofResult (outcome (calculateSurprise w
                              (o_content options, o_type options, o_category options)
                              existingMemories (o_userContent options)));
  if Qlt_bool surprise threshold then mret VNull
  else
    importance ← ofResult (calculateInitialImportance (o_type options) surprise);
    tryCatch
      (hand {| sessionId := o_sessionId options;
               content := o_content options;
               type := o_type options;
               category := o_category options;
               importance := importance;
               surpriseScore := surprise;
               metadata := put "extractedAt" (num (now w)) (o_metadata options) |})
      (fun err => mret VNull).

(** A loop of [extractMemories]: [body] makes at most one memory of each
    candidate; the memories made are pushed in order. *)
Fixpoint forEach {A : Type} (body : A -> P value) (l : list A) : P (list value) :=
  match l with
  | [] => mret []
  | x :: rest =>
      memory ← body x;
      others ← forEach body rest;
      mret (if truthy memory then memory :: others else others)
  end.

(** [conversationMessages?.filter(m => m.role === 'user')?.pop()] *)
Definition lastUserMessage (conversationMessages : value) : result value :=
  match conversationMessages with
  | VUndefined | VNull => Ok VUndefined
  | VArr messages =>
      users ← filterR (fun m => role ← get "role" m; Ok (is_str "user" role)) messages;
      Ok (List.last users VUndefined)
  | _ => Throw TypeError
  end.

Definition entityMemory (session : value) (userContent : string) (entityName : string)
  : P value :=
  _ ← track entityName;
  createMemoryWithSurprise
    (mkOptions ("Entity: " ++ entityName) "entity" "code" session userContent
               [("entityName", VStr entityName)]).

Definition relationshipMemory (session : value) (userContent : string)
    (r : Relationship) : P value :=
  createMemoryWithSurprise
    (mkOptions (r_from r ++ " " ++ r_relationship r ++ " " ++ r_to r)
               "relationship" "code" session userContent
               [ ("from", VStr (r_from r)); ("to", VStr (r_to r));
                 ("relationship", VStr (r_relationship r)) ]).

(** The five loops. *)
Definition createAll (session : value) (userContent : string) (found : Candidates)
  : P (list value) :=
  m1 ← forEach (fun text => createMemoryWithSurprise
                  (mkOptions text "preference" "user" session userContent []))
               (preferences found);
  m2 ← forEach (fun text => createMemoryWithSurprise
                  (mkOptions text "decision" "project" session userContent []))
               (decisions found);
  m3 ← forEach (fun text => createMemoryWithSurprise
                  (mkOptions text "fact" (classifyCategory text) session userContent []))
               (facts found);
  m4 ← forEach (entityMemory session userContent) (entities found);
  m5 ← forEach (relationshipMemory session userContent) (relationships found);
  mret (m1 ++ m2 ++ m3 ++ m4 ++ m5).

(** [extractMemories(assistantResponse, conversationMessages, context)] *)
Definition extractMemories (assistantResponse conversationMessages context : value)
  : P (list value) :=
  if negb (extractionEnabled (config w)) then mret []
  else
    let context := match context with VUndefined => VObj [] | _ => context end in
    session0 ← ofResult (get "sessionId" context);
    let session := match session0 with VUndefined => VNull | _ => session0 end in
    tryCatch
      (let assistantContent := extractContent w assistantResponse in
       if String.eqb assistantContent EmptyString then mret []
       else
         last ← ofResult (lastUserMessage conversationMessages);
         let userContent :=
           if truthy last then extractContent w last else EmptyString in
         createAll session userContent (candidates w assistantContent))
      (fun err => mret []).

End WithCollaborators.

End Extractor.

(** ** src/tools/truncate.js *)

Module Truncate.

(** *** Strings *)

(** A relative index of [slice]: counted from the end when negative, and
    clamped to the string. *)
Definition relative (len i : Z) : Z :=
  if (i <? 0)%Z then Z.max (len + i) 0 else Z.min i len.

(** [s.slice(start, end)]; [end] is [None] when it is left out or
    [undefined]. *)
Definition slice (s : string) (start : Z) (end_ : option Z) : string :=
  let chars := list_ascii_of_string s in
  let len := Z.of_nat (List.length chars) in
  let from := relative len start in
  let to := match end_ with Some e => relative len e | None => len end in
  if (to <=? from)%Z then EmptyString
  else string_of_list_ascii
         (List.firstn (Z.to_nat (to - from)) (List.skipn (Z.to_nat from) chars)).

(** An integer in a template literal. *)
Definition decimal (z : Z) : string := NilZero.string_of_int (Z.to_int z).

(** *** The limits *)

Record Limit : Type := mkLimit { maxChars : Z; strategy : string }.

(** The object [TRUNCATION_LIMITS]: its own properties. *)
Definition Limits : Type := gmap string Limit.

Definition TRUNCATION_LIMITS : Limits :=
  list_to_map
    [ ("Read", mkLimit 8000 "middle");
      ("Bash", mkLimit 30000 "tail");
      ("Grep", mkLimit 12000 "head");
      ("Glob", mkLimit 8000 "head");
      ("WebFetch", mkLimit 16000 "head");
      ("WebSearch", mkLimit 12000 "head");
      ("WebAgent", mkLimit 16000 "head");
      ("LSP", mkLimit 8000 "head");
      ("Edit", mkLimit 8000 "middle");
      ("Write", mkLimit 8000 "middle");
      ("Task", mkLimit 20000 "tail");
      ("AgentTask", mkLimit 20000 "tail") ].

(** [limits[toolName]]: an own property, a member of [Object.prototype]
    (which has no [maxChars] and no [strategy]), or nothing. *)
Inductive Entry : Type :=
| Own (limit : Limit)
| Inherited (member : string)
| Absent.

Definition entry (limits : Limits) (toolName : string) : Entry :=
  match limits !! toolName with
  | Some limit => Own limit
  | None =>
      match inherited toolName with
      | VUndefined => Absent
      | _ => Inherited toolName
      end
  end.

(** The marker that the middle strategy writes. *)
Definition marker (removed : Z) : string :=
  (nl ++ nl ++ "... [" ++ decimal removed
      ++ " characters truncated for token efficiency] ..." ++ nl ++ nl)%string.

(** [applyTruncationStrategy(text, maxChars, strategy)].  [limit] is [None]
    when [maxChars] and [strategy] are both [undefined]: a comparison with
    [undefined] is false, and [slice(0, undefined)] is the whole string. *)
Definition applyTruncationStrategy (text : string) (limit : option Limit) : string :=
  let length := Z.of_nat (String.length text) in
  match limit with
  | None => slice text 0 None
  | Some (mkLimit maxChars strategy) =>
      if (length <=? maxChars)%Z then text
      else if String.eqb strategy "tail" then slice text (- maxChars) None
      else if String.eqb strategy "middle" then
        let keepSize := (maxChars / 2)%Z in
        let start := slice text 0 (Some keepSize) in
        let end_ := slice text (- keepSize) None in
        let removed := (length - keepSize * 2)%Z in
        (start ++ marker removed ++ end_)%string
      else slice text 0 (Some maxChars)
  end.

(** [config.toolTruncation?.enabled === false] *)
Definition disabled (config : value) : bool :=
  strict_eq (get_opt "enabled" (get_opt "toolTruncation" config)) (VBool false).

(** [truncateToolOutput(toolName, output)], for the limits in force. *)
Definition truncateToolOutput (config : value) (limits : Limits)
    (toolName : string) (output : value) : value :=
  if disabled config then output
  else
    match output with
    | VStr (String c rest) =>
        let text := String c rest in
        match entry limits toolName with
        | Absent => output
        | Own limit =>
            if (Z.of_nat (String.length text) <=? maxChars limit)%Z then output
            else VStr (applyTruncationStrategy text (Some limit))
        | Inherited _ => VStr (applyTruncationStrategy text None)
        end
    | _ => output
    end.

(** [getTruncationLimit(toolName)]: [None] is [null]. *)
Definition getTruncationLimit (limits : Limits) (toolName : string) : option Entry :=
  match entry limits toolName with
  | Absent => None
  | found => Some found
  end.

(** [setTruncationLimit(toolName, maxChars, strategy = 'head')]: the limits
    afterwards.  An assignment to [__proto__] replaces the prototype of the
    object and is not modelled. *)
Definition setTruncationLimit (limits : Limits) (toolName : string) (maxChars : Z)
    (strategy : option string) : result Limits :=
  if String.eqb toolName "__proto__" then Unmodelled
  else Ok (<[toolName := mkLimit maxChars (default "head" strategy)]> limits).

End Truncate.

(** ** src/tools/smart-selection.js *)

Module SmartSelection.
Import Regex.

(** *** Patterns *)

(** A pattern that is a list of alternatives, found anywhere in the text. *)
Definition GREETING_PATTERN : re :=
  seqs [ Bol;
         words [ "hi"; "hello"; "hey"; "good morning"; "good afternoon";
                 "good evening"; "howdy"; "greetings"; "sup"; "yo" ];
         Star (Chr (fun c => is_space c || one_of ".!?" c));
         Eol ].

Definition QUESTION_PATTERN : re :=
  seqs [ Bol;
         words [ "what is"; "what's"; "how does"; "when"; "where"; "why";
                 "explain"; "define"; "tell me about"; "can you explain" ] ].

Definition TECHNICAL_KEYWORDS : re :=
  words [ "code"; "function"; "class"; "file"; "module"; "import"; "export";
          "async"; "await"; "promise"; "callback"; "api"; "database"; "server";
          "client"; "component"; "method"; "variable"; "array"; "object";
          "string"; "number" ].

Definition EXPLANATION_PATTERN : re :=
  words [ "explain"; "describe"; "summarize"; "what does"; "how does";
          "tell me about"; "give me an overview"; "clarify"; "elaborate" ].

Definition WEB_PATTERN : re :=
  words [ "search"; "lookup"; "find info"; "google"; "documentation"; "docs";
          "website"; "url"; "link"; "online"; "internet"; "browse" ].

Definition READ_PATTERN : re :=
  words [ "read"; "show"; "display"; "view"; "cat"; "check"; "inspect";
          "look at"; "see"; "examine"; "review"; "print"; "output" ].

Definition WRITE_PATTERN : re :=
  words [ "write"; "create"; "add"; "update"; "modify"; "change"; "fix";
          "delete"; "remove"; "insert"; "append"; "replace"; "save"; "put";
          "make"; "generate"; "produce" ].

Definition EDIT_PATTERN : re :=
  words [ "edit"; "refactor"; "rename"; "move"; "reorganize"; "restructure";
          "rewrite" ].

Definition EXECUTION_PATTERN : re :=
  words [ "run"; "execute"; "test"; "compile"; "build"; "deploy"; "start";
          "install"; "launch"; "boot"; "fire up"; "npm"; "git"; "python";
          "node"; "docker"; "bash"; "sh"; "cmd" ].

Definition COMPLEX_PATTERN : re :=
  words [ "implement"; "build"; "create"; "develop"; "design"; "architect";
          "plan"; "strategy"; "approach"; "help with"; "work on"; "improve";
          "optimize"; "enhance"; "refactor"; "migrate" ].

(** *** Strings *)

Fixpoint startsWith (p s : list ascii) : bool :=
  match p, s with
  | [], _ => true
  | a :: p', b :: s' => Ascii.eqb a b && startsWith p' s'
  | _ :: _, [] => false
  end.

Definition openTag : list ascii := chars "<system-reminder>".
Definition closeTag : list ascii := chars "</system-reminder>".

(** The number of characters up to the end of the first closing tag. *)
Fixpoint closeIndex (s : list ascii) : option nat :=
  if startsWith closeTag s then Some (List.length closeTag)
  else match s with
       | [] => None
       | _ :: rest => S <$> closeIndex rest
       end.

(** [s.replace(SYSTEM_REMINDER_PATTERN, '')]: each block, from an opening
    tag to the first closing tag after it, is dropped; [skip] characters
    of a block remain to be dropped. *)
Fixpoint stripRemindersFrom (skip : nat) (s : list ascii) : list ascii :=
  match s with
  | [] => []
  | c :: rest =>
      match skip with
      | S n => stripRemindersFrom n rest
      | O =>
          if startsWith openTag s then
            match closeIndex (List.skipn (List.length openTag) s) with
            | Some n => stripRemindersFrom (List.length openTag + n - 1) rest
            | None => c :: stripRemindersFrom 0 rest
            end
          else c :: stripRemindersFrom 0 rest
      end
  end.

Definition stripReminders (s : list ascii) : list ascii := stripRemindersFrom 0 s.

(** *** Classification *)

(** [getLastUserMessage(payload)]; [None] is [null]. *)
Definition getLastUserMessage (payload : Complexity.Payload) : option Complexity.Message :=
  match Complexity.messages payload with
  | None => None
  | Some msgs =>
      List.find (fun msg => String.eqb (Complexity.role msg) "user") (List.rev msgs)
  end.

(** [extractContent(message)] *)
Definition extractContent (message : Complexity.Message) : string :=
  match Complexity.content message with
  | Complexity.Text s => s
  | Complexity.Blocks blocks => Complexity.blocksText " " blocks
  | Complexity.Other => EmptyString
  end.

Definition isGreeting (content : list ascii) : bool :=
  search GREETING_PATTERN None (Search.trim content).

Definition isShortNonTechnical (content : list ascii) : bool :=
  let trimmed := Search.trim content in
  Nat.ltb (List.length trimmed) 20 && negb (search TECHNICAL_KEYWORDS None trimmed).

Definition isSimpleQuestion (content : list ascii) : bool :=
  search QUESTION_PATTERN None (Search.trim content).

Record Classification : Type := mkClassification {
  type : string;
  confidence : Q;
  keywords : list string
}.

(** [classifyRequestType(payload)] *)
Definition classifyRequestType (payload : Complexity.Payload) : Classification :=
  match getLastUserMessage payload with
  | None => mkClassification "coding" (5 # 10) []
  | Some lastMessage =>
      let rawContent := chars (extractContent lastMessage) in
      let content := Search.trim (stripReminders rawContent) in
      let contentLower := Search.toLowerCase content in
      let messageCount :=
        match Complexity.messages payload with
        | Some msgs => List.length msgs
        | None => O
        end in
      let has pattern := search pattern None contentLower in
      if isGreeting contentLower
      then mkClassification "conversational" 1 ["greeting"]
      else if isShortNonTechnical contentLower
      then mkClassification "conversational" (8 # 10) ["short"; "non-technical"]
      else if isSimpleQuestion contentLower && negb (has TECHNICAL_KEYWORDS)
      then mkClassification "simple_qa" (9 # 10) ["question"; "non-technical"]
      else if has EXPLANATION_PATTERN
      then mkClassification "research" (85 # 100) ["explanation"]
      else if has WEB_PATTERN
      then mkClassification "research" (9 # 10) ["web"; "search"]
      else if has READ_PATTERN && negb (has WRITE_PATTERN)
      then mkClassification "file_reading" (8 # 10) ["read"]
      else if has WRITE_PATTERN || has EDIT_PATTERN
      then mkClassification "file_modification" (85 # 100) ["write"; "edit"]
      else if has EXECUTION_PATTERN
      then mkClassification "code_execution" (8 # 10) ["execution"]
      else if has COMPLEX_PATTERN
      then mkClassification "complex_task" (75 # 100) ["complex"]
      else if Nat.ltb 10 messageCount
      then mkClassification "complex_task" (7 # 10) ["long_conversation"]
      else mkClassification "coding" (6 # 10) ["default"]
  end.

(** *** Selection *)

(** The object [TOOL_SELECTION_MAP]: its own properties. *)
Definition TOOL_SELECTION_MAP : gmap string (list string) :=
  list_to_map
    [ ("conversational", []);
      ("simple_qa", []);
      ("research", ["Read"; "Grep"; "Glob"; "WebSearch"; "WebFetch"]);
      ("file_reading", ["Read"; "Grep"; "Glob"]);
      ("file_modification", ["Read"; "Write"; "Edit"; "Grep"; "Glob"; "Bash"]);
      ("code_execution", ["Read"; "Write"; "Edit"; "Bash"; "Grep"; "Glob"]);
      ("coding", ["Read"; "Write"; "Edit"; "Bash"; "Grep"; "Glob"]);
      ("complex_task",
       [ "Read"; "Write"; "Edit"; "Bash"; "Grep"; "Glob"; "WebSearch";
         "WebFetch"; "Task"; "TodoWrite"; "AskUserQuestion" ]) ].

(** [estimateToolTokens(tools)] *)
Definition estimateToolTokens (tools : value) : Z :=
  match tools with
  | VArr l => (Z.of_nat (List.length l) * 175)%Z
  | _ => 0%Z
  end.

(** The options of [selectToolsSmartly], with their defaults filled in:
    [mode] is [config.mode] when it is a string, [minimalMode] is
    [config.minimalMode] as a boolean. *)
Record Options : Type := mkOptions {
  provider : string;
  tokenBudget : Q;
  mode : option string;
  minimalMode : bool
}.

Definition defaults : Options := mkOptions "databricks" (inject_Z 2500) None false.

(** [names.includes(tool.name)] *)
Definition named (names : list string) (tool : value) : result bool :=
  name ← get "name" tool;
  Ok (match name with
      | VStr s => existsb (String.eqb s) names
      | _ => false
      end).

(** [tools.find(t => t.name === 'Bash')] *)
Fixpoint findBash (tools : list value) : result (option value) :=
  match tools with
  | [] => Ok None
  | t :: rest =>
      name ← get "name" t;
      if is_str "Bash" name then Ok (Some t) else findBash rest
  end.

Definition is_mode (m : string) (o : Options) : bool :=
  match mode o with Some s => String.eqb s m | None => false end.

(** [classification.type || 'coding'] *)
Definition requestTypeOf (classification : Classification) : string :=
  if String.eqb (type classification) EmptyString then "coding"
  else type classification.

(** [TOOL_SELECTION_MAP[requestType] || TOOL_SELECTION_MAP.coding].  A
    member of [Object.prototype] found under the name of the type has no
    [includes] method: the first call of the filter callback raises. *)
Definition relevantToolNames (requestType : string) : result (list string) :=
  match TOOL_SELECTION_MAP !! requestType with
  | Some names => Ok names
  | None =>
      match inherited requestType with
      | VUndefined => Ok (default [] (TOOL_SELECTION_MAP !! "coding"))
      | _ => Throw TypeError
      end
  end.

(** The mode-specific adjustments. *)
Definition adjustForMode (options : Options) (classification : Classification)
    (names : list string) (all selected : list value) : result (list value) :=
  if is_mode "aggressive" options then
    Ok (if Qlt_le_dec (confidence classification) (7 # 10)
        then if Nat.ltb 4 (List.length selected)
             then List.firstn 4 selected else selected
        else selected)
  else if is_mode "conservative" options then
    if String.eqb (requestTypeOf classification) "file_reading"
       && negb (existsb (String.eqb "Bash") names)
    then
      bashTool ← findBash all;
      Ok (match bashTool with
          | Some tool => if truthy tool then selected ++ [tool] else selected
          | None => selected
          end)
    else Ok selected
  else Ok selected.

(** The provider-specific limit. *)
Definition limitForProvider (options : Options) (selected : list value) : list value :=
  if String.eqb (provider options) "ollama" && Nat.ltb 8 (List.length selected)
  then List.firstn 8 selected else selected.

(** The token budget enforcement. *)
Definition enforceBudget (options : Options) (selected : list value) : list value :=
  let estimatedTokens := estimateToolTokens (VArr selected) in
  if Qlt_le_dec (tokenBudget options) (inject_Z estimatedTokens)
  then
    let targetCount := Qfloor (tokenBudget options / inject_Z 175) in
    List.firstn (Z.to_nat (Z.max targetCount 0)) selected
  else selected.

(** The minimal mode override. *)
Definition minimalOverride (options : Options) (selected : list value)
  : result (list value) :=
  if minimalMode options
  then filterR (named ["Read"; "Write"; "Edit"; "Bash"]) selected
  else Ok selected.

(** [selectToolsSmartly(tools, classification, options)] *)
Definition selectToolsSmartly (tools : value) (classification : Classification)
    (options : Options) : result value :=
  match tools with
  | VArr (t :: ts) =>
      let all := t :: ts in
      names ← relevantToolNames (requestTypeOf classification);
      selected ← filterR (named names) all;
      selected ← adjustForMode options classification names all selected;
      let selected := limitForProvider options selected in
      let selected := enforceBudget options selected in
      selected ← minimalOverride options selected;
      Ok (VArr selected)
  | _ => Ok tools
  end.

End SmartSelection.

(** ** src/tools/tinyfish.js: the argument normalisers *)

Module TinyFish.
Import Regex Search.

(** [args.a ?? args.b ?? ...]: the properties are read from left to right
    until one is neither [null] nor [undefined]; the last one is taken as
    it is. *)
Fixpoint firstDefined (keys : list string) (args : value) : result value :=
  match keys with
  | [] => Ok VUndefined
  | [k] => get k args
  | k :: rest =>
      v ← get k args;
      match v with
      | VUndefined | VNull => firstDefined rest args
      | _ => Ok v
      end
  end.

(** [s.trim()] *)
Definition trimmed (s : string) : string :=
  string_of_list_ascii (trim (list_ascii_of_string s)).

(** [normalizeUrl(args)]; [validURL] tells whether [new URL(..)] accepts
    the text. *)
Definition normalizeUrl (validURL : string -> bool) (args : value) : result string :=
  raw ← firstDefined ["url"; "uri"; "href"; "target_url"] args;
  match raw with
  | VStr s =>
      if Nat.eqb (String.length (trimmed s)) 0
      then Throw (mkError "web_agent requires a non-empty url string.")
      else if validURL (trimmed s) then Ok (trimmed s)
      else Throw (mkError ("web_agent received an invalid URL: " ++ s))
  | _ => Throw (mkError "web_agent requires a non-empty url string.")
  end.

(** [normalizeGoal(args)] *)
Definition normalizeGoal (args : value) : result string :=
  goal ← firstDefined ["goal"; "task"; "prompt"; "instruction"] args;
  match goal with
  | VStr s =>
      if Nat.eqb (String.length (trimmed s)) 0
      then Throw (mkError "web_agent requires a non-empty goal string.")
      else Ok (trimmed s)
  | _ => Throw (mkError "web_agent requires a non-empty goal string.")
  end.

(** [resolveBrowserProfile(args)]: the configured profile is read only
    when the arguments name none. *)
Definition resolveBrowserProfile (config args : value) : result string :=
  given ← firstDefined ["browser_profile"; "browserProfile"] args;
  profile ← match given with
            | VUndefined | VNull =>
                tinyfish ← get "tinyfish" config; get "browserProfile" tinyfish
            | _ => Ok given
            end;
  Ok (if is_str "stealth" profile then "stealth" else "lite").

End TinyFish.

(** * Properties *)

(** ** JavaScript values *)

Module JSFacts.

Definition is_throw {A : Type} (r : result A) : bool :=
  match r with Throw _ => true | _ => false end.

Lemma bind_ok {A B : Type} (a : A) (f : A -> result B) : Ok a ≫= f = f a.
Proof. reflexivity. Qed.

Lemma truthy_or (a b : value) : truthy a = true -> JS.or a b = a.
Proof. intros H. unfold JS.or. now rewrite H. Qed.

Lemma falsy_or (a b : value) : truthy a = false -> JS.or a b = b.
Proof. intros H. unfold JS.or. now rewrite H. Qed.

(** A value that is not [null] or [undefined] answers every property read. *)
Lemma get_truthy (k : string) (v : value) :
  truthy v = true -> get k v = Ok (get_opt k v).
Proof. destruct v; simpl; intros H; try discriminate; reflexivity. Qed.

Lemma get_opt_obj (k : string) (fields : list (string * value)) :
  get k (VObj fields) = Ok (get_opt k (VObj fields)).
Proof. reflexivity. Qed.

Lemma or_default_not_nullish (a d : value) :
  truthy d = true \/ (exists s, d = VStr s) ->
  JS.or a d <> VUndefined /\ JS.or a d <> VNull.
Proof.
  intros Hd. unfold JS.or. destruct (truthy a) eqn:Ha.
  - destruct a; simpl in Ha; try discriminate; split; discriminate.
  - destruct Hd as [Hd | [s ->]]; [| split; discriminate].
    destruct d; simpl in Hd; try discriminate; split; discriminate.
Qed.

(** [filter] and [map] with callbacks that always return. *)
Lemma filterR_total {A : Type} (f : A -> result bool) (g : A -> bool) (l : list A) :
  (forall x, In x l -> f x = Ok (g x)) -> filterR f l = Ok (List.filter g l).
Proof.
  induction l as [| x rest IH]; intros H; simpl; [reflexivity |].
  rewrite (H x (or_introl eq_refl)). simpl.
  rewrite IH by (intros y Hy; apply H; now right). simpl.
  destruct (g x); reflexivity.
Qed.

Lemma mapR_total {A B : Type} (f : A -> result B) (g : A -> B) (l : list A) :
  (forall x, In x l -> f x = Ok (g x)) -> mapR f l = Ok (List.map g l).
Proof.
  induction l as [| x rest IH]; intros H; simpl; [reflexivity |].
  rewrite (H x (or_introl eq_refl)). simpl.
  rewrite IH by (intros y Hy; apply H; now right). reflexivity.
Qed.

Lemma mapR_no_throw {A B : Type} (f : A -> result B) (l : list A) :
  (forall x, In x l -> is_throw (f x) = false) -> is_throw (mapR f l) = false.
Proof.
  induction l as [| x rest IH]; intros H; simpl; [reflexivity |].
  pose proof (H x (or_introl eq_refl)) as Hx.
  destruct (f x) as [y | e |]; simpl in *; try discriminate; [| reflexivity].
  assert (Hr : is_throw (mapR f rest) = false) by (apply IH; intros z Hz; apply H; now right).
  destruct (mapR f rest); simpl in *; try discriminate; reflexivity.
Qed.

Lemma filterR_no_throw {A : Type} (f : A -> result bool) (l : list A) :
  (forall x, In x l -> is_throw (f x) = false) -> is_throw (filterR f l) = false.
Proof.
  induction l as [| x rest IH]; intros H; simpl; [reflexivity |].
  pose proof (H x (or_introl eq_refl)) as Hx.
  destruct (f x) as [y | e |]; simpl in *; try discriminate; [| reflexivity].
  assert (Hr : is_throw (filterR f rest) = false) by (apply IH; intros z Hz; apply H; now right).
  destruct (filterR f rest); simpl in *; try discriminate; reflexivity.
Qed.

Lemma mapR_length {A B : Type} (f : A -> result B) (l : list A) (out : list B) :
  mapR f l = Ok out -> List.length out = List.length l.
Proof.
  revert out. induction l as [| x rest IH]; intros out; simpl.
  - intros [= <-]. reflexivity.
  - destruct (f x) as [y | |]; simpl; try discriminate.
    destruct (mapR f rest) as [ys | |]; simpl; try discriminate.
    intros [= <-]. simpl. f_equal. now apply IH.
Qed.

Lemma number_to_string_no_throw (q : Q) : is_throw (number_to_string q) = false.
Proof. unfold number_to_string. destruct (_ && _); reflexivity. Qed.

Lemma element_no_throw (x : value) :
  is_throw (to_string x) = false ->
  is_throw (match x with
            | VUndefined | VNull => Ok EmptyString
            | _ => to_string x
            end) = false.
Proof. destruct x; intros H; try reflexivity; exact H. Qed.

(** ToString never raises on the values modelled. *)
Lemma to_string_no_throw : forall v : value, is_throw (to_string v) = false.
Proof.
  fix IH 1. intros [ | | [|] | q | s | items | fields | b]; simpl; try reflexivity.
  - apply number_to_string_no_throw.
  - match goal with
    | |- is_throw (?m ≫= _) = false => assert (H : is_throw m = false)
    end.
    { induction items as [| x rest IHr]; [reflexivity |].
      assert (Hx : is_throw (match x with
                             | VUndefined | VNull => Ok EmptyString
                             | _ => to_string x
                             end) = false).
      { apply element_no_throw, IH. }
      destruct (match x with VUndefined | VNull => _ | _ => _ end);
        simpl in *; try discriminate; [| reflexivity].
      destruct ((fix elements (l : list value) : result (list string) := _) rest);
        simpl in *; try discriminate; reflexivity. }
    destruct ((fix elements (l : list value) : result (list string) := _) items);
      simpl in *; try discriminate; reflexivity.
  - destruct (assoc "toString" fields), (assoc "valueOf" fields); reflexivity.
Qed.

Lemma join_values_no_throw (sep : string) (items : list value) :
  is_throw (join_values sep items) = false.
Proof.
  unfold join_values.
  assert (H : is_throw (mapR (fun x => match x with
                                       | VUndefined | VNull => Ok EmptyString
                                       | _ => to_string x
                                       end) items) = false).
  { apply mapR_no_throw. intros x _. apply element_no_throw, to_string_no_throw. }
  destruct (mapR _ items); simpl in *; try discriminate; reflexivity.
Qed.

Lemma join_values_strings (sep : string) (strs : list string) :
  join_values sep (List.map VStr strs) = Ok (join sep strs).
Proof.
  unfold join_values.
  rewrite (mapR_total _ (fun v => match v with VStr s => s | _ => EmptyString end)).
  - simpl. rewrite List.map_map. rewrite List.map_id. reflexivity.
  - intros x Hx. apply List.in_map_iff in Hx as (s & <- & _). reflexivity.
Qed.

Lemma gt_zero_no_throw (v : value) : is_throw (gt_zero v) = false.
Proof. destruct v; reflexivity. Qed.

End JSFacts.

Import JSFacts.

(** ** Arrays *)

Module ArrayFacts.

(** What [filter] returns is made of elements of the array, in order, that
    the callback accepted. *)
Lemma filterR_In {A : Type} (f : A -> result bool) (l kept : list A) :
  filterR f l = Ok kept -> forall x, In x kept -> In x l /\ f x = Ok true.
Proof.
  revert kept. induction l as [| a rest IH]; intros kept; simpl.
  - intros [= <-] x [].
  - destruct (f a) as [b | |] eqn:Ha; simpl; try discriminate.
    destruct (filterR f rest) as [ys | |]; simpl; try discriminate.
    intros [= <-] x Hx. destruct b.
    + destruct Hx as [<- | Hx]; [auto |].
      destruct (IH ys eq_refl x Hx); auto.
    + destruct (IH ys eq_refl x Hx); auto.
Qed.

Lemma filterR_length {A : Type} (f : A -> result bool) (l kept : list A) :
  filterR f l = Ok kept -> List.length kept <= List.length l.
Proof.
  revert kept. induction l as [| a rest IH]; intros kept; simpl.
  - intros [= <-]. reflexivity.
  - destruct (f a) as [b | |]; simpl; try discriminate.
    destruct (filterR f rest) as [ys | |]; simpl; try discriminate.
    intros [= <-]. specialize (IH ys eq_refl). destruct b; simpl; lia.
Qed.

(** A callback that answers on every element makes [filter] answer. *)
Lemma filterR_returns {A : Type} (f : A -> result bool) (l : list A) :
  (forall x, In x l -> exists b, f x = Ok b) -> exists kept, filterR f l = Ok kept.
Proof.
  induction l as [| a rest IH]; intros H; simpl; [eauto |].
  destruct (H a (or_introl eq_refl)) as [b ->].
  destruct IH as [ys ->]; [intros x Hx; apply H; now right |].
  simpl. eauto.
Qed.

(** A callback that rejects every element leaves nothing. *)
Lemma filterR_none {A : Type} (f : A -> result bool) (l : list A) :
  (forall x, In x l -> f x = Ok false) -> filterR f l = Ok [].
Proof.
  induction l as [| a rest IH]; intros H; simpl; [reflexivity |].
  rewrite (H a (or_introl eq_refl)), IH by (intros x Hx; apply H; now right).
  reflexivity.
Qed.

Lemma firstn_In {A : Type} (n : nat) (l : list A) (x : A) :
  In x (List.firstn n l) -> In x l.
Proof.
  intros H. rewrite <- (List.firstn_skipn n l). apply List.in_or_app. now left.
Qed.

(** A value that is neither [undefined] nor [null]. *)
Definition defined (v : value) : bool :=
  match v with VUndefined | VNull => false | _ => true end.

Lemma get_defined_returns (k : string) (v : value) :
  defined v = true -> exists x, get k v = Ok x.
Proof. destruct v; simpl; intros H; try discriminate; eauto. Qed.

End ArrayFacts.

(** ** The Responses-shape shim and the finish-reason mapping *)

Module ResponsesFormatFacts.
Import ResponsesFormat.

(** *** [mapFinishReason] *)

Lemma mapFinishReason_table :
  mapFinishReason (Some "stop") = VStr "end_turn" /\
  mapFinishReason (Some "tool_calls") = VStr "tool_use" /\
  mapFinishReason (Some "length") = VStr "max_tokens" /\
  mapFinishReason (Some "content_filter") = VStr "content_filter" /\
  mapFinishReason None = VStr "end_turn".
Proof. repeat split; vm_compute; reflexivity. Qed.

(** A key that is neither an own property of [mapping] nor a member of
    [Object.prototype] maps to end_turn. *)
Lemma mapFinishReason_unknown (s : string) :
  mapping !! s = None ->
  existsb (String.eqb s) object_prototype_keys = false ->
  mapFinishReason (Some s) = VStr "end_turn".
Proof.
  intros Hown Hproto. unfold mapFinishReason, mapping_get, inherited.
  rewrite Hown, Hproto. reflexivity.
Qed.

(** Every member of [Object.prototype] is found by the lookup, and being an
    object or a function it is truthy: it is returned as it is. *)
Lemma mapFinishReason_inherited_keys :
  Forall (fun k => mapFinishReason (Some k) = VBuiltin k) object_prototype_keys.
Proof. unfold object_prototype_keys. repeat constructor. Qed.

(** C10: at the finish reason "constructor" the lookup [mapping[finishReason]]
    finds the inherited [Object.prototype.constructor], which is truthy, so
    the function returns that built-in function and not the string
    end_turn. *)
Theorem mapFinishReason_constructor :
  mapFinishReason (Some "constructor") = VBuiltin "constructor" /\
  mapFinishReason (Some "constructor") <> VStr "end_turn" /\
  isString (mapFinishReason (Some "constructor")) = false.
Proof. repeat split; try reflexivity. vm_compute. discriminate. Qed.

(** *** [convertResponsesToChat] on an array input *)

(** What the filter callback computes. *)
Definition valid (msg : value) : bool :=
  truthy msg && truthy (get_opt "role" msg) &&
  truthy (JS.or (JS.or (get_opt "content" msg) (get_opt "tool_calls" msg))
                (get_opt "tool_call_id" msg)).

(** An entry lacks a field when reading it gives [undefined]: the entry is
    [null] or [undefined] itself, or has no such property. *)
Definition lacks (k : string) (msg : value) : Prop := get_opt k msg = VUndefined.

Definition is_text (part : value) : bool :=
  truthy part &&
  (is_str "text" (get_opt "type" part) || is_str "input_text" (get_opt "type" part)).

Definition part_text (part : value) : value :=
  JS.or (JS.or (get_opt "text" part) (get_opt "input_text" part)) (VStr EmptyString).

(** A content part read as the spec describes it: a text part
    ([type] text or input_text) carrying a string, or a part of another
    kind. *)
Definition reads (part : value) (o : option string) : Prop :=
  match o with
  | Some s => is_text part = true /\ part_text part = VStr s
  | None => is_text part = false
  end.

Fixpoint somes (os : list (option string)) : list string :=
  match os with
  | [] => []
  | Some s :: rest => s :: somes rest
  | None :: rest => somes rest
  end.

Definition nonempty (s : string) : bool := negb (String.eqb s EmptyString).

Definition blank_line : string := nl ++ nl.

(** The content an array of parts is turned into. *)
Definition flattened (parts : list value) (os : list (option string)) : value :=
  match List.filter nonempty (somes os) with
  | [] => VArr parts
  | t :: ts => VStr (join blank_line (t :: ts))
  end.

Lemma isValid_valid (msg : value) : isValid msg = Ok (valid msg).
Proof.
  unfold isValid, valid. destruct (truthy msg) eqn:Hm; [| reflexivity].
  rewrite !(get_truthy _ _ Hm). simpl.
  destruct (truthy (get_opt "role" msg)); reflexivity.
Qed.

Lemma valid_truthy (msg : value) : valid msg = true -> truthy msg = true.
Proof. unfold valid. destruct (truthy msg); [reflexivity | discriminate]. Qed.

Lemma lacking_not_valid (msg : value) :
  lacks "role" msg \/
  (lacks "content" msg /\ lacks "tool_calls" msg /\ lacks "tool_call_id" msg) ->
  valid msg = false.
Proof.
  unfold lacks, valid. intros [Hr | (Hc & Ht & Hi)].
  - rewrite Hr. simpl. now rewrite andb_false_r.
  - rewrite Hc, Ht, Hi. simpl. now rewrite andb_false_r.
Qed.

Lemma isTextPart_is_text (part : value) : isTextPart part = Ok (is_text part).
Proof.
  unfold isTextPart, is_text. destruct (truthy part) eqn:Hp; [| reflexivity].
  rewrite (get_truthy _ _ Hp). reflexivity.
Qed.

Lemma is_text_truthy (part : value) : is_text part = true -> truthy part = true.
Proof. unfold is_text. destruct (truthy part); [reflexivity | discriminate]. Qed.

Lemma partText_part_text (part : value) :
  truthy part = true -> partText part = Ok (part_text part).
Proof. intros Hp. unfold partText, part_text. rewrite !(get_truthy _ _ Hp). reflexivity. Qed.

Lemma part_text_readable (part : value) :
  get "length" (part_text part) = Ok (get_opt "length" (part_text part)).
Proof.
  unfold part_text.
  destruct (or_default_not_nullish
              (JS.or (get_opt "text" part) (get_opt "input_text" part))
              (VStr EmptyString)) as [H1 H2]; [right; eauto |].
  destruct (JS.or _ (VStr EmptyString)); try reflexivity; congruence.
Qed.

Lemma textParts_unfold (parts : list value) :
  textParts parts =
  filterR nonEmptyText (List.map part_text (List.filter is_text parts)).
Proof.
  unfold textParts.
  rewrite (filterR_total isTextPart is_text) by (intros; apply isTextPart_is_text).
  simpl.
  rewrite (mapR_total partText part_text).
  - reflexivity.
  - intros p Hp. apply List.filter_In in Hp as [_ Hp].
    apply partText_part_text, is_text_truthy, Hp.
Qed.

Lemma nonEmptyText_no_throw (part : value) :
  is_throw (nonEmptyText (part_text part)) = false.
Proof.
  unfold nonEmptyText. rewrite part_text_readable. simpl. apply gt_zero_no_throw.
Qed.

Lemma textParts_no_throw (parts : list value) : is_throw (textParts parts) = false.
Proof.
  rewrite textParts_unfold. apply filterR_no_throw.
  intros t Ht. apply List.in_map_iff in Ht as (p & <- & _).
  apply nonEmptyText_no_throw.
Qed.

Lemma cleanContent_no_throw (content : value) : is_throw (cleanContent content) = false.
Proof.
  unfold cleanContent. destruct (JS.or content VNull); try reflexivity.
  pose proof (textParts_no_throw items) as H.
  destruct (textParts items) as [[| t ts] | |]; simpl in *; try discriminate; try reflexivity.
  pose proof (join_values_no_throw (nl ++ nl) (t :: ts)) as Hj.
  destruct (join_values _ _); simpl in *; try discriminate; reflexivity.
Qed.

Lemma cleanMessage_no_throw (msg : value) :
  truthy msg = true -> is_throw (cleanMessage msg) = false.
Proof.
  intros Hm. unfold cleanMessage. rewrite !(get_truthy _ _ Hm). simpl.
  pose proof (cleanContent_no_throw (get_opt "content" msg)) as H.
  destruct (cleanContent _); simpl in *; try discriminate; reflexivity.
Qed.

Lemma convertInput_array (entries : list value) :
  convertInput (VArr entries) =
  (messages ← mapR cleanMessage (List.filter valid entries);
   match messages with
   | [] => Throw no_valid_messages
   | _ :: _ => Ok messages
   end).
Proof.
  simpl. rewrite (filterR_total isValid valid) by (intros; apply isValid_valid).
  reflexivity.
Qed.

(** The distinguished error is raised exactly when the filter keeps nothing,
    and no other exception comes out of the array branch. *)
Lemma convertInput_error_iff (entries : list value) :
  convertInput (VArr entries) = Throw no_valid_messages <->
  List.filter valid entries = [].
Proof.
  rewrite convertInput_array. split.
  - intros H. destruct (List.filter valid entries) as [| m kept] eqn:Hk; [reflexivity |].
    exfalso.
    assert (Hn : is_throw (mapR cleanMessage (m :: kept)) = false).
    { apply mapR_no_throw. intros x Hx. apply cleanMessage_no_throw, valid_truthy.
      rewrite <- Hk in Hx. now apply List.filter_In in Hx as [_ Hx]. }
    destruct (mapR cleanMessage (m :: kept)) as [out | e |] eqn:Hmap.
    + apply mapR_length in Hmap. destruct out; [discriminate Hmap | discriminate H].
    + discriminate Hn.
    + discriminate H.
  - intros ->. reflexivity.
Qed.

Lemma convertInput_only_error (entries : list value) (e : value) :
  convertInput (VArr entries) = Throw e -> e = no_valid_messages.
Proof.
  rewrite convertInput_array. intros H.
  assert (Hn : is_throw (mapR cleanMessage (List.filter valid entries)) = false).
  { apply mapR_no_throw. intros x Hx. apply cleanMessage_no_throw, valid_truthy.
    now apply List.filter_In in Hx as [_ Hx]. }
  destruct (mapR cleanMessage (List.filter valid entries)) as [[| m out] | |];
    simpl in *; try discriminate.
  now injection H as <-.
Qed.

Lemma nonEmptyText_string (s : string) : nonEmptyText (VStr s) = Ok (nonempty s).
Proof.
  unfold nonEmptyText, nonempty. simpl. f_equal. destruct s as [| a s]; [reflexivity |].
  simpl String.length. unfold Qle_bool, num, inject_Z. simpl Qnum. simpl Qden.
  replace (Z.of_nat (S (String.length s)) * 1 <=? 0 * 1)%Z with false; [reflexivity |].
  symmetry. apply Z.leb_gt. lia.
Qed.

Lemma textParts_reads (parts : list value) (os : list (option string)) :
  Forall2 reads parts os ->
  textParts parts = Ok (List.map VStr (List.filter nonempty (somes os))).
Proof.
  intros H. rewrite textParts_unfold.
  assert (Hmap : List.map part_text (List.filter is_text parts) = List.map VStr (somes os)).
  { induction H as [| p o parts os Hp _ IH]; [reflexivity |].
    destruct o as [s |]; simpl in Hp.
    - destruct Hp as [Ht Hs]. simpl. rewrite Ht. simpl. now rewrite Hs, IH.
    - simpl. rewrite Hp. exact IH. }
  rewrite Hmap. clear.
  rewrite (filterR_total nonEmptyText
             (fun v => match v with VStr s => nonempty s | _ => false end)).
  - f_equal. induction (somes os) as [| s rest IH]; [reflexivity |].
    simpl. destruct (nonempty s); simpl; now rewrite IH.
  - intros x Hx. apply List.in_map_iff in Hx as (s & <- & _).
    apply nonEmptyText_string.
Qed.

(** A content array is replaced by its non-empty texts joined by a blank
    line, and kept as it is when it has none. *)
Lemma cleanContent_reads (parts : list value) (os : list (option string)) :
  Forall2 reads parts os ->
  cleanContent (VArr parts) = Ok (flattened parts os).
Proof.
  intros H. unfold cleanContent, flattened. simpl.
  rewrite (textParts_reads _ _ H). simpl.
  destruct (List.filter nonempty (somes os)) as [| t ts]; [reflexivity |].
  change (VStr t :: List.map VStr ts) with (List.map VStr (t :: ts)).
  rewrite join_values_strings. reflexivity.
Qed.

Lemma cleanMessage_content (msg : value) (parts : list value) (os : list (option string)) :
  valid msg = true ->
  get_opt "content" msg = VArr parts ->
  Forall2 reads parts os ->
  exists rest,
    cleanMessage msg =
    Ok (VObj (("role", get_opt "role" msg) :: ("content", flattened parts os) :: rest)).
Proof.
  intros Hv Hc Hr. apply valid_truthy in Hv. unfold cleanMessage.
  rewrite !(get_truthy _ _ Hv). simpl. rewrite Hc, (cleanContent_reads _ _ Hr). simpl.
  eexists. reflexivity.
Qed.

(** C9, as the code has it.  On an array input: the filter keeps exactly the
    entries whose role is truthy and one of whose content, tool_calls and
    tool_call_id is truthy, so every entry lacking a role, or lacking all
    three of the others, is dropped; the distinguished error is raised if
    and only if nothing is kept, and no other exception is raised; each
    kept entry whose content is an array has it replaced by the non-empty
    texts of its text and input_text parts joined by a blank line when
    there is such a text, and keeps the array as it is when there is
    none. *)
Theorem convertInput_array_filters_and_flattens (entries : list value) :
  filterR isValid entries = Ok (List.filter valid entries) /\
  (forall e, In e entries ->
     lacks "role" e \/
     (lacks "content" e /\ lacks "tool_calls" e /\ lacks "tool_call_id" e) ->
     ~ In e (List.filter valid entries)) /\
  (convertInput (VArr entries) = Throw no_valid_messages <->
   List.filter valid entries = []) /\
  (forall e, convertInput (VArr entries) = Throw e -> e = no_valid_messages) /\
  (forall messages, convertInput (VArr entries) = Ok messages ->
     mapR cleanMessage (List.filter valid entries) = Ok messages /\
     List.length messages = List.length (List.filter valid entries)) /\
  (forall msg parts os,
     In msg (List.filter valid entries) ->
     get_opt "content" msg = VArr parts ->
     Forall2 reads parts os ->
     exists rest,
       cleanMessage msg =
       Ok (VObj (("role", get_opt "role" msg)
                 :: ("content", flattened parts os) :: rest))).
Proof.
  refine (conj _ (conj _ (conj _ (conj _ (conj _ _))))).
  - apply filterR_total. intros; apply isValid_valid.
  - intros e _ Hl Hin. apply List.filter_In in Hin as [_ Hv].
    rewrite (lacking_not_valid e Hl) in Hv. discriminate.
  - apply convertInput_error_iff.
  - apply convertInput_only_error.
  - intros messages H. rewrite convertInput_array in H.
    destruct (mapR cleanMessage (List.filter valid entries)) as [[| m out] | |] eqn:Hm;
      simpl in H; try discriminate. injection H as <-.
    split; [reflexivity |]. now apply mapR_length in Hm.
  - intros msg parts os Hin Hc Hr. apply List.filter_In in Hin as [_ Hv].
    now apply cleanMessage_content with (parts := parts).
Qed.

(** An evaluation of the theorem's last part: two text parts and an image
    part. *)
Example convertInput_flattens_two_texts :
  convertInput
    (VArr [VObj [("role", VStr "user");
                 ("content",
                  VArr [VObj [("type", VStr "text"); ("text", VStr "a")];
                        VObj [("type", VStr "image_url")];
                        VObj [("type", VStr "input_text"); ("input_text", VStr "b")]])];
           VObj [("content", VStr "no role")];
           VNull])
  = Ok [VObj [("role", VStr "user"); ("content", VStr ("a" ++ blank_line ++ "b"))]].
Proof. reflexivity. Qed.

(** C9 as the claim states it fails on an entry whose only text part is
    empty: the entry survives the filter, it has a content part of type
    text, and its content comes out as the array it was, not as a
    string. *)
Lemma convertInput_empty_text_not_flattened :
  convertInput
    (VArr [VObj [("role", VStr "user");
                 ("content", VArr [VObj [("type", VStr "text");
                                         ("text", VStr EmptyString)]])]])
  = Ok [VObj [("role", VStr "user");
              ("content", VArr [VObj [("type", VStr "text");
                                      ("text", VStr EmptyString)]])]] /\
  is_text (VObj [("type", VStr "text"); ("text", VStr EmptyString)]) = true /\
  isString (VArr [VObj [("type", VStr "text"); ("text", VStr EmptyString)]]) = false.
Proof. repeat split. Qed.

End ResponsesFormatFacts.

(** ** The Responses-shape shim: entries that are not messages *)

Module ResponsesRequestFacts.
Import ResponsesFormat ResponsesFormatFacts.

(** An entry whose texts are strings: its content is not a function, and
    when it is an array, each of its parts is a text part carrying a string
    or a part of another kind. *)
Definition wellTyped (msg : value) : Prop :=
  match get_opt "content" msg with
  | VArr parts => exists os, Forall2 reads parts os
  | VBuiltin _ => False
  | _ => True
  end.

Lemma cleanMessage_wellTyped (msg : value) :
  valid msg = true -> wellTyped msg ->
  exists cleaned,
    cleanMessage msg = Ok cleaned /\ get_opt "role" cleaned = get_opt "role" msg.
Proof.
  intros Hv Hw. unfold wellTyped in Hw.
  destruct (get_opt "content" msg) as [| | b | q | t | parts | fields | name] eqn:Hc;
    try contradiction;
    try (pose proof (valid_truthy _ Hv) as Ht; unfold cleanMessage;
         rewrite !(get_truthy _ _ Ht); simpl; rewrite Hc;
         match goal with
         | |- context [cleanContent ?c] =>
             assert (Hcc : cleanContent c = Ok (JS.or c VNull))
               by (unfold cleanContent; destruct (JS.or c VNull) eqn:Ho;
                   try reflexivity; unfold JS.or in Ho;
                   destruct (truthy c); discriminate Ho);
             rewrite Hcc
         end; simpl; eexists; split; reflexivity).
  destruct Hw as [os Hos].
  destruct (cleanMessage_content msg parts os Hv Hc Hos) as [rest ->].
  eexists. split; reflexivity.
Qed.

Lemma mapR_cleanMessage (kept : list value) :
  Forall (fun msg => valid msg = true) kept -> Forall wellTyped kept ->
  exists messages,
    mapR cleanMessage kept = Ok messages /\
    Forall2 (fun entry message => get_opt "role" message = get_opt "role" entry)
            kept messages.
Proof.
  induction kept as [| msg kept IH]; intros Hv Hw.
  - exists []. split; [reflexivity | constructor].
  - inversion Hv as [| ? ? Hv1 Hv2]; subst. inversion Hw as [| ? ? Hw1 Hw2]; subst.
    destruct (cleanMessage_wellTyped msg Hv1 Hw1) as (cleaned & Hc & Hr).
    destruct (IH Hv2 Hw2) as (messages & Hm & Hf).
    exists (cleaned :: messages). simpl. rewrite Hc, bind_ok, Hm. simpl.
    split; [reflexivity | now constructor].
Qed.

(** On an input array whose valid entries carry strings as texts,
    [convertResponsesToChat] does not fail on the entries that are not
    valid messages ([null], numbers, entries without a role or without
    content): it skips them and returns a chat request with one message for
    each valid entry, in order and with the role of the entry; it raises
    the error of the module itself when no entry is valid. *)
Theorem convertResponsesToChat_skips_invalid_entries
    (request : list (string * value)) (entries : list value) :
  get_opt "input" (VObj request) = VArr entries ->
  Forall wellTyped (List.filter valid entries) ->
  match List.filter valid entries with
  | [] => convertResponsesToChat (VObj request) = Throw no_valid_messages
  | kept =>
      exists chat messages,
        convertResponsesToChat (VObj request) = Ok chat /\
        get_opt "messages" chat = VArr messages /\
        Forall2 (fun entry message => get_opt "role" message = get_opt "role" entry)
                kept messages
  end.
Proof.
  intros Hinput Hw.
  assert (Hv : Forall (fun msg => valid msg = true) (List.filter valid entries)).
  { apply List.Forall_forall. intros msg Hin. now apply List.filter_In in Hin. }
  destruct (mapR_cleanMessage _ Hv Hw) as (messages & Hm & Hf).
  pose proof (convertInput_array entries) as Hci. rewrite Hm, bind_ok in Hci.
  unfold convertResponsesToChat.
  repeat match goal with
         | |- context [get ?k (VObj request)] =>
             change (get k (VObj request)) with (Ok (get_opt k (VObj request)))
         end.
  rewrite !bind_ok, Hinput, Hci.
  destruct (List.filter valid entries) as [| entry kept]; inversion Hf; subst.
  - reflexivity.
  - rewrite bind_ok. eexists. eexists.
    split; [reflexivity |]. split; [reflexivity | exact Hf].
Qed.

(** A request whose input holds three entries that are not messages before
    a user message with a text part and an image part. *)
Definition mixedRequest : list (string * value) :=
  [ ("model", VStr "gpt-4o");
    ("input",
     VArr [ VNull; num 7; VObj [("content", VStr "no role")];
            VObj [ ("role", VStr "user");
                   ("content",
                    VArr [ VObj [("type", VStr "text"); ("text", VStr "a")];
                           VObj [("type", VStr "image_url")] ]) ] ]) ].

Lemma convertResponsesToChat_skips_witness :
  exists chat,
    convertResponsesToChat (VObj mixedRequest) = Ok chat /\
    get_opt "messages" chat
    = VArr [VObj [("role", VStr "user"); ("content", VStr "a")]].
Proof.
  pose proof (convertResponsesToChat_skips_invalid_entries mixedRequest
                [ VNull; num 7; VObj [("content", VStr "no role")];
                  VObj [ ("role", VStr "user");
                         ("content",
                          VArr [ VObj [("type", VStr "text"); ("text", VStr "a")];
                                 VObj [("type", VStr "image_url")] ]) ] ]
                eq_refl) as H.
  simpl List.filter in H.
  destruct H as (chat & messages & Hchat & _).
  - constructor; [| constructor]. unfold wellTyped. simpl.
    exists [Some "a"; None]. repeat constructor.
  - exists chat. split; [exact Hchat |].
    vm_compute in Hchat. injection Hchat as <-. reflexivity.
Defined.

End ResponsesRequestFacts.

(** ** src/clients/databricks.js: the HTTP layer *)

Module HttpFacts.
Import Databricks.

(** A retry wrapper that makes one attempt, and worlds for evaluating the
    code: no environment variables set, closed breakers, no standard tools,
    converters that hand their argument back. *)
Definition singleAttempt : M value -> value -> M value := fun fn _ => fn.

Definition cloudDown : Backend -> value -> M value :=
  fun _ _ => throw (mkError "upstream unavailable").

Definition testWorld (cfg : value) (net : Log -> string -> value -> FetchOutcome)
    (provider fallbackEnabled fallbackProvider : value)
    (cloud : Backend -> value -> M value) : World :=
  {| config := cfg;
     process_env := fun _ => VUndefined;
     now := 1700000000000;
     network := net;
     withRetry := singleAttempt;
     breaker_open := fun _ _ _ => false;
     STANDARD_TOOLS := [];
     detectModelFamily := fun _ => VStr "claude";
     convertAnthropicToolsToOllama := fun v => Ok v;
     convertAnthropicToolsToOpenRouter := fun v => Ok v;
     convertAnthropicMessagesToOpenRouter := fun v => Ok v;
     determineProvider := fun _ => provider;
     isFallbackEnabled := fallbackEnabled;
     getFallbackProvider := fallbackProvider;
     analyzeComplexity := fun _ => VObj [];
     invokeCloud := cloud |}.

Definition refused : value :=
  VObj [ ("name", VStr "TypeError"); ("message", VStr "fetch failed");
         ("code", VStr "ECONNREFUSED") ].

Definition offline : Log -> string -> value -> FetchOutcome :=
  fun _ _ _ => Rejected refused.

Definition serverError : Response :=
  {| resp_ok := false; resp_status := num 500;
     resp_text := Ok "overloaded"; resp_json := VNull;
     resp_contentType := VStr "text/plain"; resp_headers := VObj [];
     resp_body := VBuiltin "ReadableStream" |}.

Definition is_post (ev : Event) : bool :=
  match ev with EvPost _ _ _ => true | _ => false end.

Definition is_retry (ev : Event) : bool :=
  match ev with EvWithRetry _ => true | _ => false end.

(** The number of POSTs issued, and of entries into the retry wrapper. *)
Definition posts (log : Log) : nat := List.length (List.filter is_post log).
Definition retryEntries (log : Log) : nat := List.length (List.filter is_retry log).

Definition streamHandle (r : Response) : value :=
  VObj [ ("ok", VBool (resp_ok r)); ("status", resp_status r);
         ("stream", resp_body r); ("contentType", resp_contentType r);
         ("headers", resp_headers r) ].

Lemma posts_app (l1 l2 : Log) : posts (l1 ++ l2) = posts l1 + posts l2.
Proof. unfold posts. now rewrite List.filter_app, List.length_app. Qed.

Lemma retryEntries_app (l1 l2 : Log) :
  retryEntries (l1 ++ l2) = retryEntries l1 + retryEntries l2.
Proof. unfold retryEntries. now rewrite List.filter_app, List.length_app. Qed.

Lemma streamingRequest_log (w : World) (url : string) (headers body : value) (log : Log) :
  snd (streamingRequest w url headers body log) = log ++ [EvPost url headers body].
Proof.
  unfold streamingRequest, streamHandle, fetch, mbind, M_bind, mret, M_ret, lift.
  destruct (network w log url body) as [e | r]; [reflexivity |].
  destruct (resp_ok r); simpl; [reflexivity |].
  destruct (resp_text r); reflexivity.
Qed.

Lemma streamingRequest_outcome (w : World) (url : string) (headers body : value) (log : Log) :
  fst (streamingRequest w url headers body log) =
  match network w log url body with
  | Rejected e => Throw e
  | Responded r =>
      if resp_ok r then Ok (streamHandle r)
      else match resp_text r with
           | Ok _ => Ok (streamHandle r)
           | Throw e => Throw e
           | Unmodelled => Unmodelled
           end
  end.
Proof.
  unfold streamingRequest, streamHandle, fetch, mbind, M_bind, mret, M_ret, lift.
  destruct (network w log url body) as [e | r]; [reflexivity |].
  destruct (resp_ok r); simpl; [reflexivity |].
  destruct (resp_text r); reflexivity.
Qed.

(** C5.  A body whose [stream] is [true] is posted once, outside the retry
    wrapper: the log grows by that one POST and by nothing else, a rejected
    fetch is raised to the caller, and a response is handed back with its
    own [ok] and [status] (so an HTTP error reaches the caller too).  Any
    other body goes through [withRetry], whose options default to 3
    attempts, 1000 ms and 30000 ms. *)
Theorem performJsonRequest_streaming_not_retried
    (w : World) (url : string) (headers body stream : value) (log : Log) :
  get "stream" body = Ok stream ->
  (strict_eq stream (VBool true) = true ->
     let out := performJsonRequest w url headers body log in
     snd out = log ++ [EvPost url headers body] /\
     posts (snd out) = posts log + 1 /\
     retryEntries (snd out) = retryEntries log /\
     (forall e, network w log url body = Rejected e -> fst out = Throw e) /\
     (forall r, network w log url body = Responded r ->
        fst out = (if resp_ok r then Ok (streamHandle r)
                   else _ ← resp_text r; Ok (streamHandle r)))) /\
  (strict_eq stream (VBool true) = false ->
     performJsonRequest w url headers body log =
     withRetry w (attempt w url headers body) (retryOptions w)
               (log ++ [EvWithRetry (retryOptions w)])) /\
  (get_opt "apiRetry" (config w) = VUndefined ->
     retryOptions w = VObj [ ("maxRetries", num 3);
                             ("initialDelay", num 1000);
                             ("maxDelay", num 30000) ]).
Proof.
  intros Hs. refine (conj _ (conj _ _)).
  - intros Ht out. subst out.
    assert (E : performJsonRequest w url headers body log
                = streamingRequest w url headers body log).
    { unfold performJsonRequest, mbind, M_bind, lift. rewrite Hs. now rewrite Ht. }
    rewrite E, streamingRequest_log, streamingRequest_outcome.
    repeat split.
    + rewrite posts_app. unfold posts. simpl. lia.
    + rewrite retryEntries_app. unfold retryEntries. simpl. lia.
    + intros e ->. reflexivity.
    + intros r ->. destruct (resp_ok r); [reflexivity |].
      destruct (resp_text r); reflexivity.
  - intros Hf. unfold performJsonRequest, mbind, M_bind, lift. rewrite Hs, Hf.
    reflexivity.
  - intros Hc. unfold retryOptions. rewrite Hc. reflexivity.
Qed.

(** The theorem at a streaming body whose upstream answers 500, in a world
    with no retry configuration. *)
Lemma performJsonRequest_streaming_witness :
  let w := testWorld (VObj []) (fun _ _ _ => Responded serverError)
                     (VStr "ollama") (VBool false) VUndefined cloudDown in
  let body := VObj [("stream", VBool true)] in
  get "stream" body = Ok (VBool true) /\
  performJsonRequest w "http://upstream/v1" (VObj []) body []
  = (Ok (streamHandle serverError), [EvPost "http://upstream/v1" (VObj []) body]).
Proof.
  split; [reflexivity |].
  pose proof (performJsonRequest_streaming_not_retried
                (testWorld (VObj []) (fun _ _ _ => Responded serverError)
                           (VStr "ollama") (VBool false) VUndefined cloudDown)
                "http://upstream/v1" (VObj []) (VObj [("stream", VBool true)])
                (VBool true) [] eq_refl) as [Hstream _].
  specialize (Hstream eq_refl). cbv zeta in Hstream.
  destruct Hstream as (Hlog & _ & _ & _ & Hresp).
  specialize (Hresp serverError eq_refl).
  apply injective_projections; [exact Hresp | exact Hlog].
Defined.

End HttpFacts.

(** ** src/clients/databricks.js: messages for the local providers *)

Module LocalFacts.
Import Databricks HttpFacts.

Definition role (msg : value) : value := get_opt "role" msg.

(** No two neighbours of the sequence have the same role, in the sense of
    the [===] the loop compares roles with. *)
Definition no_consecutive_roles (msgs : list value) : Prop :=
  forall (i : nat) (a b : value),
    msgs !! i = Some a -> msgs !! S i = Some b ->
    strict_eq (role b) (role a) = false.

(** The spec's walk over the message sequence: a message is dropped when its
    role equals the role of the message emitted last ([lastRole], which is
    [null] before anything is emitted), and emitted otherwise. *)
Inductive Compacted : value -> list value -> list value -> Prop :=
| Compacted_nil (lastRole : value) :
    Compacted lastRole [] []
| Compacted_drop (lastRole msg : value) (rest out : list value) :
    strict_eq (role msg) lastRole = true ->
    Compacted lastRole rest out ->
    Compacted lastRole (msg :: rest) out
| Compacted_keep (lastRole msg : value) (rest out : list value) :
    strict_eq (role msg) lastRole = false ->
    Compacted (role msg) rest out ->
    Compacted lastRole (msg :: rest) (msg :: out).

Lemma get_role (msg r : value) : get "role" msg = Ok r -> role msg = r.
Proof. unfold role, get_opt. now intros ->. Qed.

(** The loop emits what the walk emits. *)
Lemma dedupLoop_Compacted (skipLog : value -> result unit) (msgs : list value) :
  forall (acc : list value) (lastRole : value) (st : list value * value),
    dedupLoop skipLog (acc, lastRole) msgs = Ok st ->
    exists kept, fst st = acc ++ kept /\ Compacted lastRole msgs kept.
Proof.
  induction msgs as [| msg rest IH]; intros acc lastRole st H; simpl in H.
  - injection H as <-. exists []. split; [now rewrite List.app_nil_r | constructor].
  - unfold dedupStep in H. simpl in H.
    destruct (get "role" msg) as [r | |] eqn:Hr; simpl in H; try discriminate.
    apply get_role in Hr.
    destruct (strict_eq r lastRole) eqn:Heq.
    + destruct (skipLog msg) as [[] | |]; simpl in H; try discriminate.
      destruct (IH _ _ _ H) as (kept & Hk & Hc).
      exists kept. split; [exact Hk |]. apply Compacted_drop; [now rewrite Hr | exact Hc].
    + simpl in H. destruct (IH _ _ _ H) as (kept & Hk & Hc).
      exists (msg :: kept). split.
      * now rewrite Hk, <- List.app_assoc.
      * apply Compacted_keep; rewrite Hr; assumption.
Qed.

(** What the walk emits has no two neighbours of the same role, and its
    first message does not have the role it started from. *)
Lemma Compacted_no_consecutive (lastRole : value) (msgs out : list value) :
  Compacted lastRole msgs out ->
  no_consecutive_roles out /\
  (forall first, out !! 0 = Some first -> strict_eq (role first) lastRole = false).
Proof.
  induction 1 as [lastRole | lastRole msg rest out Heq _ IH
                  | lastRole msg rest out Hne _ IH].
  - split; [intros i a b Ha; destruct i; discriminate | intros first Hf; discriminate].
  - exact IH.
  - destruct IH as [IHn IHf]. split.
    + intros i a b Ha Hb. destruct i as [| i].
      * simpl in Ha, Hb. injection Ha as <-. now apply IHf.
      * simpl in Ha, Hb. now apply (IHn i).
    + intros first Hf. simpl in Hf. now injection Hf as <-.
Qed.

Lemma deduplicate_Compacted (skipLog : value -> result unit) (msgs out : list value) :
  deduplicate skipLog msgs = Ok out -> Compacted VNull msgs out.
Proof.
  unfold deduplicate. intros H.
  destruct (dedupLoop skipLog ([], VNull) msgs) as [st | |] eqn:Hl; simpl in H;
    try discriminate.
  injection H as <-. apply dedupLoop_Compacted in Hl as (kept & -> & Hc). exact Hc.
Qed.

(** Roles that are strings and pass [===] as different are different. *)
Lemma string_roles_differ (a b : value) (ra rb : string) :
  role a = VStr ra -> role b = VStr rb ->
  strict_eq (role b) (role a) = false -> ra <> rb.
Proof.
  intros -> -> H ->. simpl in H. now rewrite String.eqb_refl in H.
Qed.

Lemma assoc_app_l (k : string) (v : value) (l1 l2 : list (string * value)) :
  assoc k l1 = Some v -> assoc k (l1 ++ l2) = Some v.
Proof.
  induction l1 as [| [k' v'] l1 IH]; simpl; [discriminate |].
  destruct (String.eqb k k'); [trivial | exact IH].
Qed.

(** The messages of the body [invokeOllama] posts. *)
Lemma ollamaBody_messages (w : World) (body b : value) :
  ollamaBody w body = Ok b ->
  exists messages converted out,
    get "messages" body ≫= (fun m => as_array (JS.or m (VArr []))) = Ok messages /\
    mapR ollamaMessage messages = Ok converted /\
    deduplicate ollamaSkipLog converted = Ok out /\
    get "messages" b = Ok (VArr out).
Proof.
  unfold ollamaBody. intros H.
  destruct (get "messages" body) as [m0 | |]; simpl in H |- *; try discriminate.
  destruct (as_array (JS.or m0 (VArr []))) as [messages | |]; simpl in H |- *;
    try discriminate.
  destruct (mapR ollamaMessage messages) as [converted | |] eqn:Hc; simpl in H;
    try discriminate.
  destruct (deduplicate ollamaSkipLog converted) as [out | |] eqn:Hd; simpl in H;
    try discriminate.
  exists messages, converted, out. repeat split; try assumption.
  repeat (match type of H with
          | (?m ≫= _) = Ok _ => destruct m; simpl in H; try discriminate
          end).
  injection H as <-. reflexivity.
Qed.

(** The messages of the body [invokeLlamaCpp] posts. *)
Lemma llamacppBody_messages (w : World) (body b : value) :
  llamacppBody w body = Ok b ->
  exists messages out,
    llamacppMessages w body = Ok messages /\
    deduplicate llamacppSkipLog messages = Ok out /\
    get "messages" b = Ok (VArr out).
Proof.
  unfold llamacppBody. intros H.
  destruct (llamacppMessages w body) as [messages | |]; simpl in H; try discriminate.
  destruct (deduplicate llamacppSkipLog messages) as [out | |] eqn:Hd; simpl in H;
    try discriminate.
  exists messages, out. repeat split; try assumption.
  repeat (match type of H with
          | (?m ≫= _) = Ok _ => destruct m; simpl in H; try discriminate
          end).
  injection H as <-. reflexivity.
Qed.

(** The bodies built for Ollama and for llama.cpp: their messages are what
    the walk of the spec emits from the translated messages (a message
    whose role equals the role of the message emitted last is dropped), and
    no two consecutive messages have the same role; for roles that are
    strings, neighbouring roles are different strings. *)
Lemma local_messages_no_consecutive_roles (w : World) (body : value) :
  (forall b, ollamaBody w body = Ok b ->
     exists messages translated out,
       get "messages" body ≫= (fun m => as_array (JS.or m (VArr []))) = Ok messages /\
       mapR ollamaMessage messages = Ok translated /\
       get "messages" b = Ok (VArr out) /\
       Compacted VNull translated out /\
       no_consecutive_roles out /\
       (forall i x y rx ry, out !! i = Some x -> out !! S i = Some y ->
          role x = VStr rx -> role y = VStr ry -> rx <> ry)) /\
  (forall b, llamacppBody w body = Ok b ->
     exists translated out,
       llamacppMessages w body = Ok translated /\
       get "messages" b = Ok (VArr out) /\
       Compacted VNull translated out /\
       no_consecutive_roles out /\
       (forall i x y rx ry, out !! i = Some x -> out !! S i = Some y ->
          role x = VStr rx -> role y = VStr ry -> rx <> ry)).
Proof.
  split; intros b H.
  - apply ollamaBody_messages in H as (messages & converted & out & Hb & Hc & Hd & Hm).
    apply deduplicate_Compacted in Hd.
    destruct (Compacted_no_consecutive _ _ _ Hd) as [Hn _].
    exists messages, converted, out. repeat split; try assumption.
    intros i x y rx ry Hx Hy Hrx Hry.
    exact (string_roles_differ x y rx ry Hrx Hry (Hn i x y Hx Hy)).
  - apply llamacppBody_messages in H as (messages & out & Hl & Hd & Hm).
    apply deduplicate_Compacted in Hd.
    destruct (Compacted_no_consecutive _ _ _ Hd) as [Hn _].
    exists messages, out. repeat split; try assumption.
    intros i x y rx ry Hx Hy Hrx Hry.
    exact (string_roles_differ x y rx ry Hrx Hry (Hn i x y Hx Hy)).
Qed.

Definition userText (s : string) : value :=
  VObj [("role", VStr "user"); ("content", VStr s)].

Definition assistantText (s : string) : value :=
  VObj [("role", VStr "assistant"); ("content", VStr s)].

(** Both bodies are built, with the second of two user messages in a row
    dropped. *)
Example ollamaBody_drops_second_user_message :
  let w := testWorld (VObj [("ollama", VObj [("model", VStr "qwen")])]) offline
                     (VStr "ollama") (VBool false) VUndefined cloudDown in
  let body := VObj [("messages",
                     VArr [userText "a"; userText "b"; assistantText "c"; userText "d"])] in
  get "messages" (match ollamaBody w body with Ok b => b | _ => VNull end)
  = Ok (VArr [userText "a"; assistantText "c"; userText "d"]) /\
  get "messages" (match llamacppBody w body with Ok b => b | _ => VNull end)
  = Ok (VArr [userText "a"; assistantText "c"; userText "d"]).
Proof. split; reflexivity. Qed.

End LocalFacts.

(** ** src/clients/databricks.js: the Bedrock Converse translation *)

Module BedrockFacts.
Import Databricks HttpFacts LocalFacts.

Definition nullish_value (v : value) : bool :=
  match v with VUndefined | VNull => true | _ => false end.

Lemma get_defined (k : string) (v r : value) : get k v = Ok r -> r = get_opt k v.
Proof. unfold get_opt. now intros ->. Qed.

(** [c.text || c.content || ""] as a value. *)
Definition block_text (c : value) : value :=
  JS.or (JS.or (get_opt "text" c) (get_opt "content" c)) (VStr EmptyString).

Definition converse_parts (content : value) : list value :=
  match content with
  | VArr blocks => List.map (fun b => textPart (block_text b)) blocks
  | other => [textPart other]
  end.

(** The Converse part the spec assigns to a canonical content block:
    text to [{text}], tool_use to [toolUse: {toolUseId, name, input}],
    tool_result to [toolResult: {toolUseId, content: [{text}]}]. *)
Definition spec_part (block : value) : option value :=
  let ty := get_opt "type" block in
  if is_str "text" ty then Some (VObj [("text", get_opt "text" block)])
  else if is_str "tool_use" ty then
    Some (VObj [("toolUse",
                 VObj [ ("toolUseId", get_opt "id" block);
                        ("name", get_opt "name" block);
                        ("input", get_opt "input" block) ])])
  else if is_str "tool_result" ty then
    Some (VObj [("toolResult",
                 VObj [ ("toolUseId", get_opt "tool_use_id" block);
                        ("content", VArr [VObj [("text", get_opt "content" block)]]) ])])
  else None.

Lemma filterR_inv {A : Type} (f : A -> result bool) (g : A -> bool)
    (l out : list A) :
  (forall x b, f x = Ok b -> g x = b) ->
  filterR f l = Ok out -> out = List.filter g l.
Proof.
  intros Hfg. revert out. induction l as [| x rest IH]; intros out H; simpl in H.
  - now injection H as <-.
  - destruct (f x) as [b | |] eqn:Hx; simpl in H; try discriminate.
    destruct (filterR f rest) as [ys | |]; simpl in H; try discriminate.
    injection H as <-. simpl. rewrite (Hfg x b Hx), (IH ys eq_refl).
    destruct b; reflexivity.
Qed.

Lemma mapR_inv {A B : Type} (f : A -> result B) (g : A -> B) (l : list A) (out : list B) :
  (forall x y, f x = Ok y -> y = g x) ->
  mapR f l = Ok out -> out = List.map g l.
Proof.
  intros Hfg. revert out. induction l as [| x rest IH]; intros out H; simpl in H.
  - now injection H as <-.
  - destruct (f x) as [y | |] eqn:Hx; simpl in H; try discriminate.
    destruct (mapR f rest) as [ys | |]; simpl in H; try discriminate.
    injection H as <-. simpl. now rewrite (Hfg x y Hx), (IH ys eq_refl).
Qed.

Lemma mapR_Forall2 {A B : Type} (f : A -> result B) (P : A -> B -> Prop)
    (l : list A) (out : list B) :
  (forall x y, f x = Ok y -> P x y) ->
  mapR f l = Ok out -> Forall2 P l out.
Proof.
  intros Hfg. revert out. induction l as [| x rest IH]; intros out H; simpl in H.
  - injection H as <-. constructor.
  - destruct (f x) as [y | |] eqn:Hx; simpl in H; try discriminate.
    destruct (mapR f rest) as [ys | |]; simpl in H; try discriminate.
    injection H as <-. constructor; [now apply Hfg | now apply IH].
Qed.

Lemma blockText_inv (c t : value) : blockText c = Ok t -> t = block_text c.
Proof.
  unfold blockText, block_text. intros H.
  destruct (get "text" c) as [x | |] eqn:Hx; simpl in H; try discriminate.
  destruct (get "content" c) as [y | |] eqn:Hy; simpl in H; try discriminate.
  injection H as <-. now rewrite (get_defined _ _ _ Hx), (get_defined _ _ _ Hy).
Qed.

Lemma isSystem_inv (m : value) (b : bool) :
  isSystem m = Ok b -> is_str "system" (role m) = b.
Proof.
  unfold isSystem. intros H.
  destruct (get "role" m) as [r | |] eqn:Hr; simpl in H; try discriminate.
  injection H as <-. now rewrite (get_role _ _ Hr).
Qed.

Lemma notSystem_inv (m : value) (b : bool) :
  notSystem m = Ok b -> negb (is_str "system" (role m)) = b.
Proof.
  unfold notSystem. intros H.
  destruct (get "role" m) as [r | |] eqn:Hr; simpl in H; try discriminate.
  injection H as <-. now rewrite (get_role _ _ Hr).
Qed.

Lemma converseMessage_inv (m c : value) :
  converseMessage m = Ok c ->
  role c = role m /\
  get_opt "content" c = VArr (converse_parts (get_opt "content" m)).
Proof.
  unfold converseMessage. intros H.
  destruct (get "role" m) as [r | |] eqn:Hr; simpl in H; try discriminate.
  destruct (get "content" m) as [ct | |] eqn:Hc; simpl in H; try discriminate.
  apply get_role in Hr. apply get_defined in Hc. subst ct.
  destruct (get_opt "content" m) eqn:Hct; simpl in H;
    try (injection H as <-; split; [now rewrite Hr | reflexivity]).
  destruct (mapR _ items) as [parts | |] eqn:Hp; simpl in H; try discriminate.
  injection H as <-. split; [now rewrite Hr |].
  unfold get_opt. simpl. f_equal.
  apply (mapR_inv _ (fun b => textPart (block_text b))) in Hp; [exact Hp |].
  intros x y Hxy. destruct (blockText x) as [t | |] eqn:Ht; simpl in Hxy; try discriminate.
  injection Hxy as <-. now rewrite (blockText_inv _ _ Ht).
Qed.

Lemma assoc_put_other (k k' : string) (v : value) (fields : list (string * value)) :
  String.eqb k k' = false -> assoc k (put k' v fields) = assoc k fields.
Proof.
  intros Hk. induction fields as [| [k0 v0] rest IH]; simpl.
  - now rewrite Hk.
  - destruct (String.eqb k' k0) eqn:E; simpl.
    + apply String.eqb_eq in E. subst k0. now rewrite Hk.
    + destruct (String.eqb k k0); [reflexivity | exact IH].
Qed.

(** Reading a request field other than [tools] off [{...body, tools}]. *)
Lemma get_bedrockBody (k : string) (tools body : value) :
  String.eqb k "tools" = false ->
  String.eqb k "length" = false ->
  inherited k = VUndefined ->
  nullish_value body = false ->
  get k (VObj (put "tools" tools (spread body))) = Ok (get_opt k body).
Proof.
  intros Ht Hl Hi Hb. simpl. f_equal.
  destruct body; try discriminate; unfold get_opt; simpl; rewrite ?Ht, ?Hl, ?Hi;
    try reflexivity.
  now rewrite assoc_put_other.
Qed.

Lemma assoc_app (k : string) (l1 l2 : list (string * value)) :
  assoc k (l1 ++ l2) =
  match assoc k l1 with Some v => Some v | None => assoc k l2 end.
Proof.
  induction l1 as [| [k' v'] l1 IH]; simpl; [reflexivity |].
  destruct (String.eqb k k'); [reflexivity | exact IH].
Qed.

Lemma get_opt_obj_assoc (k : string) (fields : list (string * value)) :
  get_opt k (VObj fields) =
  match assoc k fields with Some v => v | None => inherited k end.
Proof. reflexivity. Qed.

Lemma get_not_nullish (k : string) (v r : value) :
  get k v = Ok r -> nullish_value v = false.
Proof. destruct v; simpl; intros H; try discriminate; reflexivity. Qed.

(** The top-level [system] field of the Converse body: the request's own
    system prompt when it has one, else the content of the first system-role
    message (its blocks' texts joined by line feeds), else absent. *)
Definition system_field (body : value) (messages : list value) (field : value) : Prop :=
  if truthy (get_opt "system" body)
  then field = VArr [textPart (get_opt "system" body)]
  else match List.filter (fun m => is_str "system" (role m)) messages with
       | [] => field = VUndefined
       | first :: _ =>
           match get_opt "content" first with
           | VArr blocks =>
               exists s, join_values nl (List.map block_text blocks) = Ok s /\
                         field = VArr [textPart (VStr s)]
           | other => field = VArr [textPart other]
           end
       end.

Definition textBlock (t : string) : value :=
  VObj [("type", VStr "text"); ("text", VStr t)].

Definition toolUseBlock (id name : string) (input : value) : value :=
  VObj [ ("type", VStr "tool_use"); ("id", VStr id);
         ("name", VStr name); ("input", input) ].

Definition toolResultBlock (tool_use_id : string) (content : value) : value :=
  VObj [ ("type", VStr "tool_result"); ("tool_use_id", VStr tool_use_id);
         ("content", content) ].

(** What becomes of each kind of canonical block. *)
Lemma block_text_kinds :
  (forall t, block_text (textBlock t) = VStr t) /\
  (forall id name input, block_text (toolUseBlock id name input) = VStr EmptyString) /\
  (forall id content, truthy content = true ->
     block_text (toolResultBlock id content) = content).
Proof.
  refine (conj _ (conj _ _)).
  - intros t. unfold block_text, textBlock, get_opt, JS.or. simpl.
    destruct t; reflexivity.
  - reflexivity.
  - intros id content Hc. unfold block_text, toolResultBlock, get_opt, JS.or. simpl.
    now rewrite Hc.
Qed.

Lemma systemContent_inv (first content : value) :
  systemContent first = Ok content ->
  match get_opt "content" first with
  | VArr blocks =>
      exists s, join_values nl (List.map block_text blocks) = Ok s /\ content = VStr s
  | other => content = other
  end.
Proof.
  unfold systemContent. intros H.
  destruct (get "content" first) as [ct | |] eqn:Hc; simpl in H; try discriminate.
  apply get_defined in Hc. subst ct.
  destruct (get_opt "content" first); try (now injection H as <-).
  destruct (mapR blockText items) as [texts | |] eqn:Ht; simpl in H; try discriminate.
  apply (mapR_inv _ block_text) in Ht; [| apply blockText_inv]. subst texts.
  destruct (join_values nl (List.map block_text items)) as [s | |]; simpl in H;
    try discriminate.
  injection H as <-. now exists s.
Qed.

Ltac bind_inv H name :=
  match type of H with
  | mbind ?f ?m = ?rhs =>
      let E := fresh "E" in
      destruct m as [name | |] eqn:E;
      [ change (f name = rhs) in H; cbv beta in H
      | simpl in H; discriminate H
      | simpl in H; discriminate H ]
  end.

(** The Converse body built from a canonical
    request: the messages are the request's messages without those of role
    system, in order, each with its role kept; a content that is an array
    of blocks becomes one [{text}] part per block, whose text is the
    block's text, else its content, else the empty string (so a text block
    gives its text, a tool_use block the empty text and a tool_result block
    its content); any other content becomes a single [{text}] part; and the
    top-level system field is the request's system prompt, else the content
    of the first system-role message. *)
Lemma converseBody_flattens_blocks_to_text (w : World) (body cb : value) :
  converseBody w body = Ok cb ->
  exists messages converted,
    get_opt "messages" body = VArr messages /\
    get_opt "messages" cb = VArr converted /\
    Forall2 (fun m c =>
               role c = role m /\
               get_opt "content" c = VArr (converse_parts (get_opt "content" m)))
            (List.filter (fun m => negb (is_str "system" (role m))) messages)
            converted /\
    Forall (fun c => is_str "system" (role c) = false) converted /\
    system_field body messages (get_opt "system" cb) /\
    (forall t, block_text (textBlock t) = VStr t) /\
    (forall id name input, block_text (toolUseBlock id name input) = VStr EmptyString) /\
    (forall id content, truthy content = true ->
       block_text (toolResultBlock id content) = content).
Proof.
  unfold converseBody. intros H.
  bind_inv H tools0. pose proof (get_not_nullish _ _ _ E) as Hbody.
  bind_inv H names. clear E0 names.
  rewrite (get_bedrockBody "messages"), bind_ok in H by (try reflexivity; assumption).
  bind_inv H messages.
  destruct (get_opt "messages" body) as [| | | | | items | |] eqn:Hm; try discriminate E0.
  injection E0 as ->.
  bind_inv H systemMessages.
  apply (filterR_inv _ (fun m => is_str "system" (role m))) in E0; [| apply isSystem_inv].
  bind_inv H others.
  apply (filterR_inv _ (fun m => negb (is_str "system" (role m)))) in E1;
    [| apply notSystem_inv].
  bind_inv H converted.
  rewrite (get_bedrockBody "system"), bind_ok in H by (try reflexivity; assumption).
  bind_inv H system.
  rewrite (get_bedrockBody "max_tokens"), bind_ok in H by (try reflexivity; assumption).
  rewrite (get_bedrockBody "temperature"), bind_ok in H by (try reflexivity; assumption).
  rewrite (get_bedrockBody "top_p"), bind_ok in H by (try reflexivity; assumption).
  bind_inv H toolConfig.
  injection H as Hcb. symmetry in Hcb.
  exists messages, converted.
  assert (HF : Forall2 (fun m c =>
               role c = role m /\
               get_opt "content" c = VArr (converse_parts (get_opt "content" m)))
               others converted).
  { apply (mapR_Forall2 converseMessage); [apply converseMessage_inv | exact E2]. }
  refine (conj eq_refl (conj _ (conj _ (conj _ (conj _ block_text_kinds))))).
  - now rewrite Hcb.
  - now rewrite <- E1.
  - subst others. clear - HF.
    remember (List.filter (fun m => negb (is_str "system" (role m))) messages) as kept eqn:Hk.
    assert (Hall : Forall (fun m => is_str "system" (role m) = false) kept).
    { subst kept. apply List.Forall_forall. intros m Hin.
      apply List.filter_In in Hin as [_ Hin]. now apply negb_true_iff in Hin. }
    clear Hk. induction HF as [| m c ms cs [Hr _] _ IH]; constructor.
    + rewrite Hr. now inversion Hall.
    + apply IH. now inversion Hall.
  - unfold system_field.
    assert (Htc : assoc "system" toolConfig = None).
    { clear - E4. destruct (if clientSentTools tools0 then _ else _) as [| | | | | [| t ts] | |];
        try (injection E4 as <-; reflexivity).
      destruct (mapR toolSpec (t :: ts)); simpl in E4; try discriminate.
      injection E4 as <-. reflexivity. }
    assert (Hsys : get_opt "system" cb
                   = match assoc "system" system with
                     | Some v => v
                     | None => VUndefined
                     end).
    { rewrite Hcb, get_opt_obj_assoc.
      match goal with
      | |- context [assoc "system" (_ :: ?l)] =>
          change (assoc "system" (("messages", VArr converted) :: l))
            with (assoc "system" l)
      end.
      rewrite !assoc_app.
      destruct (assoc "system" system); [reflexivity |].
      destruct (truthy (get_opt "max_tokens" body)); simpl; now rewrite Htc. }
    rewrite Hsys. clear Hsys Htc.
    destruct (truthy (get_opt "system" body)).
    + now injection E3 as <-.
    + rewrite <- E0. destruct systemMessages as [| first rest].
      * now injection E3 as <-.
      * destruct (systemContent first) as [content | |] eqn:Hc; simpl in E3;
          try discriminate.
        injection E3 as <-. apply systemContent_inv in Hc. simpl.
        destruct (get_opt "content" first); try (now subst content).
        destruct Hc as (s & Hs & ->). now exists s.
Qed.

(** A Bedrock configuration and a conversation with a tool call: a system
    message, a user turn, the assistant's tool_use and the user's
    tool_result. *)
Definition bedrockConfig : value :=
  VObj [("bedrock",
         VObj [ ("apiKey", VStr "ABSK-test");
                ("modelId", VStr "us.anthropic.claude-3-5-sonnet-20241022-v2:0");
                ("region", VStr "us-east-1") ])].

Definition toolConversation : value :=
  VObj [ ("model", VStr "claude-sonnet-4-5");
         ("max_tokens", num 1024);
         ("messages",
          VArr [ VObj [("role", VStr "system"); ("content", VStr "Be brief.")];
                 VObj [("role", VStr "user"); ("content", VStr "Read /a")];
                 VObj [("role", VStr "assistant");
                       ("content",
                        VArr [toolUseBlock "toolu_1" "Read"
                                (VObj [("file_path", VStr "/a")])])];
                 VObj [("role", VStr "user");
                       ("content",
                        VArr [toolResultBlock "toolu_1" (VStr "contents")])] ]) ].

Definition toolConversationConverse : value :=
  VObj [ ("messages",
          VArr [ VObj [("role", VStr "user");
                       ("content", VArr [textPart (VStr "Read /a")])];
                 VObj [("role", VStr "assistant");
                       ("content", VArr [textPart (VStr EmptyString)])];
                 VObj [("role", VStr "user");
                       ("content", VArr [textPart (VStr "contents")])] ]);
         ("system", VArr [textPart (VStr "Be brief.")]);
         ("inferenceConfig",
          VObj [ ("maxTokens", num 1024);
                 ("temperature", VUndefined);
                 ("topP", VUndefined) ]) ].

Definition bedrockWorld (net : Log -> string -> value -> FetchOutcome) : World :=
  testWorld bedrockConfig net (VStr "bedrock") (VBool false) VUndefined cloudDown.

Lemma converseBody_toolConversation :
  converseBody (bedrockWorld offline) toolConversation = Ok toolConversationConverse.
Proof. reflexivity. Qed.

(** *** The canonical response *)

(** The model of the canonical response is the identifier handed to the
    conversion, which [invokeBedrock] takes from [config.bedrock.modelId]. *)
Lemma anthropicResponse_model (w : World) (modelId converseResponse r : value) :
  anthropicResponse w modelId converseResponse = Ok r ->
  get_opt "model" r = modelId.
Proof.
  unfold anthropicResponse. intros H.
  repeat (match type of H with
          | mbind _ ?m = Ok _ => destruct m; simpl in H; try discriminate
          end).
  injection H as <-. reflexivity.
Qed.

Definition converseAnswer : value :=
  VObj [ ("output",
          VObj [("message",
                 VObj [("role", VStr "assistant");
                       ("content", VArr [VObj [("text", VStr "Hi")]])])]);
         ("stopReason", VStr "end_turn");
         ("usage", VObj [("inputTokens", num 1); ("outputTokens", num 1)]) ].

Definition answering (json : value) : Log -> string -> value -> FetchOutcome :=
  fun _ _ _ =>
    Responded {| resp_ok := true; resp_status := num 200;
                 resp_text := Ok "{}"; resp_json := json;
                 resp_contentType := VStr "application/json";
                 resp_headers := VObj [];
                 resp_body := VBuiltin "ReadableStream" |}.

Definition helloRequest : value :=
  VObj [ ("model", VStr "claude-sonnet-4-5");
         ("max_tokens", num 100);
         ("messages", VArr [VObj [("role", VStr "user"); ("content", VStr "Hello")]]) ].

Lemma rethrow_not_ok (e r : value) (log log' : Log) :
  rethrow (A := value) e log <> (Ok r, log').
Proof.
  unfold rethrow, throw. destruct (get "message" e); discriminate.
Qed.

(** Whenever [invokeBedrock] returns, the model of the canonical response
    it built is the model identifier the provider is configured with,
    [config.bedrock.modelId]: neither the request nor the upstream response
    has a say in it. *)
Lemma invokeBedrock_model_is_configured
    (w : World) (body r json : value) (log log' : Log) :
  invokeBedrock w body log = (Ok r, log') ->
  get "json" r = Ok json ->
  get_opt "model" json = get_opt "modelId" (get_opt "bedrock" (config w)).
Proof.
  unfold invokeBedrock. cbv zeta.
  destruct (negb (truthy (get_opt "apiKey" (get_opt "bedrock" (config w)))));
    [discriminate |].
  unfold mbind at 1, M_bind at 1, lift at 1.
  destruct (converseBody w body) as [converse | |]; try discriminate.
  unfold mbind at 1, M_bind at 1, lift at 1.
  destruct (to_string (get_opt "modelId" _)) as [model | |]; try discriminate.
  unfold mbind at 1, M_bind at 1, lift at 1.
  destruct (to_string (get_opt "region" _)) as [region | |]; try discriminate.
  unfold mbind at 1, M_bind at 1, lift at 1.
  destruct (to_string (get_opt "apiKey" _)) as [token | |]; try discriminate.
  cbv zeta. unfold try_catch.
  match goal with
  | |- (match ?m log with _ => _ end) = _ -> _ =>
      destruct (m log) as [[x | e |] log1] eqn:Hrun
  end.
  2: intros H; now apply rethrow_not_ok in H.
  2: discriminate.
  intros H; injection H as -> ->. revert Hrun.
  unfold mbind at 1, M_bind at 1.
  destruct (performJsonRequest w _ _ converse log) as [[response | |] log1];
    try discriminate.
  unfold mbind at 1, M_bind at 1, lift at 1.
  destruct (get "ok" response) as [ok | |]; try discriminate.
  destruct (negb (truthy ok)).
  - unfold mbind at 1, M_bind at 1, lift at 1.
    destruct (get "status" response ≫= to_string); try discriminate.
    unfold mbind at 1, M_bind at 1, lift at 1.
    destruct (get "text" response ≫= to_string); discriminate.
  - unfold mbind at 1, M_bind at 1, lift at 1.
    destruct (get "json" response) as [upstream | |]; try discriminate.
    unfold mbind at 1, M_bind at 1, lift at 1.
    destruct (anthropicResponse w _ upstream) as [canonical | |] eqn:Hc;
      try discriminate.
    intros H. injection H as <- <-. intros Hj. simpl in Hj. injection Hj as <-.
    now apply anthropicResponse_model in Hc.
Qed.

Lemma invokeBedrock_hello :
  invokeBedrock (bedrockWorld (answering converseAnswer)) helloRequest []
  = (Ok (VObj [ ("ok", VBool true);
                ("status", num 200);
                ("json",
                 VObj [ ("id", VStr "bedrock-1700000000000");
                        ("type", VStr "message");
                        ("role", VStr "assistant");
                        ("model", VStr "us.anthropic.claude-3-5-sonnet-20241022-v2:0");
                        ("content",
                         VArr [VObj [("type", VStr "text"); ("text", VStr "Hi")]]);
                        ("stop_reason", VStr "end_turn");
                        ("usage", VObj [ ("input_tokens", num 1);
                                         ("output_tokens", num 1) ]) ]);
                ("actualProvider", VStr "bedrock");
                ("modelFamily", VStr "claude") ]),
     [ EvWithRetry (VObj [ ("maxRetries", num 3); ("initialDelay", num 1000);
                           ("maxDelay", num 30000) ]);
       EvPost "https://bedrock-runtime.us-east-1.amazonaws.com/model/us.anthropic.claude-3-5-sonnet-20241022-v2:0/converse"
         (VObj [ ("Content-Type", VStr "application/json");
                 ("Authorization", VStr "Bearer ABSK-test") ])
         (VObj [ ("messages",
                  VArr [VObj [("role", VStr "user");
                              ("content", VArr [textPart (VStr "Hello")])]]);
                 ("inferenceConfig",
                  VObj [ ("maxTokens", num 100); ("temperature", VUndefined);
                         ("topP", VUndefined) ]) ]) ]).
Proof. vm_compute. reflexivity. Qed.

(** The lemma at a request for claude-sonnet-4-5 that the upstream
    answers. *)
Lemma invokeBedrock_model_configured_at_hello :
  get_opt "model"
    (get_opt "json"
       (match fst (invokeBedrock (bedrockWorld (answering converseAnswer))
                     helloRequest []) with
        | Ok r => r
        | _ => VNull
        end))
  = get_opt "modelId" (get_opt "bedrock" bedrockConfig).
Proof.
  rewrite invokeBedrock_hello.
  exact (invokeBedrock_model_is_configured
           (bedrockWorld (answering converseAnswer)) helloRequest _ _ [] _
           invokeBedrock_hello eq_refl).
Defined.

(** C2: the caller asks for claude-sonnet-4-5, the gateway is configured
    with the Bedrock model us.anthropic.claude-3-5-sonnet-20241022-v2:0,
    and the canonical response that [invokeBedrock] builds names the
    configured model, not the requested one, where the sibling conversion
    of the OpenAI family is handed the requested model. *)
Lemma invokeBedrock_model_not_requested :
  get "model" helloRequest = Ok (VStr "claude-sonnet-4-5") /\
  (r ← fst (invokeBedrock (bedrockWorld (answering converseAnswer)) helloRequest []);
   json ← get "json" r;
   get "model" json)
  = Ok (VStr "us.anthropic.claude-3-5-sonnet-20241022-v2:0") /\
  VStr "us.anthropic.claude-3-5-sonnet-20241022-v2:0" <> VStr "claude-sonnet-4-5".
Proof. repeat split; try (vm_compute; reflexivity). discriminate. Qed.

End BedrockFacts.

(** ** src/clients/databricks.js: the dispatcher *)

Module DispatchFacts.
Import Databricks HttpFacts.

Definition helloRequestBody : value :=
  VObj [ ("model", VStr "claude-sonnet-4-5");
         ("messages", VArr [VObj [("role", VStr "user"); ("content", VStr "Hello")]]) ].

Definition is_fallback (s : Step) : bool :=
  match s with ExecuteFallback _ => true | _ => false end.

(** How many times the fallback provider was invoked. *)
Definition fallbacks (steps : list Step) : nat :=
  List.length (List.filter is_fallback steps).

Lemma fallbacks_app (l1 l2 : list Step) :
  fallbacks (l1 ++ l2) = fallbacks l1 + fallbacks l2.
Proof. unfold fallbacks. now rewrite List.filter_app, List.length_app. Qed.

(** Running [m] from [st] appends the steps [new]. *)
Definition grows {A : Type} (m : D A) (st : list Step * Log) (new : list Step) : Prop :=
  fst (snd (m st)) = fst st ++ new.

(** [m] appends steps, none of which invokes the fallback provider. *)
Definition quiet {A : Type} (m : D A) : Prop :=
  forall st, exists new, grows m st new /\ fallbacks new = 0.

Lemma quiet_ret {A : Type} (a : A) : quiet (mret a : D A).
Proof. intros st. exists []. split; [unfold grows; simpl; now rewrite List.app_nil_r | reflexivity]. Qed.

Lemma quiet_pure {A : Type} (r : result A) : quiet (pure r).
Proof. intros st. exists []. split; [unfold grows; simpl; now rewrite List.app_nil_r | reflexivity]. Qed.

Lemma quiet_raise {A : Type} (e : value) : quiet (raise e : D A).
Proof. intros st. exists []. split; [unfold grows; simpl; now rewrite List.app_nil_r | reflexivity]. Qed.

Lemma quiet_client {A : Type} (m : M A) : quiet (client m).
Proof.
  intros st. exists []. split; [| reflexivity].
  unfold grows, client. destruct (m (snd st)). simpl. now rewrite List.app_nil_r.
Qed.

Lemma quiet_execute (w : World) (provider : value) (fn : M value) :
  quiet (execute w provider fn).
Proof.
  intros st. unfold execute, grows.
  destruct (breaker_open w provider (fst st) (snd st)).
  - exists []. split; [simpl; now rewrite List.app_nil_r | reflexivity].
  - apply quiet_client.
Qed.

Lemma quiet_metric (name : string) (args : list value) : quiet (metric name args).
Proof. intros st. exists [Metric name args]. split; reflexivity. Qed.

Lemma quiet_primary_step (provider : value) : quiet (step (ExecutePrimary provider)).
Proof. intros st. exists [ExecutePrimary provider]. split; reflexivity. Qed.

Lemma quiet_bind {A B : Type} (m : D A) (f : A -> D B) :
  quiet m -> (forall a, quiet (f a)) -> quiet (m ≫= f).
Proof.
  intros Hm Hf st. destruct (Hm st) as (n1 & G1 & Z1).
  unfold grows, mbind, D_bind in *.
  destruct (m st) as [[a | e |] st1] eqn:E; simpl in G1.
  - destruct (Hf a st1) as (n2 & G2 & Z2). unfold grows in G2.
    exists (n1 ++ n2). split.
    + now rewrite G2, G1, List.app_assoc.
    + rewrite fallbacks_app. lia.
  - exists n1. now split.
  - exists n1. now split.
Qed.

Lemma quiet_attemptOr {A : Type} (m : D A) (h : value -> D A) :
  quiet m -> (forall e, quiet (h e)) -> quiet (attemptOr m h).
Proof.
  intros Hm Hh st. destruct (Hm st) as (n1 & G1 & Z1).
  unfold grows, attemptOr in *.
  destruct (m st) as [[a | e |] st1] eqn:E; simpl in G1.
  - exists n1. now split.
  - destruct (Hh e st1) as (n2 & G2 & Z2). unfold grows in G2.
    exists (n1 ++ n2). split.
    + now rewrite G2, G1, List.app_assoc.
    + rewrite fallbacks_app. lia.
  - exists n1. now split.
Qed.

Lemma quiet_recordUsage (result : value) : quiet (recordUsage result).
Proof.
  unfold recordUsage. apply quiet_bind; [apply quiet_pure |].
  intros json. destruct (truthy _); [apply quiet_metric | apply quiet_ret].
Qed.

Ltac quiet :=
  repeat first
    [ apply quiet_recordUsage | apply quiet_execute | apply quiet_primary_step
    | apply quiet_pure | apply quiet_raise | apply quiet_ret | apply quiet_metric
    | apply quiet_attemptOr; [| intros ?]
    | apply quiet_bind; [| intros ?]
    | match goal with |- quiet (if ?b then _ else _) => destruct b end ].

(** The primary attempt never invokes the fallback provider. *)
Lemma quiet_primaryAttempt (w : World) (body options : value) :
  quiet (primaryAttempt w body options).
Proof. unfold primaryAttempt. quiet. Qed.

(** The [try] and [catch] around the fallback call: one invocation of the
    fallback provider, whatever comes of it. *)
Lemma fallback_block_once {A B : Type} (provider : value)
    (f : unit -> D B) (h : value -> D B) (st : list Step * Log) :
  (forall u, quiet (f u)) -> (forall e, quiet (h e)) ->
  exists new,
    grows (attemptOr (step (ExecuteFallback provider) ≫= f) h) st new /\
    fallbacks new = 1.
Proof.
  intros Hf Hh.
  assert (Hq : quiet (attemptOr (f tt) h)) by (apply quiet_attemptOr; auto).
  destruct (Hq (fst st ++ [ExecuteFallback provider], snd st)) as (n & G & Z).
  exists (ExecuteFallback provider :: n). split.
  - unfold grows in *. unfold attemptOr, mbind, D_bind, step in *. simpl in *.
    rewrite G. now rewrite <- List.app_assoc.
  - unfold fallbacks in *. simpl. now rewrite Z.
Qed.

Lemma categorized_message (err : value) (reason : string) :
  categorizeFailure err = Ok reason -> exists m, get "message" err = Ok m.
Proof.
  destruct err; simpl; try discriminate; eauto.
Qed.

Lemma fallbackCall_once (w : World) (body decision err : value) (reason : string)
    (st : list Step * Log) :
  exists new,
    grows (fallbackCall w body decision err reason) st new /\ fallbacks new = 1.
Proof.
  unfold fallbackCall. cbv zeta.
  apply (fallback_block_once (A := unit)); intros ?; quiet.
Qed.

(** The fallback attempt invokes the fallback provider exactly once when the
    error can be categorized, whatever its category, and not at all when
    categorizing raises. *)
Lemma fallbackAttempt_steps (w : World) (body provider decision err : value)
    (st : list Step * Log) :
  exists new,
    grows (fallbackAttempt w body provider decision err) st new /\
    fallbacks new = match categorizeFailure err with Ok _ => 1 | _ => 0 end.
Proof.
  unfold fallbackAttempt.
  destruct (categorizeFailure err) as [reason | e |] eqn:Hc.
  - destruct (categorized_message _ _ Hc) as [m Hm]. rewrite Hm.
    destruct (fallbackCall_once w body decision err reason
                (fst st ++ [Metric "recordFallbackAttempt"
                              [provider; getFallbackProvider w; VStr reason]],
                 snd st)) as (n & G & Z).
    eexists (_ :: n). split.
    + unfold grows in *. unfold mbind, D_bind, pure, metric, step in *. simpl in *.
      rewrite G. now rewrite <- List.app_assoc.
    + unfold fallbacks in *. simpl. exact Z.
  - exists []. split; [unfold grows; simpl; now rewrite List.app_nil_r | reflexivity].
  - exists []. split; [unfold grows; simpl; now rewrite List.app_nil_r | reflexivity].
Qed.

Lemma onPrimaryFailure_steps (w : World) (body options err : value)
    (st : list Step * Log) :
  exists new,
    grows (onPrimaryFailure w body options err) st new /\
    fallbacks new =
      if shouldFallback w body options
      then match categorizeFailure err with Ok _ => 1 | _ => 0 end
      else 0.
Proof.
  unfold onPrimaryFailure. cbv zeta.
  destruct (shouldFallback w body options); simpl negb; cbv iota.
  - destruct (fallbackAttempt_steps w body (initialProvider w body options)
                (routingDecision (initialProvider w body options) (analyzeComplexity w body))
                err
                (fst st ++ [Metric "recordProviderFailure" [initialProvider w body options]],
                 snd st)) as (n & G & Z).
    eexists (_ :: n). split.
    + unfold grows in *. unfold mbind, D_bind, metric, step in *. simpl in *.
      rewrite G. now rewrite <- List.app_assoc.
    + unfold fallbacks in *. simpl. exact Z.
  - exists [Metric "recordProviderFailure" [initialProvider w body options];
            Metric "recordDatabricksRequest" [VBool false]].
    split; [| reflexivity].
    unfold grows, mbind, D_bind, metric, step, raise. simpl.
    now rewrite <- List.app_assoc.
Qed.

Lemma shouldFallback_conditions (w : World) (body options : value) :
  shouldFallback w body options = true ->
  truthy (preferOllama w) = true /\
  initialProvider w body options = VStr "ollama" /\
  truthy (isFallbackEnabled w) = true /\
  truthy (get_opt "disableFallback" options) = false.
Proof.
  unfold shouldFallback. intros H.
  apply andb_true_iff in H as [H Hd]. apply andb_true_iff in H as [H He].
  apply andb_true_iff in H as [Hp Ho]. apply negb_true_iff in Hd.
  repeat split; try assumption.
  destruct (initialProvider w body options); simpl in Ho; try discriminate.
  apply String.eqb_eq in Ho. now subst.
Qed.

(** C3, as the code has it.  A call of [invokeModel] invokes the fallback
    provider at most once.  It invokes it only when the primary attempt
    raised, the primary provider is ollama, [preferOllama] is set, fallback
    is enabled and the caller did not disable it.  Under these conditions it
    invokes it for every error of the primary attempt that
    [categorizeFailure] gives a category to, whatever the category: the
    category goes to the metrics and gates nothing. *)
Theorem invokeModel_fallback_at_most_once
    (w : World) (body options : value) (steps : list Step) (log : Log) :
  let start :=
    (steps ++ [Metric "recordProviderRouting" [initialProvider w body options]], log) in
  exists new,
    fst (snd (invokeModel w body options (steps, log))) = steps ++ new /\
    fallbacks new <= 1 /\
    (fallbacks new = 1 ->
       (exists err, fst (primaryAttempt w body options start) = Throw err) /\
       truthy (preferOllama w) = true /\
       initialProvider w body options = VStr "ollama" /\
       truthy (isFallbackEnabled w) = true /\
       truthy (get_opt "disableFallback" options) = false) /\
    (forall forced err reason,
       get "forceProvider" options = Ok forced ->
       fst (primaryAttempt w body options start) = Throw err ->
       shouldFallback w body options = true ->
       categorizeFailure err = Ok reason ->
       fallbacks new = 1).
Proof.
  intros start. unfold invokeModel.
  destruct (get "forceProvider" options) as [forced | e |] eqn:Hf.
  2, 3: exists []; unfold mbind, D_bind, pure; simpl; rewrite List.app_nil_r;
        (split; [reflexivity |]); (split; [unfold fallbacks; simpl; lia |]);
        (split; [discriminate | intros ? ? ? ?; discriminate]).
  destruct (quiet_primaryAttempt w body options start) as (n1 & G1 & Z1).
  unfold grows in G1.
  destruct (primaryAttempt w body options start) as [[result | err |] st2] eqn:Hp.
  - exists (Metric "recordProviderRouting" [initialProvider w body options] :: n1).
    unfold mbind, D_bind, pure, metric, step, attemptOr. simpl. fold start. rewrite Hp.
    simpl in G1 |- *. rewrite G1. unfold start. simpl. rewrite <- List.app_assoc.
    split; [reflexivity |].
    assert (Hz : fallbacks (Metric "recordProviderRouting"
                              [initialProvider w body options] :: n1) = 0)
      by (unfold fallbacks in *; simpl; exact Z1).
    rewrite Hz. split; [lia |]. split; [discriminate | intros ? ? ? _ H; discriminate H].
  - destruct (onPrimaryFailure_steps w body options err st2) as (n2 & G2 & Z2).
    unfold grows in G2.
    exists (Metric "recordProviderRouting" [initialProvider w body options] :: n1 ++ n2).
    unfold mbind, D_bind, pure, metric, step, attemptOr. simpl. fold start. rewrite Hp.
    simpl in G1. rewrite G2, G1. unfold start. simpl. rewrite <- !List.app_assoc.
    split; [reflexivity |].
    assert (Hz : fallbacks (Metric "recordProviderRouting"
                              [initialProvider w body options] :: n1 ++ n2)
                 = fallbacks n2).
    { change (fallbacks ([Metric "recordProviderRouting"
                            [initialProvider w body options]] ++ n1 ++ n2) = fallbacks n2).
      rewrite !fallbacks_app. unfold fallbacks at 1. simpl. lia. }
    rewrite Hz, Z2. clear Hz.
    destruct (shouldFallback w body options) eqn:Hs.
    + split; [destruct (categorizeFailure err); lia |].
      split.
      * intros _. split; [now exists err |]. now apply shouldFallback_conditions.
      * intros forced' err' reason _ He _ Hc. simpl in He. injection He as <-.
        now rewrite Hc.
    + split; [lia |]. split; [discriminate | intros ? ? ? _ _ H; discriminate H].
  - exists (Metric "recordProviderRouting" [initialProvider w body options] :: n1).
    unfold mbind, D_bind, pure, metric, step, attemptOr. simpl. fold start. rewrite Hp.
    simpl in G1 |- *. rewrite G1. unfold start. simpl. rewrite <- List.app_assoc.
    split; [reflexivity |].
    assert (Hz : fallbacks (Metric "recordProviderRouting"
                              [initialProvider w body options] :: n1) = 0)
      by (unfold fallbacks in *; simpl; exact Z1).
    rewrite Hz. split; [lia |]. split; [discriminate | intros ? ? ? _ H; discriminate H].
Qed.

(** *** The failure classes of the spec *)

(** The error kinds of the spec's error-handling table, and its
    fallback-eligible column. *)
Inductive FailureKind : Type :=
| transport | timeout | rate_limited | server_error | circuit_breaker_open
| invalid_request | tool_incompatible | no_choices | config_error.

Definition fallback_eligible (k : FailureKind) : bool :=
  match k with
  | transport | timeout | rate_limited | server_error
  | circuit_breaker_open | tool_incompatible => true
  | invalid_request | no_choices | config_error => false
  end.

(** The messages of the errors the provider clients of this file raise for
    a missing endpoint or key. *)
Definition configurationErrors : list string :=
  [ "Databricks configuration is missing required URL.";
    "Azure Anthropic endpoint is not configured.";
    "Ollama endpoint is not configured.";
    "OpenRouter endpoint or API key is not configured.";
    "Azure OpenAI endpoint or API key is not configured.";
    "OpenAI API key is not configured.";
    "llama.cpp endpoint is not configured.";
    "LM Studio endpoint is not configured." ].

Definition status_between (lo hi : Z) (status : value) : bool :=
  match status with
  | VNum q => Qle_bool (inject_Z lo) q && Qle_bool q (inject_Z hi)
  | _ => false
  end.

(** The kind of an error, by the table's own descriptions: config is a
    missing endpoint or key, circuit_breaker_open the breaker's error,
    rate_limited a 429, invalid_request another 4xx, server_error a 5xx,
    timeout an abort or ETIMEDOUT, transport a refused or reset
    connection. *)
Definition spec_failure_kind (err : value) : option FailureKind :=
  let code := get_opt "code" err in
  let status := get_opt "status" err in
  if match get_opt "message" err with
     | VStr m => existsb (String.eqb m) configurationErrors
     | _ => false
     end then Some config_error
  else if is_str "circuit_breaker_open" code then Some circuit_breaker_open
  else if strict_eq status (num 429) then Some rate_limited
  else if status_between 400 499 status then Some invalid_request
  else if status_between 500 599 status then Some server_error
  else if is_str "AbortError" (get_opt "name" err) || is_str "ETIMEDOUT" code
  then Some timeout
  else if is_str "ECONNREFUSED" code || is_str "ECONNRESET" code then Some transport
  else None.

(** A gateway whose primary provider is Ollama, with fallback to Databricks
    enabled, and whose Ollama endpoint is not configured. *)
Definition unconfiguredOllama : value :=
  VObj [ ("modelProvider", VObj [("preferOllama", VBool true)]);
         ("ollama", VObj [("model", VStr "qwen2.5-coder")]) ].

Definition cloudAnswer : value :=
  VObj [ ("ok", VBool true); ("status", num 200);
         ("json", VObj [("content", VArr [])]) ].

Definition cloudUp : Backend -> value -> M value := fun _ _ => mret cloudAnswer.

Definition fallbackWorld : World :=
  testWorld unconfiguredOllama offline (VStr "ollama") (VBool true)
            (VStr "databricks") cloudUp.

(** C3 as the claim states it fails in that gateway: the primary attempt
    raises the configuration error of [invokeOllama], whose class the spec's
    table marks as not fallback-eligible, and the fallback provider is
    invoked all the same (and answers). *)
Lemma invokeModel_falls_back_on_config_error :
  fst (primaryAttempt fallbackWorld helloRequestBody (VObj [])
         ([Metric "recordProviderRouting" [VStr "ollama"]], []))
  = Throw (mkError "Ollama endpoint is not configured.") /\
  spec_failure_kind (mkError "Ollama endpoint is not configured.") = Some config_error /\
  fallback_eligible config_error = false /\
  categorizeFailure (mkError "Ollama endpoint is not configured.")
  = Ok "service_unavailable" /\
  fst (snd (invokeModel fallbackWorld helloRequestBody (VObj []) ([], [])))
  = [ Metric "recordProviderRouting" [VStr "ollama"];
      ExecutePrimary (VStr "ollama");
      Metric "recordProviderFailure" [VStr "ollama"];
      Metric "recordFallbackAttempt"
        [VStr "ollama"; VStr "databricks"; VStr "service_unavailable"];
      ExecuteFallback (VStr "databricks");
      Metric "recordFallbackSuccess" [];
      Metric "recordDatabricksRequest" [VBool true] ] /\
  fallbacks (fst (snd (invokeModel fallbackWorld helloRequestBody (VObj []) ([], [])))) = 1 /\
  (fst (invokeModel fallbackWorld helloRequestBody (VObj []) ([], []))
   ≫= get "actualProvider") = Ok (VStr "databricks").
Proof. repeat split; vm_compute; reflexivity. Qed.

End DispatchFacts.

(** ** src/clients/databricks.js: the cloud clients and the failure categories *)

Module ClientFacts.
Import Databricks HttpFacts BedrockFacts.

(** Whether the configuration has what the client of a backend asks for
    before anything else. *)
Definition setting (w : World) (section field : string) : bool :=
  truthy (get_opt field (get_opt section (config w))).

Definition configured (w : World) (b : Backend) : bool :=
  match b with
  | AzureOpenAI => setting w "azureOpenAI" "endpoint" && setting w "azureOpenAI" "apiKey"
  | AzureAnthropic => setting w "azureAnthropic" "endpoint"
  | Ollama => setting w "ollama" "endpoint"
  | OpenRouter => setting w "openrouter" "endpoint" && setting w "openrouter" "apiKey"
  | OpenAI => setting w "openai" "apiKey"
  | LlamaCpp => setting w "llamacpp" "endpoint"
  | LMStudio => setting w "lmstudio" "endpoint"
  | Bedrock => setting w "bedrock" "apiKey"
  | DatabricksBackend => setting w "databricks" "url"
  end.

(** The error each client raises then. *)
Definition configurationError (b : Backend) : value :=
  match b with
  | AzureOpenAI => mkError "Azure OpenAI endpoint or API key is not configured."
  | AzureAnthropic => mkError "Azure Anthropic endpoint is not configured."
  | Ollama => mkError "Ollama endpoint is not configured."
  | OpenRouter => mkError "OpenRouter endpoint or API key is not configured."
  | OpenAI => mkError "OpenAI API key is not configured."
  | LlamaCpp => mkError "llama.cpp endpoint is not configured."
  | LMStudio => mkError "LM Studio endpoint is not configured."
  | Bedrock => bedrockKeyMissing
  | DatabricksBackend => mkError "Databricks configuration is missing required URL."
  end.

Lemma negb_and (a b : bool) : a && b = false -> negb a || negb b = true.
Proof. now destruct a, b. Qed.

(** A client whose endpoint or key is missing raises its configuration
    error at once: nothing is posted, the retry wrapper is not entered, and
    the request body is not even looked at. *)
Theorem unconfigured_client_fails_before_any_request
    (w : World) (b : Backend) (body : value) (log : Log) :
  configured w b = false ->
  invokeClient w b body log = (Throw (configurationError b), log).
Proof.
  destruct b; unfold configured, setting; simpl; intros H.
  - unfold invokeAzureOpenAI. now rewrite (negb_and _ _ H).
  - unfold invokeAzureAnthropic. now rewrite H.
  - unfold invokeOllama. now rewrite H.
  - unfold invokeOpenRouter. now rewrite (negb_and _ _ H).
  - unfold invokeOpenAI. now rewrite H.
  - unfold invokeLlamaCpp. now rewrite H.
  - unfold invokeLMStudio. now rewrite H.
  - unfold invokeBedrock. now rewrite H.
  - unfold invokeDatabricks. now rewrite H.
Qed.

(** A gateway with an OpenRouter endpoint but no key. *)
Definition keylessOpenRouter : World :=
  testWorld (VObj [("openrouter", VObj [("endpoint", VStr "https://openrouter.ai/api/v1/chat/completions")])])
            offline (VStr "openrouter") (VBool false) (VStr "databricks") cloudDown.

Lemma unconfigured_client_witness :
  configured keylessOpenRouter OpenRouter = false /\
  invokeClient keylessOpenRouter OpenRouter helloRequest []
  = (Throw (mkError "OpenRouter endpoint or API key is not configured."), []).
Proof.
  split; [reflexivity |].
  apply (unconfigured_client_fails_before_any_request keylessOpenRouter OpenRouter).
  reflexivity.
Defined.

(** *** The body posted to Azure OpenAI *)

Lemma assoc_remove_same (k : string) (fields : list (string * value)) :
  assoc k (remove k fields) = None.
Proof.
  induction fields as [| [k' v'] rest IH]; simpl; [reflexivity |].
  destruct (String.eqb k' k) eqn:E; simpl; [exact IH |].
  rewrite String.eqb_sym, E. exact IH.
Qed.

Lemma assoc_remove_other (k k' : string) (fields : list (string * value)) :
  String.eqb k k' = false -> assoc k (remove k' fields) = assoc k fields.
Proof.
  intros Hk. induction fields as [| [k0 v0] rest IH]; simpl; [reflexivity |].
  destruct (String.eqb k0 k') eqn:E; simpl.
  - apply String.eqb_eq in E. subst k0. now rewrite Hk.
  - now rewrite IH.
Qed.

Lemma assoc_put_same (k : string) (v : value) (fields : list (string * value)) :
  assoc k (put k v fields) = Some v.
Proof.
  induction fields as [| [k0 v0] rest IH]; simpl.
  - now rewrite String.eqb_refl.
  - destruct (String.eqb k k0) eqn:E; simpl.
    + now rewrite String.eqb_refl.
    + now rewrite E.
Qed.







Definition greedyAzureBody : value :=
  VObj [ ("messages", VArr [VObj [("role", VStr "user"); ("content", VStr "hello")]]);
         ("temperature", VNum (3 # 10)%Q);
         ("max_tokens", num 16384);
         ("top_p", num 1);
         ("stream", VBool false);
         ("model", VStr "gpt-4o") ].


End ClientFacts.

(** ** src/clients/databricks.js: what [invokeModel] hands back *)

Module RoutingFacts.
Import Databricks HttpFacts BedrockFacts DispatchFacts ClientFacts.

(** *** The failure categories *)

Definition categories : list string :=
  [ "circuit_breaker"; "timeout"; "service_unavailable"; "tool_incompatible";
    "rate_limited"; "error" ].

(** An error as [new Error(..)] and the HTTP layer make them: an object
    whose message, if it has one, is a string. *)
Definition errorLike (err : value) : bool :=
  match err with
  | VObj _ => match get_opt "message" err with
              | VUndefined | VNull | VStr _ => true
              | _ => false
              end
  | _ => false
  end.

Lemma categorizeFailure_category (err : value) (c : string) :
  categorizeFailure err = Ok c -> In c categories.
Proof.
  unfold categorizeFailure, categories. intros H.
  bind_inv H name. bind_inv H code.
  destruct (_ || _); [injection H as <-; simpl; tauto |].
  destruct (_ || _); [injection H as <-; simpl; tauto |].
  bind_inv H message. bind_inv H notConfigured. bind_inv H notAvailable.
  destruct (_ || _); [injection H as <-; simpl; tauto |].
  bind_inv H tool. bind_inv H function.
  destruct function; [injection H as <-; simpl; tauto |].
  bind_inv H status.
  destruct (_ || _); injection H as <-; simpl; tauto.
Qed.

Lemma messageIncludes_errorLike (needle : string) (message : value) :
  match message with VUndefined | VNull | VStr _ => True | _ => False end ->
  exists b, messageIncludes needle message = Ok b.
Proof. destruct message; simpl; intros H; try contradiction; eauto. Qed.

Lemma categorizeFailure_returns (err : value) :
  errorLike err = true -> exists c, categorizeFailure err = Ok c.
Proof.
  unfold errorLike. destruct err as [| | | | | | fields |]; try discriminate.
  intros H. unfold categorizeFailure.
  change (get "name" (VObj fields)) with (Ok (get_opt "name" (VObj fields))).
  change (get "code" (VObj fields)) with (Ok (get_opt "code" (VObj fields))).
  change (get "message" (VObj fields)) with (Ok (get_opt "message" (VObj fields))).
  change (get "status" (VObj fields)) with (Ok (get_opt "status" (VObj fields))).
  rewrite !bind_ok.
  destruct (_ || _); [eauto |]. destruct (_ || _); [eauto |]. rewrite ?bind_ok.
  assert (Hm : match get_opt "message" (VObj fields) with
               | VUndefined | VNull | VStr _ => True | _ => False end)
    by (destruct (get_opt "message" (VObj fields)); trivial; discriminate).
  destruct (messageIncludes_errorLike "not configured" _ Hm) as [b1 ->].
  destruct (messageIncludes_errorLike "not available" _ Hm) as [b2 ->].
  destruct (messageIncludes_errorLike "tool" _ Hm) as [b3 ->].
  destruct (messageIncludes_errorLike "function" _ Hm) as [b4 ->].
  rewrite ?bind_ok.
  assert (Hna : exists b, (if b1 then Ok true else Ok b2) = (Ok b : result bool))
    by (destruct b1; eauto).
  destruct Hna as [b ->]. rewrite ?bind_ok.
  destruct (_ || _); [eauto |]. rewrite ?bind_ok.
  assert (Hf : exists b, (if b3 then Ok true else Ok b4) = (Ok b : result bool))
    by (destruct b3; eauto).
  destruct Hf as [b' ->]. rewrite ?bind_ok.
  destruct b'; [eauto |]. rewrite ?bind_ok. destruct (_ || _); eauto.
Qed.

(** [categorizeFailure] gives every error-like value one of its six
    categories, and never raises on one; whatever it is given, a category
    it returns is one of the six. *)
Theorem categorizeFailure_one_of_six (err : value) :
  (forall c, categorizeFailure err = Ok c -> In c categories) /\
  (errorLike err = true -> exists c, categorizeFailure err = Ok c /\ In c categories).
Proof.
  split; [apply categorizeFailure_category |].
  intros H. destruct (categorizeFailure_returns err H) as [c Hc].
  exists c. split; [exact Hc | exact (categorizeFailure_category _ _ Hc)].
Qed.

(** *** The two if-chains *)

Definition servedByDatabricksOnFallback : list string := ["ollama"; "lmstudio"; "bedrock"].

(** The fallback attempt runs the same client as a primary attempt would
    for the same provider name, except for ollama, lmstudio and bedrock:
    the fallback chain has no branch for them, so a fallback provider of
    one of these names is served by the Databricks client. *)
Theorem fallbackBackend_differs_for_three_names (provider : value) :
  (fallbackBackend provider = primaryBackend provider /\
   forall name, In name servedByDatabricksOnFallback -> provider <> VStr name) \/
  (fallbackBackend provider = DatabricksBackend /\
   primaryBackend provider <> DatabricksBackend /\
   exists name, In name servedByDatabricksOnFallback /\ provider = VStr name).
Proof.
  unfold fallbackBackend, primaryBackend, servedByDatabricksOnFallback.
  destruct provider as [| | | | s | | |];
    try (left; split; [reflexivity | intros ? _; discriminate]).
  simpl is_str.
  destruct (String.eqb s "azure-openai") eqn:E1;
    [left; apply String.eqb_eq in E1; subst s; split;
       [reflexivity | intros name [<- | [<- | [<- | []]]]; discriminate] |].
  destruct (String.eqb s "azure-anthropic") eqn:E2;
    [left; apply String.eqb_eq in E2; subst s; split;
       [reflexivity | intros name [<- | [<- | [<- | []]]]; discriminate] |].
  destruct (String.eqb s "ollama") eqn:E3;
    [right; apply String.eqb_eq in E3; subst s; simpl; split;
       [reflexivity | split; [discriminate | exists "ollama"; simpl; tauto]] |].
  destruct (String.eqb s "openrouter") eqn:E4;
    [left; apply String.eqb_eq in E4; subst s; split;
       [reflexivity | intros name [<- | [<- | [<- | []]]]; discriminate] |].
  destruct (String.eqb s "openai") eqn:E5;
    [left; apply String.eqb_eq in E5; subst s; split;
       [reflexivity | intros name [<- | [<- | [<- | []]]]; discriminate] |].
  destruct (String.eqb s "llamacpp") eqn:E6;
    [left; apply String.eqb_eq in E6; subst s; split;
       [reflexivity | intros name [<- | [<- | [<- | []]]]; discriminate] |].
  destruct (String.eqb s "lmstudio") eqn:E7;
    [right; apply String.eqb_eq in E7; subst s; simpl; split;
       [reflexivity | split; [discriminate | exists "lmstudio"; simpl; tauto]] |].
  destruct (String.eqb s "bedrock") eqn:E8;
    [right; apply String.eqb_eq in E8; subst s; simpl; split;
       [reflexivity | split; [discriminate | exists "bedrock"; simpl; tauto]] |].
  left. split; [reflexivity |].
  intros name [<- | [<- | [<- | []]]] H; injection H as ->; discriminate.
Qed.

(** *** The provider named in the result *)

(** Every value [m] returns satisfies [Q]. *)
Definition ensures {A : Type} (m : D A) (Q : A -> Prop) : Prop :=
  forall st a st', m st = (Ok a, st') -> Q a.

Lemma ensures_ret {A : Type} (a : A) (Q : A -> Prop) : Q a -> ensures (mret a : D A) Q.
Proof. intros H st a' st' E. injection E as <- _. exact H. Qed.

Lemma ensures_raise {A : Type} (e : value) (Q : A -> Prop) : ensures (raise e : D A) Q.
Proof. intros st a st' E. discriminate E. Qed.

Lemma ensures_bind {A B : Type} (m : D A) (f : A -> D B) (Q : B -> Prop) :
  (forall a, ensures (f a) Q) -> ensures (m ≫= f) Q.
Proof.
  intros Hf st b st' E. unfold mbind, D_bind in E.
  destruct (m st) as [[a | e |] st1]; try discriminate E.
  exact (Hf a st1 b st' E).
Qed.

Lemma ensures_attemptOr {A : Type} (m : D A) (h : value -> D A) (Q : A -> Prop) :
  ensures m Q -> (forall e, ensures (h e) Q) -> ensures (attemptOr m h) Q.
Proof.
  intros Hm Hh st a st' E. unfold attemptOr in E.
  destruct (m st) as [[a0 | e |] st1] eqn:Em.
  - injection E as <- <-. exact (Hm st a0 st1 Em).
  - exact (Hh e st1 a st' E).
  - discriminate E.
Qed.

Lemma get_opt_put_same (k : string) (v : value) (fields : list (string * value)) :
  get_opt k (VObj (put k v fields)) = v.
Proof. unfold get_opt. simpl. now rewrite assoc_put_same. Qed.

Lemma get_opt_put_other (k k' : string) (v : value) (fields : list (string * value)) :
  String.eqb k k' = false ->
  get_opt k (VObj (put k' v fields)) = get_opt k (VObj fields).
Proof. intros H. unfold get_opt. simpl. now rewrite assoc_put_other. Qed.

(** What the result says of the provider that answered. *)
Definition namesPrimary (w : World) (body options r : value) : Prop :=
  get_opt "actualProvider" r = initialProvider w body options /\
  get_opt "provider" (get_opt "routingDecision" r) = initialProvider w body options /\
  get_opt "fallbackReason" (get_opt "routingDecision" r) = VUndefined.

Definition namesFallback (w : World) (body options r : value) : Prop :=
  shouldFallback w body options = true /\
  get_opt "actualProvider" r = getFallbackProvider w /\
  get_opt "provider" (get_opt "routingDecision" r) = getFallbackProvider w /\
  get_opt "method" (get_opt "routingDecision" r) = VStr "fallback" /\
  exists reason, In reason categories /\
    get_opt "fallbackReason" (get_opt "routingDecision" r) = VStr reason.

Lemma primaryAttempt_names (w : World) (body options : value) :
  ensures (primaryAttempt w body options) (namesPrimary w body options).
Proof.
  unfold primaryAttempt. cbv zeta.
  repeat (apply ensures_bind; intros ?).
  apply ensures_ret. unfold namesPrimary.
  rewrite get_opt_put_other by reflexivity.
  rewrite !get_opt_put_same. repeat split.
Qed.

Lemma fallbackCall_names (w : World) (body options err : value) (reason : string) :
  shouldFallback w body options = true ->
  In reason categories ->
  ensures (fallbackCall w body
             (routingDecision (initialProvider w body options) (analyzeComplexity w body))
             err reason)
          (namesFallback w body options).
Proof.
  intros Hs Hr. unfold fallbackCall. cbv zeta.
  apply ensures_attemptOr.
  - repeat (apply ensures_bind; intros ?).
    apply ensures_ret. unfold namesFallback.
    rewrite get_opt_put_other by reflexivity.
    rewrite !get_opt_put_same.
    rewrite (get_opt_put_other "provider" "fallbackReason") by reflexivity.
    rewrite (get_opt_put_other "provider" "method") by reflexivity.
    rewrite (get_opt_put_other "method" "fallbackReason") by reflexivity.
    rewrite !get_opt_put_same.
    repeat split; try assumption. now exists reason.
  - intros e. repeat (apply ensures_bind; intros ?). apply ensures_raise.
Qed.

Lemma onPrimaryFailure_names (w : World) (body options err : value) :
  ensures (onPrimaryFailure w body options err) (namesFallback w body options).
Proof.
  unfold onPrimaryFailure. cbv zeta.
  apply ensures_bind; intros _.
  destruct (shouldFallback w body options) eqn:Hs; simpl negb; cbv iota.
  - unfold fallbackAttempt.
    intros st a st' E. unfold mbind at 1, D_bind at 1, pure at 1 in E.
    destruct (categorizeFailure err) as [reason | e |] eqn:Hc; try discriminate E.
    revert st a st' E.
    repeat (apply ensures_bind; intros ?).
    apply fallbackCall_names; [exact Hs |].
    exact (categorizeFailure_category _ _ Hc).
  - apply ensures_bind; intros _. apply ensures_raise.
Qed.

(** A result of [invokeModel] names the provider the dispatcher chose,
    whatever the client's own answer said: the initial provider in
    [actualProvider] and [routingDecision.provider] when the primary
    attempt answered; else the fallback provider in both, with
    [routingDecision.method] set to fallback and [fallbackReason] to one of
    the six failure categories, which happens only when fallback applies. *)
Theorem invokeModel_result_names_the_provider
    (w : World) (body options r : value) (st st' : list Step * Log) :
  invokeModel w body options st = (Ok r, st') ->
  namesPrimary w body options r \/ namesFallback w body options r.
Proof.
  revert st r st'.
  change (ensures (invokeModel w body options)
            (fun r => namesPrimary w body options r \/ namesFallback w body options r)).
  unfold invokeModel.
  apply ensures_bind; intros _. apply ensures_bind; intros _.
  apply ensures_attemptOr.
  - intros st r st' E. left. exact (primaryAttempt_names w body options st r st' E).
  - intros e st r st' E. right. exact (onPrimaryFailure_names w body options e st r st' E).
Qed.

(** A gateway that prefers Ollama, whose Ollama endpoint is set but
    unreachable, with fallback to OpenRouter, which answers. *)
Definition ollamaDown : World :=
  testWorld (VObj [ ("modelProvider", VObj [("preferOllama", VBool true)]);
                    ("ollama", VObj [("endpoint", VStr "http://localhost:11434")]) ])
            offline (VStr "ollama") (VBool true) (VStr "openrouter") cloudUp.

Lemma invokeModel_result_names_witness :
  exists r st,
    invokeModel ollamaDown helloRequestBody (VObj []) ([], []) = (Ok r, st) /\
    get_opt "actualProvider" r = VStr "openrouter" /\
    get_opt "fallbackReason" (get_opt "routingDecision" r) = VStr "service_unavailable".
Proof.
  eexists. eexists. split; [vm_compute; reflexivity |].
  destruct (invokeModel_result_names_the_provider ollamaDown helloRequestBody (VObj [])
              _ ([], []) _ eq_refl) as [(H & _) | (_ & _ & _ & _ & _)].
  - vm_compute in H. discriminate H.
  - split; reflexivity.
Defined.

End RoutingFacts.

(** ** src/clients/databricks.js: what the clients post *)

Module PostedFacts.
Import Databricks HttpFacts LocalFacts BedrockFacts ClientFacts.

(** *** The retry wrapper and the network

    The contract of ./retry, which is not among the sources, as far as the
    network goes: [withRetry(fn, options)] calls [fn] one or more times,
    one call after the other, and touches the network in no other way. *)
Inductive Runs (fn : M value) : Log -> Log -> Prop :=
| Runs_once (log : Log) : Runs fn log (snd (fn log))
| Runs_again (log log' : Log) : Runs fn (snd (fn log)) log' -> Runs fn log log'.

Definition retries (w : World) : Prop :=
  forall fn options log, Runs fn log (snd (withRetry w fn options log)).

Lemma singleAttempt_retries (cfg : value) (net : Log -> string -> value -> FetchOutcome)
    (provider fallbackEnabled fallbackProvider : value)
    (cloud : Backend -> value -> M value) :
  retries (testWorld cfg net provider fallbackEnabled fallbackProvider cloud).
Proof. intros fn options log. apply Runs_once. Qed.

Lemma attempt_log (w : World) (url : string) (headers body : value) (log : Log) :
  snd (attempt w url headers body log) = log ++ [EvPost url headers body].
Proof.
  unfold attempt, fetch, mbind, M_bind, mret, M_ret, lift.
  destruct (network w log url body) as [e | r]; [reflexivity |].
  destruct (resp_text r); reflexivity.
Qed.

Lemma Runs_attempt (w : World) (url : string) (headers body : value) (log log' : Log) :
  Runs (attempt w url headers body) log log' ->
  exists n, log' = log ++ repeat (EvPost url headers body) (S n).
Proof.
  induction 1 as [log | log log' _ [n IH]].
  - exists 0. apply attempt_log.
  - exists (S n). rewrite IH, attempt_log, <- List.app_assoc. reflexivity.
Qed.

(** What a call of [performJsonRequest] adds to the log: the one POST of
    the streaming branch, or the entry into the retry wrapper followed by
    one POST for each attempt; nothing, when reading [body.stream]
    raises. *)
Definition Requested (w : World) (url : string) (headers body : value)
    (new : list Event) : Prop :=
  match get "stream" body with
  | Ok stream =>
      if strict_eq stream (VBool true) then new = [EvPost url headers body]
      else exists n,
             new = EvWithRetry (retryOptions w) :: repeat (EvPost url headers body) (S n)
  | _ => new = []
  end.

Lemma performJsonRequest_requested (w : World) (url : string) (headers body : value)
    (log : Log) :
  retries w ->
  exists new,
    snd (performJsonRequest w url headers body log) = log ++ new /\
    Requested w url headers body new /\
    (forall r, fst (performJsonRequest w url headers body log) = Ok r -> new <> []).
Proof.
  intros Hretry. unfold performJsonRequest, Requested.
  unfold mbind at 1, M_bind at 1, lift at 1.
  destruct (get "stream" body) as [stream | e |].
  - destruct (strict_eq stream (VBool true)).
    + exists [EvPost url headers body]. rewrite streamingRequest_log.
      repeat split. discriminate.
    + unfold mbind, M_bind, emit.
      destruct (Runs_attempt w url headers body _ _
                  (Hretry (attempt w url headers body) (retryOptions w)
                          (log ++ [EvWithRetry (retryOptions w)]))) as [n Hn].
      exists (EvWithRetry (retryOptions w) :: repeat (EvPost url headers body) (S n)).
      rewrite Hn, <- List.app_assoc. repeat split; [now exists n | discriminate].
  - exists []. rewrite List.app_nil_r. repeat split. discriminate.
  - exists []. rewrite List.app_nil_r. repeat split. discriminate.
Qed.

Lemma Requested_post (w : World) (url url' : string) (headers headers' body body' : value)
    (new : list Event) :
  Requested w url headers body new ->
  In (EvPost url' headers' body') new ->
  url' = url /\ headers' = headers /\ body' = body.
Proof.
  unfold Requested. intros H Hin.
  destruct (get "stream" body) as [stream | |]; try (subst new; contradiction).
  destruct (strict_eq stream (VBool true)).
  - subst new. destruct Hin as [[= -> -> ->] | []]. auto.
  - destruct H as [n ->]. destruct Hin as [Hin | Hin]; [discriminate |].
    apply repeat_spec in Hin. injection Hin as -> -> ->. auto.
Qed.

Lemma Requested_some (w : World) (url : string) (headers body : value)
    (new : list Event) :
  Requested w url headers body new -> new <> [] ->
  In (EvPost url headers body) new.
Proof.
  unfold Requested. intros H Hne.
  destruct (get "stream" body) as [stream | |]; try contradiction.
  destruct (strict_eq stream (VBool true)).
  - subst new. now left.
  - destruct H as [n ->]. right. now left.
Qed.

(** A client run: it adds nothing to the log and does not return, or it
    makes the request [(url, headers, body)], which satisfies [P]. *)
Definition Run (w : World) (m : M value) (log : Log)
    (P : string -> value -> value -> Prop) (new : list Event) : Prop :=
  snd (m log) = log ++ new /\
  ((new = [] /\ forall r, fst (m log) <> Ok r) \/
   (exists url headers body,
      P url headers body /\ Requested w url headers body new /\
      (forall r, fst (m log) = Ok r -> new <> []))).

Lemma Run_stopped (w : World) (m : M value) (log : Log)
    (P : string -> value -> value -> Prop) :
  snd (m log) = log -> (forall r, fst (m log) <> Ok r) -> Run w m log P [].
Proof. intros Hl Hf. split; [now rewrite List.app_nil_r | left; now split]. Qed.

Lemma Run_request (w : World) (log : Log) (P : string -> value -> value -> Prop)
    (url : string) (headers body : value) :
  retries w -> P url headers body ->
  exists new, Run w (performJsonRequest w url headers body) log P new.
Proof.
  intros Hretry HP.
  destruct (performJsonRequest_requested w url headers body log Hretry)
    as (new & Hlog & Hreq & Hret).
  exists new. split; [exact Hlog |]. right. now exists url, headers, body.
Qed.

(** Every POST of a run carries the request, and a run that returns has
    posted it. *)
Lemma Run_posts (w : World) (m : M value) (log : Log)
    (P : string -> value -> value -> Prop) (new : list Event) :
  Run w m log P new ->
  (forall url headers body, In (EvPost url headers body) new -> P url headers body) /\
  (forall r, fst (m log) = Ok r -> exists url headers body, In (EvPost url headers body) new).
Proof.
  intros [_ [[-> Hstop] | (url & headers & body & HP & Hreq & Hret)]].
  - split; [intros ? ? ? [] | intros r Hr; now destruct (Hstop r)].
  - split.
    + intros url' headers' body' Hin.
      destruct (Requested_post _ _ _ _ _ _ _ _ Hreq Hin) as (-> & -> & ->). exact HP.
    + intros r Hr. exists url, headers, body.
      exact (Requested_some _ _ _ _ _ Hreq (Hret r Hr)).
Qed.

Ltac stopped := eexists; apply Run_stopped; [reflexivity | discriminate].

(** *** The local clients *)

Lemma invokeOllama_run (w : World) (body : value) (log : Log) :
  retries w ->
  exists new,
    Run w (invokeOllama w body) log
        (fun url headers posted =>
           ollamaBody w body = Ok posted /\ headers = jsonHeaders) new.
Proof.
  intros Hretry. unfold invokeOllama. cbv zeta.
  destruct (negb (truthy _)); [stopped |].
  unfold mbind at 1, M_bind at 1, lift at 1.
  destruct (to_string _) as [base | e |]; [| stopped | stopped].
  unfold mbind at 1, M_bind at 1, lift at 1.
  destruct (ollamaBody w body) as [ollama | e |]; [| stopped | stopped].
  now apply Run_request.
Qed.

Lemma invokeLlamaCpp_run (w : World) (body : value) (log : Log) :
  retries w ->
  exists new,
    Run w (invokeLlamaCpp w body) log
        (fun url headers posted => llamacppBody w body = Ok posted) new.
Proof.
  intros Hretry. unfold invokeLlamaCpp. cbv zeta.
  destruct (negb (truthy _)); [stopped |].
  unfold mbind at 1, M_bind at 1, lift at 1.
  destruct (to_string _) as [base | e |]; [| stopped | stopped].
  unfold mbind at 1, M_bind at 1, lift at 1.
  match goal with
  | |- context [match ?r with Ok _ => _ | Throw _ => _ | Unmodelled => _ end] =>
      destruct r as [headers | e |]; [| stopped | stopped]
  end.
  unfold mbind at 1, M_bind at 1, lift at 1.
  destruct (llamacppBody w body) as [llama | e |]; [| stopped | stopped].
  now apply Run_request.
Qed.

(** The messages of a posted body are what the walk of the spec emits
    from the translated messages, and no two neighbours have the same
    role. *)
Definition emits (translated : list value) (posted : value) : Prop :=
  exists out,
    get "messages" posted = Ok (VArr out) /\
    Compacted VNull translated out /\
    no_consecutive_roles out /\
    (forall i x y rx ry, out !! i = Some x -> out !! S i = Some y ->
       role x = VStr rx -> role y = VStr ry -> rx <> ry).

(** C4.  Whatever [invokeOllama] and [invokeLlamaCpp] post, for every
    request and every configuration: each POST they issue carries the body
    built from the request, whose messages are what the walk of the spec
    emits from the translated messages (a message whose role equals the
    role of the message emitted last is dropped), so that no two
    consecutive messages of a posted body have the same role; and a client
    that returns an answer has posted such a body. *)
Theorem local_clients_post_no_consecutive_roles (w : World) (body : value) (log : Log) :
  retries w ->
  (exists new,
     snd (invokeOllama w body log) = log ++ new /\
     (forall url headers posted, In (EvPost url headers posted) new ->
        ollamaBody w body = Ok posted /\
        exists messages translated,
          get "messages" body ≫= (fun m => as_array (JS.or m (VArr []))) = Ok messages /\
          mapR ollamaMessage messages = Ok translated /\
          emits translated posted) /\
     (forall r, fst (invokeOllama w body log) = Ok r ->
        exists url headers posted, In (EvPost url headers posted) new)) /\
  (exists new,
     snd (invokeLlamaCpp w body log) = log ++ new /\
     (forall url headers posted, In (EvPost url headers posted) new ->
        llamacppBody w body = Ok posted /\
        exists translated,
          llamacppMessages w body = Ok translated /\
          emits translated posted) /\
     (forall r, fst (invokeLlamaCpp w body log) = Ok r ->
        exists url headers posted, In (EvPost url headers posted) new)).
Proof.
  intros Hretry.
  destruct (local_messages_no_consecutive_roles w body) as [Hollama Hllama].
  split.
  - destruct (invokeOllama_run w body log Hretry) as [new Hrun].
    destruct (Run_posts _ _ _ _ _ Hrun) as [Hall Hsome].
    exists new. split; [apply Hrun |]. split; [| exact Hsome].
    intros url headers posted Hin. destruct (Hall _ _ _ Hin) as [Hb _].
    split; [exact Hb |].
    destruct (Hollama posted Hb) as (messages & translated & out & H1 & H2 & H3 & H4 & H5 & H6).
    exists messages, translated. repeat split; try assumption.
    exists out. repeat split; assumption.
  - destruct (invokeLlamaCpp_run w body log Hretry) as [new Hrun].
    destruct (Run_posts _ _ _ _ _ Hrun) as [Hall Hsome].
    exists new. split; [apply Hrun |]. split; [| exact Hsome].
    intros url headers posted Hin. pose proof (Hall _ _ _ Hin) as Hb.
    split; [exact Hb |].
    destruct (Hllama posted Hb) as (translated & out & H1 & H2 & H3 & H4 & H5).
    exists translated. split; [assumption |].
    exists out. repeat split; assumption.
Qed.

(** A gateway with both local providers, whose servers answer, and a
    conversation with two user messages in a row. *)
Definition localAnswer : value :=
  VObj [("message", VObj [("role", VStr "assistant"); ("content", VStr "ok")])].

Definition localWorld : World :=
  testWorld (VObj [ ("ollama", VObj [ ("endpoint", VStr "http://localhost:11434");
                                      ("model", VStr "qwen") ]);
                    ("llamacpp", VObj [("endpoint", VStr "http://localhost:8080")]) ])
            (answering localAnswer) (VStr "ollama") (VBool false) VUndefined cloudDown.

Definition twoUserMessages : value :=
  VObj [("messages",
         VArr [userText "a"; userText "b"; assistantText "c"; userText "d"])].

Definition ollamaPosted : value :=
  VObj [ ("model", VStr "qwen");
         ("messages", VArr [userText "a"; assistantText "c"; userText "d"]);
         ("stream", VBool false);
         ("options", VObj [ ("temperature", VNum (7 # 10)%Q);
                            ("num_predict", num 4096);
                            ("top_p", num 1) ]) ].

Lemma local_clients_post_witness :
  retries localWorld /\
  snd (invokeOllama localWorld twoUserMessages [])
  = [ EvWithRetry (VObj [ ("maxRetries", num 3); ("initialDelay", num 1000);
                          ("maxDelay", num 30000) ]);
      EvPost "http://localhost:11434/api/chat" jsonHeaders ollamaPosted ] /\
  no_consecutive_roles [userText "a"; assistantText "c"; userText "d"].
Proof.
  split; [apply singleAttempt_retries |]. split; [vm_compute; reflexivity |].
  destruct (local_clients_post_no_consecutive_roles localWorld twoUserMessages []
              (singleAttempt_retries _ _ _ _ _ _)) as [(new & Hlog & Hall & _) _].
  assert (Hnew : new = [ EvWithRetry (retryOptions localWorld);
                         EvPost "http://localhost:11434/api/chat" jsonHeaders
                                ollamaPosted ]).
  { apply (List.app_inv_head []). rewrite <- Hlog. vm_compute. reflexivity. }
  destruct (Hall "http://localhost:11434/api/chat" jsonHeaders ollamaPosted)
    as (_ & _ & _ & _ & _ & out & Hout & _ & Hno & _).
  { rewrite Hnew. right. now left. }
  injection Hout as <-. exact Hno.
Defined.

(** *** The Bedrock client *)

Lemma Run_after (w : World) (m k : M value) (log : Log)
    (P : string -> value -> value -> Prop) (new : list Event) :
  Run w m log P new ->
  snd (k log) = snd (m log) ->
  (forall r, fst (k log) = Ok r -> exists r', fst (m log) = Ok r') ->
  Run w k log P new.
Proof.
  intros [Hlog Hcases] Hsnd Hfst. split; [now rewrite Hsnd |].
  destruct Hcases as [[-> Hstop] | (url & headers & body & HP & Hreq & Hret)].
  - left. split; [reflexivity |]. intros r Hr.
    destruct (Hfst r Hr) as [r' Hr']. now apply (Hstop r').
  - right. exists url, headers, body. repeat split; try assumption.
    intros r Hr. destruct (Hfst r Hr) as [r' Hr']. now apply (Hret r').
Qed.

(** A computation that leaves the log alone. *)
Definition silent {A : Type} (m : M A) : Prop := forall log, snd (m log) = log.

Lemma silent_lift {A : Type} (r : result A) : silent (lift r).
Proof. intros log. reflexivity. Qed.

Lemma silent_throw {A : Type} (e : value) : silent (throw e : M A).
Proof. intros log. reflexivity. Qed.

Lemma silent_ret {A : Type} (a : A) : silent (mret a : M A).
Proof. intros log. reflexivity. Qed.

Lemma silent_bind {A B : Type} (m : M A) (f : A -> M B) :
  silent m -> (forall a, silent (f a)) -> silent (m ≫= f).
Proof.
  intros Hm Hf log. specialize (Hm log). unfold mbind, M_bind.
  destruct (m log) as [[a | e |] log1]; simpl in *; subst; [apply Hf | |]; reflexivity.
Qed.

Lemma silent_rethrow {A : Type} (e : value) : silent (rethrow e : M A).
Proof. intros log. unfold rethrow. destruct (get "message" e); reflexivity. Qed.

Lemma try_catch_log (m : M value) (k : value -> M value) (log : Log) :
  (forall a, silent (k a)) ->
  snd (try_catch (m ≫= k) rethrow log) = snd (m log).
Proof.
  intros Hk. unfold try_catch, mbind, M_bind.
  destruct (m log) as [[a | e |] log1]; simpl.
  - specialize (Hk a log1). destruct (k a log1) as [[r | e |] log2]; simpl in *;
      try assumption. now rewrite silent_rethrow.
  - apply silent_rethrow.
  - reflexivity.
Qed.

Lemma try_catch_returns (m : M value) (k : value -> M value) (log : Log) (r : value) :
  fst (try_catch (m ≫= k) rethrow log) = Ok r -> exists r', fst (m log) = Ok r'.
Proof.
  unfold try_catch, mbind, M_bind.
  destruct (m log) as [[a | e |] log1]; simpl; [now eexists | |].
  - unfold rethrow, throw. destruct (get "message" e); discriminate.
  - discriminate.
Qed.

Lemma invokeBedrock_run (w : World) (body : value) (log : Log) :
  retries w ->
  exists new,
    Run w (invokeBedrock w body) log
        (fun url headers posted => converseBody w body = Ok posted) new.
Proof.
  intros Hretry. unfold invokeBedrock. cbv zeta.
  destruct (negb (truthy _)); [stopped |].
  unfold mbind at 1, M_bind at 1, lift at 1.
  destruct (converseBody w body) as [converse | e |] eqn:Hc; [| stopped | stopped].
  unfold mbind at 1, M_bind at 1, lift at 1.
  destruct (to_string _) as [model | e |]; [| stopped | stopped].
  unfold mbind at 1, M_bind at 1, lift at 1.
  destruct (to_string _) as [region | e |]; [| stopped | stopped].
  unfold mbind at 1, M_bind at 1, lift at 1.
  destruct (to_string _) as [token | e |]; [| stopped | stopped].
  cbv zeta.
  match goal with
  | |- context [performJsonRequest w ?url ?headers converse] =>
      destruct (Run_request w log
                  (fun (_ : string) (_ posted : value) => Ok converse = Ok posted)
                  url headers converse Hretry eq_refl) as [new Hrun];
      exists new; apply (Run_after _ _ _ _ _ _ Hrun)
  end.
  - apply try_catch_log. intros response.
    apply silent_bind; [apply silent_lift |]. intros ok.
    destruct (negb (truthy ok)).
    + apply silent_bind; [apply silent_lift |]. intros status.
      apply silent_bind; [apply silent_lift |]. intros errorText.
      apply silent_throw.
    + apply silent_bind; [apply silent_lift |]. intros json.
      apply silent_bind; [apply silent_lift |]. intros canonical.
      apply silent_ret.
  - intros r. apply try_catch_returns.
Qed.


Definition sentTools (w : World) (body : value) : value :=
  let tools0 := get_opt "tools" body in
  if clientSentTools tools0 then tools0 else VArr (STANDARD_TOOLS w).

(** The tool configuration of the Converse body: one [toolSpec] for each
    tool sent. *)
Lemma converseBody_toolConfig (w : World) (body cb : value) (t : value) (ts : list value) :
  converseBody w body = Ok cb ->
  sentTools w body = VArr (t :: ts) ->
  exists specs,
    get_opt "toolConfig" cb = VObj [("tools", VArr specs)] /\
    List.length specs = S (List.length ts).
Proof.
  unfold converseBody, sentTools. cbv zeta. intros H Ht.
  bind_inv H tools0. rewrite <- (get_defined _ _ _ E) in Ht.
  bind_inv H names. bind_inv H messages0. bind_inv H messages.
  bind_inv H systemMessages. bind_inv H others. bind_inv H converted.
  bind_inv H system0. bind_inv H system. bind_inv H max_tokens.
  bind_inv H temperature. bind_inv H top_p. bind_inv H toolConfig.
  injection H as <-. rewrite Ht in E11.
  bind_inv E11 specs. injection E11 as <-.
  exists specs. split; [| now apply mapR_length in E12].
  rewrite get_opt_obj_assoc.
  match goal with
  | |- context [assoc "toolConfig" (_ :: ?l)] =>
      change (assoc "toolConfig" (("messages", VArr converted) :: l))
        with (assoc "toolConfig" l)
  end.
  rewrite !assoc_app.
  assert (Hs : assoc "toolConfig" system = None).
  { destruct (truthy system0); [now injection E7 as <- |].
    destruct systemMessages as [| first rest]; [now injection E7 as <- |].
    destruct (systemContent first); simpl in E7; try discriminate.
    now injection E7 as <-. }
  rewrite Hs. destruct (truthy max_tokens); reflexivity.
Qed.

(** C1.  What [invokeBedrock] posts, for every request and every
    configuration: each POST carries the Converse body built from the
    request, in which every content block of a message that is not of role
    system has become a [{text}] part, its text being the block's text,
    else its content, else the empty string; so for every tool_use block
    and every tool_result block the part posted is not the [toolUse] or
    [toolResult] part that the spec assigns to it.  The same body carries a
    [toolConfig] with a [toolSpec] for each tool, whenever tools are sent;
    and a run that returns an answer has posted such a body. *)
Theorem invokeBedrock_posts_tool_blocks_as_text (w : World) (body : value) (log : Log) :
  retries w ->
  exists new,
    snd (invokeBedrock w body log) = log ++ new /\
    (forall url headers posted, In (EvPost url headers posted) new ->
       converseBody w body = Ok posted /\
       (exists messages converted,
          get_opt "messages" body = VArr messages /\
          get_opt "messages" posted = VArr converted /\
          Forall2 (fun m c =>
                     role c = role m /\
                     get_opt "content" c = VArr (converse_parts (get_opt "content" m)))
                  (List.filter (fun m => negb (is_str "system" (role m))) messages)
                  converted) /\
       (forall t ts, sentTools w body = VArr (t :: ts) ->
          exists specs,
            get_opt "toolConfig" posted = VObj [("tools", VArr specs)] /\
            List.length specs = S (List.length ts))) /\
    (forall r, fst (invokeBedrock w body log) = Ok r ->
       exists url headers posted, In (EvPost url headers posted) new) /\
    (forall block,
       is_str "tool_use" (get_opt "type" block)
       || is_str "tool_result" (get_opt "type" block) = true ->
       exists part,
         spec_part block = Some part /\
         In (textPart (block_text block)) (converse_parts (VArr [block])) /\
         textPart (block_text block) <> part).
Proof.
  intros Hretry.
  destruct (invokeBedrock_run w body log Hretry) as [new Hrun].
  destruct (Run_posts _ _ _ _ _ Hrun) as [Hall Hsome].
  exists new. split; [apply Hrun |]. split; [| split; [exact Hsome |]].
  - intros url headers posted Hin. pose proof (Hall _ _ _ Hin) as Hb.
    split; [exact Hb |]. split.
    + destruct (converseBody_flattens_blocks_to_text w body posted Hb)
        as (messages & converted & H1 & H2 & H3 & _).
      now exists messages, converted.
    + intros t ts Ht. exact (converseBody_toolConfig w body posted t ts Hb Ht).
  - intros block Hty. unfold spec_part. cbv zeta.
    destruct (get_opt "type" block) as [| | | | ty | | |]; try discriminate Hty.
    simpl in Hty |- *.
    destruct (String.eqb ty "tool_use") eqn:Eu.
    + apply String.eqb_eq in Eu. subst ty. simpl.
      eexists. split; [reflexivity |]. split; [now left | discriminate].
    + simpl in Hty. apply String.eqb_eq in Hty. subst ty. simpl.
      eexists. split; [reflexivity |]. split; [now left | discriminate].
Qed.

(** The conversation with a tool call, sent with the tool it calls. *)
Definition readTool : value :=
  VObj [ ("name", VStr "Read");
         ("description", VStr "Read a file");
         ("input_schema", VObj [("type", VStr "object")]) ].

Definition toolRequest : value :=
  VObj [ ("model", VStr "claude-sonnet-4-5");
         ("max_tokens", num 1024);
         ("tools", VArr [readTool]);
         ("messages",
          VArr [ VObj [("role", VStr "system"); ("content", VStr "Be brief.")];
                 VObj [("role", VStr "user"); ("content", VStr "Read /a")];
                 VObj [("role", VStr "assistant");
                       ("content",
                        VArr [toolUseBlock "toolu_1" "Read"
                                (VObj [("file_path", VStr "/a")])])];
                 VObj [("role", VStr "user");
                       ("content",
                        VArr [toolResultBlock "toolu_1" (VStr "contents")])] ]) ].

Definition toolRequestPosted : value :=
  VObj [ ("messages",
          VArr [ VObj [("role", VStr "user");
                       ("content", VArr [textPart (VStr "Read /a")])];
                 VObj [("role", VStr "assistant");
                       ("content", VArr [textPart (VStr EmptyString)])];
                 VObj [("role", VStr "user");
                       ("content", VArr [textPart (VStr "contents")])] ]);
         ("system", VArr [textPart (VStr "Be brief.")]);
         ("inferenceConfig",
          VObj [ ("maxTokens", num 1024);
                 ("temperature", VUndefined);
                 ("topP", VUndefined) ]);
         ("toolConfig",
          VObj [("tools",
                 VArr [VObj [("toolSpec",
                              VObj [ ("name", VStr "Read");
                                     ("description", VStr "Read a file");
                                     ("inputSchema",
                                      VObj [("json",
                                             VObj [("type", VStr "object")])]) ])]])]) ].

Definition bedrockEndpoint : string :=
  "https://bedrock-runtime.us-east-1.amazonaws.com/model/us.anthropic.claude-3-5-sonnet-20241022-v2:0/converse".

Definition bedrockHeaders : value :=
  VObj [ ("Content-Type", VStr "application/json");
         ("Authorization", VStr "Bearer ABSK-test") ].

(** C1 at that request: the tool is announced in [toolConfig], while the
    assistant's tool_use block is posted as [{text: ""}] and the user's
    tool_result block as [{text: "contents"}], not as the [toolUse] and
    [toolResult] parts of the spec. *)
Lemma invokeBedrock_posts_tool_blocks_witness :
  retries (bedrockWorld (answering converseAnswer)) /\
  snd (invokeBedrock (bedrockWorld (answering converseAnswer)) toolRequest [])
  = [ EvWithRetry (VObj [ ("maxRetries", num 3); ("initialDelay", num 1000);
                          ("maxDelay", num 30000) ]);
      EvPost bedrockEndpoint bedrockHeaders toolRequestPosted ] /\
  converseBody (bedrockWorld (answering converseAnswer)) toolRequest
  = Ok toolRequestPosted /\
  spec_part (toolUseBlock "toolu_1" "Read" (VObj [("file_path", VStr "/a")]))
  = Some (VObj [("toolUse",
                 VObj [ ("toolUseId", VStr "toolu_1"); ("name", VStr "Read");
                        ("input", VObj [("file_path", VStr "/a")]) ])]) /\
  spec_part (toolResultBlock "toolu_1" (VStr "contents"))
  = Some (VObj [("toolResult",
                 VObj [ ("toolUseId", VStr "toolu_1");
                        ("content", VArr [VObj [("text", VStr "contents")]]) ])]).
Proof.
  split; [apply singleAttempt_retries |]. split; [vm_compute; reflexivity |].
  split; [| split; reflexivity].
  destruct (invokeBedrock_posts_tool_blocks_as_text
              (bedrockWorld (answering converseAnswer)) toolRequest []
              (singleAttempt_retries _ _ _ _ _ _)) as (new & Hlog & Hall & _).
  assert (Hnew : new = [ EvWithRetry (retryOptions (bedrockWorld (answering converseAnswer)));
                         EvPost bedrockEndpoint bedrockHeaders toolRequestPosted ]).
  { apply (List.app_inv_head []). rewrite <- Hlog. vm_compute. reflexivity. }
  apply (Hall bedrockEndpoint bedrockHeaders toolRequestPosted).
  rewrite Hnew. right. now left.
Defined.

(** *** The Azure OpenAI client *)





End PostedFacts.

(** ** The complexity analyzer *)

Module ComplexityFacts.
Import Regex Complexity.

Lemma scoreTokens_range (payload : Payload) : (0 <= scoreTokens payload <= 20)%Z.
Proof.
  unfold scoreTokens.
  repeat match goal with |- context [if ?b then _ else _] => destruct b end; lia.
Qed.

Lemma scoreTools_range (payload : Payload) : (0 <= scoreTools payload <= 20)%Z.
Proof.
  unfold scoreTools.
  repeat match goal with |- context [if ?b then _ else _] => destruct b end; lia.
Qed.

Lemma scoreTaskType_range (text : string) : (0 <= score (scoreTaskType text) <= 25)%Z.
Proof.
  unfold scoreTaskType.
  repeat match goal with
         | |- context [if ?b then _ else _] => destruct b
         | |- context [match ?o with Some _ => _ | None => _ end] => destruct o
         end; simpl; lia.
Qed.

(** A tally of rules with non-negative points is non-negative. *)
Lemma tally_nonneg (rules : list (re * Z * string)) (text : string) :
  Forall (fun rule => 0 <= snd (fst rule))%Z rules -> (0 <= fst (tally rules text))%Z.
Proof.
  unfold tally.
  assert (H : forall acc : Z * list string,
             Forall (fun rule => 0 <= snd (fst rule))%Z rules -> (0 <= fst acc)%Z ->
             (0 <= fst (List.fold_left
                          (fun acc rule =>
                             match rule with
                             | (pattern, points, name) =>
                                 if test pattern text
                                 then (fst acc + points, snd acc ++ [name])%Z else acc
                             end) rules acc))%Z).
  { induction rules as [| [[p n] name] rest IH]; intros acc Hall Hacc; simpl.
    - exact Hacc.
    - inversion Hall as [| ? ? Hn Hrest]; subst. simpl in Hn. apply IH.
      + exact Hrest.
      + destruct (test p text); simpl; lia. }
  intros Hall. apply H; [exact Hall | simpl; lia].
Qed.

Lemma scoreCodeComplexity_range (text : string) :
  (0 <= fst (scoreCodeComplexity text) <= 20)%Z.
Proof.
  unfold scoreCodeComplexity. simpl fst.
  assert (0 <= fst (tally codeComplexityRules text))%Z.
  { apply tally_nonneg. unfold codeComplexityRules.
    repeat constructor; simpl; lia. }
  lia.
Qed.

Lemma scoreReasoning_range (text : string) :
  (0 <= fst (scoreReasoning text) <= 15)%Z.
Proof.
  unfold scoreReasoning. simpl fst.
  assert (0 <= fst (tally reasoningRules text))%Z.
  { apply tally_nonneg. unfold reasoningRules.
    repeat constructor; simpl; lia. }
  lia.
Qed.

Lemma existsb_find {A : Type} (f : A -> bool) (l : list A) :
  existsb f l = match List.find f l with Some _ => true | None => false end.
Proof.
  induction l as [| x rest IH]; simpl; [reflexivity |].
  destruct (f x); simpl; [reflexivity | exact IH].
Qed.

(** The reason [scoreTaskType] reports tells which force list matched: the
    force-local list is tried first. *)
Lemma scoreTaskType_reason (text : string) :
  let r := reason (scoreTaskType text) in
  if existsb (fun p => test p text) FORCE_LOCAL_PATTERNS
  then r = "force_local"
  else if existsb (fun p => test (fst p) text) FORCE_CLOUD_PATTERNS
  then r = "force_cloud"
  else String.eqb r "force_local" = false /\ String.eqb r "force_cloud" = false.
Proof.
  unfold scoreTaskType. rewrite (existsb_find (fun p => test (fst p) text)).
  unfold firstForceCloud.
  destruct (existsb _ FORCE_LOCAL_PATTERNS); [reflexivity |].
  destruct (List.find _ FORCE_CLOUD_PATTERNS); [reflexivity |].
  repeat match goal with |- context [if ?b then _ else _] => destruct b end;
    split; reflexivity.
Qed.

(** C6 (as the code has it).  For every request payload and every
    configured mode, [analyzeComplexity] returns a score between 0 and 100.
    Its recommendation is "local" when the text of the last user message
    matches a force-local pattern, whatever else it matches; otherwise
    "cloud" when the text matches a force-cloud pattern; otherwise "cloud"
    exactly when the score reaches the threshold of the mode. *)
Theorem analyzeComplexity_score_range_and_forcing (cfg : ModeSetting) (payload : Payload) :
  let analysis := analyzeComplexity cfg payload in
  (0 <= total analysis <= 100)%Z /\
  recommendation analysis =
    if shouldForceLocal payload then "local"
    else if shouldForceCloud payload then "cloud"
    else if (getThreshold cfg <=? total analysis)%Z then "cloud" else "local".
Proof.
  cbv zeta. split.
  - unfold analyzeComplexity. cbv zeta. cbn [total].
    pose proof (scoreTokens_range payload).
    pose proof (scoreTools_range payload).
    pose proof (scoreTaskType_range (extractContent payload)).
    pose proof (scoreCodeComplexity_range (extractContent payload)).
    pose proof (scoreReasoning_range (extractContent payload)).
    repeat match goal with |- context [if ?b then _ else _] => destruct b end; lia.
  - unfold analyzeComplexity, shouldForceLocal, shouldForceCloud.
    cbv zeta. cbn [recommendation total].
    pose proof (scoreTaskType_reason (extractContent payload)) as H. cbv zeta in H.
    destruct (existsb _ FORCE_LOCAL_PATTERNS).
    + rewrite H. reflexivity.
    + destruct (existsb _ FORCE_CLOUD_PATTERNS).
      * rewrite H. reflexivity.
      * destruct H as [-> ->]. reflexivity.
Qed.

(** A payload whose only message is a user message with the given text. *)
Definition asking (text : string) : Payload :=
  mkPayload (Some [mkMessage "user" (Text text)]) None.

Definition auditAtATime : Payload :=
  asking "what time is it during the security audit".

(** C6 (as stated), refuted.  A text that matches a force-cloud pattern
    ("security audit") and also a force-local pattern (it starts with
    "what time is it") is recommended "local", not "cloud". *)
Lemma analyzeComplexity_force_cloud_not_cloud :
  extractContent auditAtATime = "what time is it during the security audit" /\
  shouldForceCloud auditAtATime = true /\
  shouldForceLocal auditAtATime = true /\
  recommendation (analyzeComplexity None auditAtATime) = "local" /\
  recommendation (analyzeComplexity None auditAtATime) <> "cloud".
Proof. vm_compute. repeat split. discriminate. Qed.

(** A text that matches a force-cloud pattern only is recommended "cloud"
    although its score is below the threshold. *)
Example analyzeComplexity_security_audit :
  let analysis := analyzeComplexity None (asking "run a security audit") in
  (total analysis <? threshold analysis)%Z = true /\ recommendation analysis = "cloud".
Proof. vm_compute. split; reflexivity. Qed.

(** A greeting is recommended "local" in every mode. *)
Example analyzeComplexity_greeting :
  List.map (fun m => recommendation (analyzeComplexity m (asking "Hello!")))
           [None; Some "aggressive"; Some "conservative"]
  = ["local"; "local"; "local"].
Proof. vm_compute. reflexivity. Qed.

End ComplexityFacts.

(** ** The complexity analyzer: the score and the modes *)

Module ComplexityModeFacts.
Import Regex Complexity ComplexityFacts.

#[local] Open Scope Z_scope.

Lemma getThreshold_range (cfg : ModeSetting) : 25 <= getThreshold cfg <= 60.
Proof.
  unfold getThreshold. cbv zeta.
  repeat match goal with |- context [if ?b then _ else _] => destruct b end; lia.
Qed.

(** The five parts of the breakdown are bounded: tokens and tools by 20
    each, the task type by 25, the code complexity by 20 and the reasoning
    by 15, none being negative.  So they cannot add up to more than 100:
    the cap the code puts on their sum before adding the conversation bonus
    never cuts anything, and the score is the sum of the five parts and of
    the bonus (between 0 and 5), capped at 100. *)
Theorem analyzeComplexity_score_is_the_capped_sum (cfg : ModeSetting) (payload : Payload) :
  let analysis := analyzeComplexity cfg payload in
  let parts := tokens analysis + toolsScore analysis + score (taskType analysis)
               + fst (codeComplexity analysis) + fst (reasoning analysis) in
  0 <= tokens analysis <= 20 /\
  0 <= toolsScore analysis <= 20 /\
  0 <= score (taskType analysis) <= 25 /\
  0 <= fst (codeComplexity analysis) <= 20 /\
  0 <= fst (reasoning analysis) <= 15 /\
  parts <= 100 /\
  total analysis = Z.min (parts + conversationBonus analysis) 100 /\
  0 <= conversationBonus analysis <= 5.
Proof.
  cbv zeta. unfold analyzeComplexity. cbv zeta.
  cbn [total tokens toolsScore taskType codeComplexity reasoning conversationBonus].
  pose proof (scoreTokens_range payload).
  pose proof (scoreTools_range payload).
  pose proof (scoreTaskType_range (extractContent payload)).
  pose proof (scoreCodeComplexity_range (extractContent payload)).
  pose proof (scoreReasoning_range (extractContent payload)).
  repeat match goal with |- context [if ?b then _ else _] => destruct b end; lia.
Qed.

Lemma recommendation_cases (cfg : ModeSetting) (payload : Payload) :
  let forced := reason (scoreTaskType (extractContent payload)) in
  recommendation (analyzeComplexity cfg payload)
  = if String.eqb forced "force_local" then "local"
    else if String.eqb forced "force_cloud" then "cloud"
    else if getThreshold cfg <=? total (analyzeComplexity None payload)
         then "cloud" else "local".
Proof. reflexivity. Qed.

(** The mode changes the threshold and nothing else: the score of a request
    is the same in every mode; a request sent to the cloud in the
    aggressive mode is sent to the cloud in every mode, and a request kept
    local in the conservative mode is kept local in every mode. *)
Theorem analyzeComplexity_modes_are_ordered (cfg : ModeSetting) (payload : Payload) :
  total (analyzeComplexity cfg payload) = total (analyzeComplexity None payload) /\
  (recommendation (analyzeComplexity (Some "aggressive") payload) = "cloud" ->
   recommendation (analyzeComplexity cfg payload) = "cloud") /\
  (recommendation (analyzeComplexity (Some "conservative") payload) = "local" ->
   recommendation (analyzeComplexity cfg payload) = "local").
Proof.
  split; [reflexivity |].
  rewrite !recommendation_cases. cbv zeta.
  pose proof (getThreshold_range cfg) as Hr.
  change (getThreshold (Some "aggressive")) with 60.
  change (getThreshold (Some "conservative")) with 25.
  destruct (String.eqb _ "force_local"); [split; [discriminate | reflexivity] |].
  destruct (String.eqb _ "force_cloud"); [split; [reflexivity | discriminate] |].
  split; intros H.
  - destruct (60 <=? _) eqn:E60; [| discriminate H].
    apply Z.leb_le in E60.
    destruct (getThreshold cfg <=? _) eqn:E; [reflexivity |].
    apply Z.leb_gt in E. lia.
  - destruct (25 <=? _) eqn:E25; [discriminate H |].
    apply Z.leb_gt in E25.
    destruct (getThreshold cfg <=? _) eqn:E; [| reflexivity].
    apply Z.leb_le in E. lia.
Qed.

End ComplexityModeFacts.

(** ** The query sanitizer *)

Module SearchFacts.
Import Regex Search.

(** A character that may stand inside a quoted string as it is. *)
Definition plain (c : ascii) : bool :=
  negb (Ascii.eqb c dquote) && negb (Ascii.eqb c zero).

(** The body of a quoted string: plain characters and doubled quotes. *)
Inductive Phrase : list ascii -> Prop :=
| Phrase_nil : Phrase []
| Phrase_char (c : ascii) (s : list ascii) : plain c = true -> Phrase s -> Phrase (c :: s)
| Phrase_quote (s : list ascii) : Phrase s -> Phrase (dquote :: dquote :: s).

#[local] Hint Constructors Phrase : core.

Lemma Phrase_app (s t : list ascii) : Phrase s -> Phrase t -> Phrase (s ++ t).
Proof. induction 1; intros Ht; simpl; auto. Qed.

Lemma Phrase_rev (s : list ascii) : Phrase s -> Phrase (List.rev s).
Proof.
  induction 1 as [| c s Hc _ IH | s _ IH]; simpl; auto.
  - apply Phrase_app; auto.
  - rewrite <- List.app_assoc. apply Phrase_app; auto.
    apply (Phrase_quote []). constructor.
Qed.

Lemma Phrase_dropWhile (s : list ascii) : Phrase s -> Phrase (dropWhile is_space s).
Proof.
  induction 1 as [| c s Hc Hs IH | s Hs IH]; simpl; auto.
  destruct (is_space c); auto.
Qed.

Lemma Phrase_trim (s : list ascii) : Phrase s -> Phrase (trim s).
Proof.
  intros H. unfold trim.
  apply Phrase_rev, Phrase_dropWhile, Phrase_rev, Phrase_dropWhile, H.
Qed.

Lemma plain_space : plain " "%char = true.
Proof. reflexivity. Qed.

Lemma Phrase_collapse (s : list ascii) : Phrase s -> Phrase (collapse s).
Proof.
  induction 1 as [| c s Hc Hs IH | s Hs IH].
  - constructor.
  - cbn [collapse]. destruct (is_space c).
    + destruct s as [| c' s']; [auto using plain_space |].
      destruct (is_space c'); auto using plain_space.
    + auto.
  - change (collapse (dquote :: dquote :: s)) with (dquote :: dquote :: collapse s).
    auto.
Qed.

(** Neither a word character nor white space is the NUL character. *)
Lemma kept_plain (c : ascii) :
  Ascii.eqb c dquote = false -> unsafe c = false -> plain c = true.
Proof.
  intros Hq Hu. unfold plain. rewrite Hq. simpl.
  destruct (Ascii.eqb c zero) eqn:Hz; [| reflexivity].
  apply Ascii.eqb_eq in Hz. subst c. discriminate Hu.
Qed.

Lemma Phrase_escaped (s : list ascii) : Phrase (blank unsafe (escapeQuotes s)).
Proof.
  unfold blank, escapeQuotes.
  induction s as [| c s IH]; simpl; [constructor |].
  destruct (Ascii.eqb c dquote) eqn:Hq; simpl.
  - change (unsafe dquote) with false. cbn iota. auto.
  - destruct (unsafe c) eqn:Hu; auto using plain_space, kept_plain.
Qed.

Lemma Phrase_residue (s : list ascii) : Phrase (residue s).
Proof. unfold residue. apply Phrase_trim, Phrase_collapse, Phrase_escaped. Qed.

Lemma Phrase_no_nul (s : list ascii) : Phrase s -> existsb (Ascii.eqb zero) s = false.
Proof.
  induction 1 as [| c s Hc Hs IH | s Hs IH]; cbn [existsb].
  - reflexivity.
  - rewrite IH, Bool.orb_false_r.
    unfold plain in Hc. apply andb_prop in Hc as [_ Hz].
    apply Bool.negb_true_iff in Hz. rewrite Ascii.eqb_sym. exact Hz.
  - rewrite IH. reflexivity.
Qed.

(** The lexer reads a phrase body and its closing quote as one string. *)
Lemma lex_Phrase (s : list ascii) :
  Phrase s -> FTS5.lex FTS5.Quoted (s ++ [dquote]) = Some [FTS5.STRING].
Proof.
  induction 1 as [| c s Hc Hs IH | s Hs IH]; simpl.
  - reflexivity.
  - unfold plain in Hc. apply andb_prop in Hc as [Hq _].
    apply Bool.negb_true_iff in Hq. rewrite Hq. exact IH.
  - exact IH.
Qed.

Lemma parse_quoted (s : list ascii) :
  Phrase s -> FTS5.parse (string_of_list_ascii (quoted s)) = FTS5.Accepted.
Proof.
  intros H. unfold FTS5.parse, chars.
  rewrite list_ascii_of_string_of_list_ascii. unfold quoted.
  assert (Hn : existsb (Ascii.eqb zero) (dquote :: s ++ [dquote]) = false).
  { change (dquote :: s ++ [dquote]) with ([dquote] ++ s ++ [dquote]).
    rewrite !List.existsb_app, (Phrase_no_nul s H). reflexivity. }
  rewrite Hn.
  change (FTS5.lex FTS5.Outside (dquote :: s ++ [dquote]))
    with ((fun l => [] ++ l) <$> FTS5.lex FTS5.Quoted (s ++ [dquote])).
  rewrite (lex_Phrase s H). reflexivity.
Qed.

(** C7 (as the code has it).  For every query in which, once its tags are
    stripped, the pattern for AND, OR and NOT finds nothing,
    [prepareFTS5Query] returns a query that the full-text engine accepts:
    one quoted string. *)
Theorem prepareFTS5Query_without_operators_accepted (query : string) :
  hasFTS5Operators (tagless (chars query)) = false ->
  FTS5.parse (prepareFTS5Query query) = FTS5.Accepted.
Proof.
  intros Hops. unfold prepareFTS5Query.
  destruct (tagless (chars query)) as [| c cleaned] eqn:Hc.
  - reflexivity.
  - rewrite Hops. apply parse_quoted, Phrase_residue.
Qed.

Lemma prepareFTS5Query_accepted_witness :
  hasFTS5Operators (tagless (chars "error: <tag attr=1/> failed - retry?")) = false /\
  FTS5.parse (prepareFTS5Query "error: <tag attr=1/> failed - retry?") = FTS5.Accepted.
Proof.
  split.
  - vm_compute. reflexivity.
  - apply prepareFTS5Query_without_operators_accepted. vm_compute. reflexivity.
Defined.

(** With an operator word the residue is returned as it is, unquoted. *)
Lemma prepareFTS5Query_with_operators (query : string) :
  hasFTS5Operators (tagless (chars query)) = true ->
  prepareFTS5Query query = string_of_list_ascii (residue (tagless (chars query))).
Proof.
  intros Hops. unfold prepareFTS5Query.
  destruct (tagless (chars query)) as [| c cleaned] eqn:Hc.
  - discriminate Hops.
  - rewrite Hops. reflexivity.
Qed.

(** C7 (as stated), refuted.  The query "NOT working" is returned as it
    is, and the engine rejects it: NOT stands between two queries. *)
Lemma prepareFTS5Query_operator_rejected :
  prepareFTS5Query "NOT working" = "NOT working" /\
  FTS5.parse (prepareFTS5Query "NOT working") = FTS5.Rejected /\
  FTS5.parse (prepareFTS5Query "NOT working") <> FTS5.Accepted.
Proof. vm_compute. repeat split. discriminate. Qed.

Example prepareFTS5Query_samples :
  List.map prepareFTS5Query ["cats and dogs"; "x OR y"; "AND"; "<b>"]
  = [ "cats and dogs"; "x OR y"; "AND";
      string_of_list_ascii (quoted (chars "empty query")) ].
Proof. vm_compute. reflexivity. Qed.

(** *** [searchMemories] *)

Definition returns {A : Type} (r : result A) : bool :=
  match r with Unmodelled => false | _ => true end.

Lemma returns_bind {A B : Type} (m : result A) (f : A -> result B) :
  returns m = true -> (forall a, returns (f a) = true) -> returns (m ≫= f) = true.
Proof. destruct m; simpl; auto. Qed.

Lemma returns_get (k : string) (v : value) : returns (get k v) = true.
Proof. destruct v; reflexivity. Qed.

Lemma returns_outcome {A : Type} (o : A + value) : returns (outcome o) = true.
Proof. destruct o; reflexivity. Qed.

Lemma returns_mapR {A B : Type} (f : A -> result B) (l : list A) :
  (forall x, returns (f x) = true) -> returns (mapR f l) = true.
Proof.
  intros Hf. induction l as [| x rest IH]; simpl; [reflexivity |].
  apply returns_bind; [apply Hf |]. intros y.
  apply returns_bind; [exact IH |]. reflexivity.
Qed.

Lemma returns_memoryOfRow (db : Database) (row : value) :
  returns (memoryOfRow db row) = true.
Proof.
  unfold memoryOfRow.
  repeat (apply returns_bind; [apply returns_get | intros ?]).
  apply returns_bind.
  - destruct (truthy _); [apply returns_outcome | reflexivity].
  - intros ?. apply returns_bind; [apply returns_get | reflexivity].
Qed.

Lemma orEmpty_returns (attempt : result (list value)) :
  returns attempt = true -> exists memories, orEmpty attempt = Ok memories.
Proof. destruct attempt; simpl; intros H; try discriminate; eauto. Qed.

(** Whatever the database does, [searchMemories] returns a list. *)
Theorem searchMemories_returns (db : Database) (options : list (string * value)) :
  exists memories, searchMemories db (VObj options) = Ok memories.
Proof.
  unfold searchMemories, option_or. simpl.
  destruct (match assoc "query" options with Some x => x | None => inherited "query" end)
    as [ | | | | [| c q] | | | ]; eauto.
  apply orEmpty_returns, returns_bind; [apply returns_outcome |].
  intros rows. apply returns_mapR, returns_memoryOfRow.
Qed.

(** A query that the database raises on finds nothing. *)
Theorem searchMemories_engine_error (db : Database) (options : list (string * value)) :
  (forall sql params, exists e, all db sql params = inr e) ->
  searchMemories db (VObj options) = Ok [].
Proof.
  intros Hdb. unfold searchMemories, option_or. simpl.
  destruct (match assoc "query" options with Some x => x | None => inherited "query" end)
    as [ | | | | [| c q] | | | ]; try reflexivity.
  match goal with
  | |- context [all db ?sql ?params] => destruct (Hdb sql params) as [e ->]
  end.
  reflexivity.
Qed.

End SearchFacts.

(** ** Keywords and the searches built on them *)

Module KeywordFacts.
Import Regex Search SearchFacts ArrayFacts.

(** The characters of a keyword: lower-case letters, digits and the
    underscore. *)
Definition keyword_char (c : ascii) : bool :=
  is_lower c || is_digit c || Ascii.eqb c "_"%char.

Lemma lowerCase_word (c : ascii) :
  is_word (lowerCase c) = true -> keyword_char (lowerCase c) = true.
Proof. destruct c as [[] [] [] [] [] [] [] []]; vm_compute; auto. Qed.

Lemma splitFrom_chars (s word piece : list ascii) (c : ascii) :
  In piece (splitFrom word s) -> In c piece -> In c word \/ In c s.
Proof.
  revert word. induction s as [| a rest IH]; intros word; simpl.
  - intros [<- | []] Hc. left. now apply List.in_rev.
  - destruct (is_space a).
    + destruct rest as [| a' rest'].
      * intros [<- | [<- | []]] Hc; [| destruct Hc].
        left. now apply List.in_rev.
      * destruct (is_space a').
        -- intros Hp Hc. destruct (IH word Hp Hc); auto.
        -- intros [<- | Hp] Hc; [left; now apply List.in_rev |].
           destruct (IH [] Hp Hc) as [[] |]; auto.
    + intros Hp Hc. destruct (IH (a :: word) Hp Hc) as [[<- | H] | H]; auto.
Qed.

Lemma keywordsOf_keywords (text keyword : string) :
  In keyword (keywordsOf text) ->
  3 < String.length keyword /\
  forallb keyword_char (chars keyword) = true /\
  ~ In keyword stopwords.
Proof.
  intros Hin. unfold keywordsOf in Hin.
  apply List.filter_In in Hin as [Hin Hkeyword].
  unfold isKeyword in Hkeyword. apply andb_prop in Hkeyword as [Hlong Hstop].
  split; [now apply Nat.ltb_lt |]. split.
  - apply List.in_map_iff in Hin as (piece & <- & Hpiece).
    unfold chars. rewrite list_ascii_of_string_of_list_ascii.
    apply List.forallb_forall. intros c Hc.
    apply List.filter_In in Hc as [Hc Hword].
    destruct (splitFrom_chars _ [] piece c Hpiece Hc) as [[] | Hs].
    unfold toLowerCase in Hs. apply List.in_map_iff in Hs as (c0 & <- & _).
    now apply lowerCase_word.
  - intros Hs. apply Bool.negb_true_iff in Hstop.
    assert (existsb (String.eqb keyword) stopwords = true); [| congruence].
    apply List.existsb_exists. exists keyword. split; [exact Hs |].
    apply String.eqb_refl.
Qed.

Lemma extractKeywords_cases (text : value) (keywords : list string) :
  extractKeywords text = Ok keywords ->
  keywords = [] \/ exists s, text = VStr s /\ keywords = keywordsOf s.
Proof.
  unfold extractKeywords. destruct (negb (truthy text)).
  { intros [= <-]. now left. }
  destruct text as [ | | | | s | | | ]; try discriminate.
  intros [= <-]. right. eauto.
Qed.

(** Every keyword that [extractKeywords] gives has more than three
    characters, all of them lower-case letters, digits or underscores, and
    is no stopword. *)
Theorem extractKeywords_keywords (text : value) (keywords : list string)
    (keyword : string) :
  extractKeywords text = Ok keywords ->
  In keyword keywords ->
  3 < String.length keyword /\
  forallb keyword_char (chars keyword) = true /\
  ~ In keyword stopwords.
Proof.
  intros H Hin.
  destruct (extractKeywords_cases _ _ H) as [-> | (s & _ & ->)]; [destruct Hin |].
  now apply (keywordsOf_keywords s).
Qed.

Lemma extractKeywords_keywords_witness :
  extractKeywords (VStr "Which DATABASE does the Billing-Service use?")
  = Ok ["database"; "does"; "billingservice"] /\
  3 < String.length "billingservice" /\
  forallb keyword_char (chars "billingservice") = true /\
  ~ In "billingservice" stopwords.
Proof.
  split; [reflexivity |].
  apply (extractKeywords_keywords
           (VStr "Which DATABASE does the Billing-Service use?")
           ["database"; "does"; "billingservice"]).
  - reflexivity.
  - simpl. auto.
Defined.

(** *** The queries built from keywords *)

(** Words separated by single spaces. *)
Fixpoint unwords (tokens : list (list ascii)) : list ascii :=
  match tokens with
  | [] => []
  | [w] => w
  | w :: rest => w ++ " "%char :: unwords rest
  end.

Definition word (w : list ascii) : Prop :=
  w <> [] /\ Forall (fun c => is_word c = true) w.

Definition tidy (c : ascii) : bool := is_word c || Ascii.eqb c " "%char.

Lemma word_char (c : ascii) :
  is_word c = true ->
  is_space c = false /\ special c = false /\ unsafe c = false /\
  Ascii.eqb c dquote = false /\ Ascii.eqb c "<"%char = false /\
  FTS5.is_bareword c = true.
Proof. destruct c as [[] [] [] [] [] [] [] []]; vm_compute; intuition congruence. Qed.

Lemma tidy_char (c : ascii) :
  tidy c = true ->
  special c = false /\ unsafe c = false /\ Ascii.eqb c dquote = false /\
  Ascii.eqb c "<"%char = false /\ Ascii.eqb zero c = false.
Proof. destruct c as [[] [] [] [] [] [] [] []]; vm_compute; intuition congruence. Qed.

Lemma keyword_char_word (c : ascii) : keyword_char c = true -> is_word c = true.
Proof. destruct c as [[] [] [] [] [] [] [] []]; vm_compute; auto. Qed.

Lemma unwords_cons (w : list ascii) (rest : list (list ascii)) :
  rest <> [] -> unwords (w :: rest) = w ++ " "%char :: unwords rest.
Proof. destruct rest; [contradiction | reflexivity]. Qed.

Lemma unwords_tidy (tokens : list (list ascii)) :
  Forall word tokens -> Forall (fun c => tidy c = true) (unwords tokens).
Proof.
  induction 1 as [| w rest [_ Hw] _ IH]; [constructor |].
  assert (Htidy : Forall (fun c => tidy c = true) w).
  { eapply List.Forall_impl; [| exact Hw]. intros c Hc. unfold tidy. now rewrite Hc. }
  destruct rest as [| w' rest']; [exact Htidy |].
  rewrite unwords_cons by discriminate.
  apply List.Forall_app. split; [exact Htidy |]. constructor; [reflexivity | exact IH].
Qed.

(** A text that starts with a word. *)
Definition starts_with_word (s : list ascii) : Prop :=
  exists c rest, s = c :: rest /\ is_word c = true.

Lemma unwords_starts (tokens : list (list ascii)) :
  Forall word tokens -> tokens <> [] -> starts_with_word (unwords tokens).
Proof.
  intros H Hne. destruct H as [| w rest [Hw Hchars] _]; [contradiction |].
  destruct w as [| c w']; [contradiction |].
  inversion Hchars as [| ? ? Hc _]; subst.
  exists c. destruct rest as [| w2 rest'].
  - exists w'. auto.
  - exists (w' ++ " "%char :: unwords (w2 :: rest')). auto.
Qed.

Lemma unwords_ends (tokens : list (list ascii)) :
  Forall word tokens -> tokens <> [] -> starts_with_word (List.rev (unwords tokens)).
Proof.
  induction 1 as [| w rest [Hw Hchars] Hrest IH]; [contradiction |]. intros _.
  destruct rest as [| w2 rest'].
  - simpl. destruct (List.exists_last Hw) as (init & c & ->).
    rewrite List.rev_app_distr. simpl.
    apply List.Forall_app in Hchars as [_ Hc]. inversion Hc; subst.
    exists c, (List.rev init). auto.
  - rewrite unwords_cons by discriminate.
    rewrite List.rev_app_distr. cbn [List.rev].
    destruct (IH ltac:(discriminate)) as (c & r & -> & Hc).
    exists c. eexists. split; [| exact Hc].
    rewrite <- !List.app_assoc. reflexivity.
Qed.

Lemma dropWhile_word (s : list ascii) :
  starts_with_word s -> dropWhile is_space s = s.
Proof.
  intros (c & rest & -> & Hc). simpl.
  destruct (word_char c Hc) as [-> _]. reflexivity.
Qed.

Lemma trim_words (s : list ascii) :
  starts_with_word s -> starts_with_word (List.rev s) -> trim s = s.
Proof.
  intros Hs Hr. unfold trim.
  now rewrite (dropWhile_word s), (dropWhile_word (List.rev s)), List.rev_involutive.
Qed.

Lemma stripTags_tidy (s : list ascii) :
  Forall (fun c => tidy c = true) s -> stripTags s = s.
Proof.
  unfold stripTags. induction 1 as [| c rest Hc _ IH]; [reflexivity |].
  simpl. destruct (tidy_char c Hc) as (_ & _ & _ & -> & _). now rewrite IH.
Qed.

Lemma blank_tidy (class : ascii -> bool) (s : list ascii) :
  Forall (fun c => class c = false) s -> blank class s = s.
Proof.
  unfold blank. induction 1 as [| c rest Hc _ IH]; [reflexivity |].
  simpl. now rewrite Hc, IH.
Qed.

Lemma escapeQuotes_tidy (s : list ascii) :
  Forall (fun c => tidy c = true) s -> escapeQuotes s = s.
Proof.
  unfold escapeQuotes. induction 1 as [| c rest Hc _ IH]; [reflexivity |].
  simpl. destruct (tidy_char c Hc) as (_ & _ & -> & _). simpl. now rewrite IH.
Qed.

Lemma collapse_word (w rest : list ascii) :
  Forall (fun c => is_word c = true) w -> collapse (w ++ rest) = w ++ collapse rest.
Proof.
  induction 1 as [| c w' Hc _ IH]; [reflexivity |].
  cbn [app collapse]. destruct (word_char c Hc) as [-> _]. now rewrite IH.
Qed.

Lemma collapse_space (c : ascii) (r : list ascii) :
  is_space c = false -> collapse (" "%char :: c :: r) = " "%char :: collapse (c :: r).
Proof.
  intros H. cbn [collapse]. change (is_space " ") with true. now rewrite H.
Qed.

Lemma collapse_unwords (tokens : list (list ascii)) :
  Forall word tokens -> collapse (unwords tokens) = unwords tokens.
Proof.
  induction 1 as [| w rest [Hw Hchars] Hrest IH]; [reflexivity |].
  destruct rest as [| w2 rest'].
  - simpl. rewrite <- (List.app_nil_r w) at 1.
    rewrite collapse_word by exact Hchars. simpl. apply List.app_nil_r.
  - rewrite unwords_cons by discriminate. rewrite collapse_word by exact Hchars.
    f_equal.
    destruct (unwords_starts (w2 :: rest') Hrest ltac:(discriminate))
      as (c & r & Heq & Hc).
    rewrite Heq in *. destruct (word_char c Hc) as [Hspace _].
    now rewrite (collapse_space c r Hspace), IH.
Qed.

(** The sanitizer leaves words separated by single spaces as they are. *)
Lemma tagless_unwords (tokens : list (list ascii)) :
  Forall word tokens -> tokens <> [] -> tagless (unwords tokens) = unwords tokens.
Proof.
  intros H Hne. unfold tagless.
  pose proof (unwords_starts tokens H Hne) as Hstart.
  pose proof (unwords_ends tokens H Hne) as Hend.
  rewrite (trim_words (unwords tokens)) by assumption.
  rewrite stripTags_tidy by now apply unwords_tidy.
  rewrite collapse_unwords by exact H.
  now apply trim_words.
Qed.

Lemma residue_unwords (tokens : list (list ascii)) :
  Forall word tokens -> tokens <> [] -> residue (unwords tokens) = unwords tokens.
Proof.
  intros H Hne. unfold residue.
  pose proof (unwords_starts tokens H Hne) as Hstart.
  pose proof (unwords_ends tokens H Hne) as Hend.
  pose proof (unwords_tidy tokens H) as Htidy.
  rewrite (blank_tidy special).
  2: { eapply List.Forall_impl; [| exact Htidy]. intros c Hc.
       now destruct (tidy_char c Hc) as (-> & _). }
  rewrite collapse_unwords, (trim_words (unwords tokens)) by assumption.
  rewrite escapeQuotes_tidy by exact Htidy.
  rewrite (blank_tidy unsafe).
  2: { eapply List.Forall_impl; [| exact Htidy]. intros c Hc.
       now destruct (tidy_char c Hc) as (_ & -> & _). }
  rewrite collapse_unwords by exact H. now apply trim_words.
Qed.

(** The lexer reads words separated by single spaces as barewords. *)
Lemma lex_bareword_run (w rest seen : list ascii) :
  Forall (fun c => is_word c = true) w ->
  FTS5.lex (FTS5.Bareword seen) (w ++ rest)
  = FTS5.lex (FTS5.Bareword (seen ++ w)) rest.
Proof.
  intros H. revert seen. induction H as [| c w' Hc _ IH]; intros seen.
  - now rewrite List.app_nil_r.
  - cbn [app FTS5.lex]. destruct (word_char c Hc) as (_ & _ & _ & _ & _ & ->).
    rewrite IH, <- List.app_assoc. reflexivity.
Qed.

Lemma lex_word (w rest : list ascii) :
  word w ->
  FTS5.lex FTS5.Outside (w ++ rest) = FTS5.lex (FTS5.Bareword w) rest.
Proof.
  intros [Hne H]. destruct w as [| c w']; [contradiction |].
  inversion H as [| ? ? Hc Hw']; subst.
  cbn [app FTS5.lex]. unfold FTS5.start.
  destruct (word_char c Hc) as (Hspace & _ & _ & Hquote & _ & Hbare).
  assert (Hblank : FTS5.is_blank c = false).
  { revert Hc. clear. destruct c as [[] [] [] [] [] [] [] []]; vm_compute; congruence. }
  rewrite Hblank, Hquote, Hbare.
  rewrite (lex_bareword_run w' rest [c] Hw').
  now destruct (FTS5.lex _ rest).
Qed.

Lemma lex_unwords (tokens : list (list ascii)) :
  Forall word tokens -> tokens <> [] ->
  FTS5.lex FTS5.Outside (unwords tokens) = Some (List.map FTS5.bareword tokens).
Proof.
  induction 1 as [| w rest Hw Hrest IH]; [contradiction |]. intros _.
  destruct rest as [| w2 rest'].
  - simpl. rewrite <- (List.app_nil_r w) at 1. now rewrite lex_word.
  - rewrite unwords_cons, lex_word by (discriminate || assumption).
    cbn [FTS5.lex]. change (FTS5.is_bareword " ") with false. cbv iota.
    change (FTS5.start " ") with (Some (FTS5.Outside, @nil FTS5.token)).
    cbv iota beta. rewrite IH by discriminate. reflexivity.
Qed.

(** The tokens of [keywords.join(" OR ")]. *)
Fixpoint orTokens (keywords : list string) : list (list ascii) :=
  match keywords with
  | [] => []
  | [k] => [chars k]
  | k :: rest => chars k :: chars "OR" :: orTokens rest
  end.

Lemma chars_app (a b : string) : chars (a ++ b) = chars a ++ chars b.
Proof.
  unfold chars. induction a as [| c a IH]; [reflexivity |].
  change (String c a ++ b)%string with (String c (a ++ b)). simpl. now rewrite IH.
Qed.

Lemma orQuery_unwords (keywords : list string) :
  chars (orQuery keywords) = unwords (orTokens keywords).
Proof.
  unfold orQuery. induction keywords as [| k rest IH]; [reflexivity |].
  destruct rest as [| k2 rest']; [reflexivity |].
  change (join " OR " (k :: k2 :: rest'))
    with (k ++ " OR " ++ join " OR " (k2 :: rest'))%string.
  rewrite !chars_app, IH.
  change (orTokens (k :: k2 :: rest'))
    with (chars k :: chars "OR" :: orTokens (k2 :: rest')).
  rewrite unwords_cons by discriminate.
  rewrite unwords_cons by (destruct rest'; discriminate).
  reflexivity.
Qed.

(** What [extractKeywords] guarantees of a keyword. *)
Definition keyword (k : string) : Prop :=
  3 < String.length k /\ forallb keyword_char (chars k) = true.

Lemma keyword_word (k : string) : keyword k -> word (chars k).
Proof.
  intros [Hlong Hchars]. split.
  - destruct k; [simpl in Hlong; lia | discriminate].
  - apply List.Forall_forall. intros c Hc.
    apply keyword_char_word. rewrite List.forallb_forall in Hchars. now apply Hchars.
Qed.

Lemma eqb_length (a b : string) :
  String.length a <> String.length b -> String.eqb a b = false.
Proof. intros H. destruct (String.eqb_spec a b); [subst; contradiction | reflexivity]. Qed.

Lemma keyword_bareword (k : string) :
  keyword k -> FTS5.bareword (chars k) = FTS5.STRING.
Proof.
  intros [Hlong _]. unfold FTS5.bareword, chars.
  rewrite string_of_list_ascii_of_string.
  rewrite !eqb_length; [reflexivity | simpl; lia ..].
Qed.

Lemma orTokens_words (keywords : list string) :
  Forall keyword keywords -> Forall word (orTokens keywords).
Proof.
  induction 1 as [| k rest Hk _ IH]; [constructor |].
  destruct rest as [| k2 rest'].
  - constructor; [now apply keyword_word | constructor].
  - change (orTokens (k :: k2 :: rest'))
      with (chars k :: chars "OR" :: orTokens (k2 :: rest')).
    constructor; [now apply keyword_word |].
    constructor; [| exact IH].
    split; [discriminate | repeat constructor].
Qed.

Lemma orTokens_expr (keywords : list string) :
  Forall keyword keywords -> keywords <> [] ->
  let tokens := List.map FTS5.bareword (orTokens keywords) in
  existsb FTS5.is_punct tokens = false /\ FTS5.expr true tokens = true.
Proof.
  induction 1 as [| k rest Hk _ IH]; [contradiction |]. intros _.
  destruct rest as [| k2 rest'].
  - simpl. rewrite (keyword_bareword k Hk). auto.
  - change (orTokens (k :: k2 :: rest'))
      with (chars k :: chars "OR" :: orTokens (k2 :: rest')).
    cbn [List.map]. rewrite (keyword_bareword k Hk).
    change (FTS5.bareword (chars "OR")) with FTS5.OR.
    destruct (IH ltac:(discriminate)) as [Hpunct Hexpr].
    cbn [existsb FTS5.is_punct orb FTS5.expr]. auto.
Qed.

Lemma tidy_no_nul (s : list ascii) :
  Forall (fun c => tidy c = true) s -> existsb (Ascii.eqb zero) s = false.
Proof.
  induction 1 as [| a l Ha _ IHl]; [reflexivity |].
  cbn [existsb]. destruct (tidy_char a Ha) as (_ & _ & _ & _ & ->). exact IHl.
Qed.

(** A query made of keywords joined by OR passes the sanitizer and is
    accepted by the engine. *)
Lemma orQuery_accepted (keywords : list string) :
  Forall keyword keywords -> keywords <> [] ->
  FTS5.parse (prepareFTS5Query (orQuery keywords)) = FTS5.Accepted.
Proof.
  intros Hk Hne.
  assert (Hwords : Forall word (orTokens keywords)) by now apply orTokens_words.
  assert (Htokens : orTokens keywords <> []).
  { destruct keywords as [| k [| k2 rest]]; [contradiction | discriminate ..]. }
  unfold prepareFTS5Query.
  rewrite orQuery_unwords, tagless_unwords by assumption.
  destruct (unwords_starts _ Hwords Htokens) as (c & r & Heq & _).
  rewrite Heq. rewrite <- Heq.
  destruct (hasFTS5Operators (unwords (orTokens keywords))).
  - rewrite residue_unwords by assumption.
    unfold FTS5.parse, chars. rewrite list_ascii_of_string_of_list_ascii.
    rewrite tidy_no_nul by now apply unwords_tidy.
    rewrite lex_unwords by assumption.
    destruct (orTokens_expr keywords Hk Hne) as [-> ->]. reflexivity.
  - apply parse_quoted, Phrase_residue.
Qed.

Lemma keywordsOf_all_keywords (text : string) : Forall keyword (keywordsOf text).
Proof.
  apply List.Forall_forall. intros k Hk.
  destruct (keywordsOf_keywords text k Hk) as (Hlong & Hchars & _).
  now split.
Qed.

Lemma firstn_nonempty {A : Type} (n : nat) (l : list A) :
  l <> [] -> List.firstn (S n) l <> [].
Proof. destruct l; [contradiction | discriminate]. Qed.

(** The queries that [findSimilar] and [searchByContent] build from the
    keywords of a text are always accepted by the full-text engine, once
    through the sanitizer. *)
Theorem keyword_queries_accepted (text : value) (keywords : list string) :
  extractKeywords text = Ok keywords ->
  keywords <> [] ->
  FTS5.parse (prepareFTS5Query (orQuery keywords)) = FTS5.Accepted /\
  FTS5.parse (prepareFTS5Query (orQuery (List.firstn 5 keywords))) = FTS5.Accepted.
Proof.
  intros H Hne.
  destruct (extractKeywords_cases _ _ H) as [-> | (s & _ & ->)]; [contradiction |].
  pose proof (keywordsOf_all_keywords s) as Hall. split.
  - now apply orQuery_accepted.
  - apply orQuery_accepted; [| now apply firstn_nonempty].
    apply List.Forall_forall. intros k Hk.
    rewrite List.Forall_forall in Hall. apply Hall.
    now apply firstn_In in Hk.
Qed.

Lemma keyword_queries_accepted_witness :
  orQuery ["retry"; "policy"; "payment"; "gateway"]
  = "retry OR policy OR payment OR gateway" /\
  FTS5.parse (prepareFTS5Query (orQuery ["retry"; "policy"; "payment"; "gateway"]))
  = FTS5.Accepted /\
  FTS5.parse (prepareFTS5Query
                (orQuery (List.firstn 5 ["retry"; "policy"; "payment"; "gateway"])))
  = FTS5.Accepted.
Proof.
  split; [reflexivity |].
  apply (keyword_queries_accepted (VStr "The retry policy of the payment gateway")).
  - reflexivity.
  - discriminate.
Defined.

(** *** Limits *)

Lemma truncate_le (q : Q) : (0 <= q)%Q -> (inject_Z (truncate q) <= q)%Q.
Proof.
  intros H. unfold truncate.
  assert (Hnum : (0 <= Qnum q)%Z).
  { unfold Qle in H. simpl in H. lia. }
  rewrite Z.quot_div_nonneg by lia.
  pose proof (Qfloor_le q) as Hfloor. destruct q as [n d]. exact Hfloor.
Qed.

Lemma truncate_nonneg (q : Q) : (0 <= q)%Q -> (0 <= truncate q)%Z.
Proof.
  intros H. unfold truncate.
  assert (Hnum : (0 <= Qnum q)%Z).
  { unfold Qle in H. simpl in H. lia. }
  apply Z.quot_pos; lia.
Qed.

Lemma sliceTo_length (limit : Q) (items : list value) :
  (0 <= limit)%Q ->
  (inject_Z (Z.of_nat (List.length (sliceTo limit items))) <= limit)%Q.
Proof.
  intros H. unfold sliceTo.
  pose proof (truncate_nonneg limit H) as Hn.
  destruct (truncate limit <? 0)%Z eqn:Hneg; [lia |].
  eapply Qle_trans; [| apply (truncate_le limit H)].
  rewrite <- Zle_Qle, List.length_firstn. lia.
Qed.

Lemma sliceTo_In (limit : Q) (items : list value) (x : value) :
  In x (sliceTo limit items) -> In x items.
Proof. unfold sliceTo. apply firstn_In. Qed.

(** [searchWithExpansion] returns at most [limit] results, however many
    the database answers. *)
Theorem searchWithExpansion_at_most_limit (db : Database) (options : value)
    (limit : Q) (results : list value) :
  option_or "limit" (num 10) options = Ok (VNum limit) ->
  (0 <= limit)%Q ->
  searchWithExpansion db options = Ok results ->
  (inject_Z (Z.of_nat (List.length results)) <= limit)%Q.
Proof.
  intros Hlimit Hpos. unfold searchWithExpansion.
  destruct (get "query" options) as [query | |]; [| discriminate | discriminate].
  rewrite bind_ok, Hlimit, bind_ok.
  destruct (extractKeywords query) as [keywords | |]; [| discriminate | discriminate].
  rewrite bind_ok. cbn [number]. rewrite bind_ok.
  destruct (searchMemories db _) as [found | |]; [| discriminate | discriminate].
  rewrite bind_ok.
  match goal with
  | |- (?m ≫= _) = _ -> _ => destruct m as [expanded | |]; [| discriminate | discriminate]
  end.
  rewrite bind_ok. intros [= <-]. now apply sliceTo_length.
Qed.

(** A row as [searchMemories] hands it back when only its id is set. *)
Definition memoryRow (id : Z) : value :=
  VObj [ ("id", num id); ("sessionId", VNull); ("content", VUndefined);
         ("type", VUndefined); ("category", VNull);
         ("importance", VNum (1 # 2)); ("surpriseScore", num 0);
         ("accessCount", num 0); ("decayFactor", num 1);
         ("sourceTurnId", VNull); ("createdAt", VUndefined);
         ("updatedAt", VUndefined); ("lastAccessedAt", VNull);
         ("metadata", VObj []); ("rank", VUndefined) ].

(** A database that answers every query with the same three rows. *)
Definition threeRows : Database :=
  {| all := fun _ _ =>
       inl [ VObj [("id", num 1)]; VObj [("id", num 2)]; VObj [("id", num 3)] ];
     JSON_parse := fun v => inl v |}.

Lemma searchWithExpansion_at_most_limit_witness :
  searchWithExpansion threeRows
    (VObj [("query", VStr "circuit breaker"); ("limit", num 2)])
  = Ok [memoryRow 1; memoryRow 2] /\
  (inject_Z (Z.of_nat (List.length [memoryRow 1; memoryRow 2])) <= inject_Z 2)%Q.
Proof.
  split; [reflexivity |].
  apply (searchWithExpansion_at_most_limit threeRows
           (VObj [("query", VStr "circuit breaker"); ("limit", num 2)])).
  - reflexivity.
  - discriminate.
  - reflexivity.
Defined.

(** A query that is not a string, such as a number, makes
    [searchWithExpansion] raise a TypeError, where [searchMemories] answers
    an empty list. *)
Theorem searchWithExpansion_rejects_non_string_query (db : Database)
    (options : list (string * value)) (query : value) :
  assoc "query" options = Some query ->
  truthy query = true ->
  isString query = false ->
  searchWithExpansion db (VObj options) = Throw TypeError /\
  searchMemories db (VObj options) = Ok [].
Proof.
  intros Hquery Htruthy Hstring. split.
  - unfold searchWithExpansion, option_or. cbn [get]. rewrite Hquery, !bind_ok.
    unfold extractKeywords. rewrite Htruthy. cbn [negb].
    destruct query; try discriminate; reflexivity.
  - unfold searchMemories, option_or. cbn [get]. rewrite Hquery, !bind_ok.
    destruct query; try discriminate; reflexivity.
Qed.

Lemma searchWithExpansion_rejects_witness :
  searchWithExpansion threeRows (VObj [("query", num 42)]) = Throw TypeError /\
  searchMemories threeRows (VObj [("query", num 42)]) = Ok [].
Proof.
  apply (searchWithExpansion_rejects_non_string_query threeRows
           [("query", num 42)] (num 42)); reflexivity.
Defined.

(** No result of [findSimilar] has the id of the memory asked about. *)
Theorem findSimilar_excludes_the_memory (getMemory : value -> value + value)
    (db : Database) (memoryId limit : value) (results : list value) (r : value) :
  findSimilar getMemory db memoryId limit = Ok results ->
  In r results ->
  exists id, get "id" r = Ok id /\ strict_eq id memoryId = false.
Proof.
  unfold findSimilar.
  destruct (outcome (getMemory memoryId)) as [memory | |];
    [| discriminate | discriminate].
  rewrite bind_ok. destruct (negb (truthy memory)).
  { destruct (to_string memoryId); discriminate. }
  destruct (get "content" memory) as [content | |]; [| discriminate | discriminate].
  rewrite bind_ok.
  destruct (extractKeywords content) as [[| k ks] | |];
    [| | discriminate | discriminate]; rewrite bind_ok.
  { intros [= <-] []. }
  destruct (number _) as [n | |]; [| discriminate | discriminate].
  rewrite bind_ok.
  destruct (searchMemories db _) as [found | |]; [| discriminate | discriminate].
  rewrite bind_ok.
  destruct (filterR _ found) as [others | |] eqn:Hothers;
    [| discriminate | discriminate].
  rewrite bind_ok. intros [= <-] Hr. apply sliceTo_In in Hr.
  destruct (filterR_In _ _ _ Hothers r Hr) as [_ Hkept].
  destruct (get "id" r) as [id | |]; [| discriminate | discriminate].
  rewrite bind_ok in Hkept. injection Hkept as Hkept.
  exists id. split; [reflexivity |]. now apply Bool.negb_true_iff.
Qed.

Definition storedMemory : value -> value + value :=
  fun _ => inl (VObj [("id", num 2); ("content", VStr "circuit breaker settings")]).

Lemma findSimilar_excludes_witness :
  findSimilar storedMemory threeRows (num 2) VUndefined
  = Ok [memoryRow 1; memoryRow 3] /\
  exists id, get "id" (memoryRow 3) = Ok id /\ strict_eq id (num 2) = false.
Proof.
  split; [reflexivity |].
  apply (findSimilar_excludes_the_memory storedMemory threeRows (num 2) VUndefined
           [memoryRow 1; memoryRow 3]).
  - reflexivity.
  - simpl. auto.
Defined.

End KeywordFacts.

(** ** The memory search: a database that refuses the query *)

Module SearchRunFacts.
Import Search SearchFacts.

(** A database whose full-text engine raises on every query. *)
Definition failingDatabase : Database :=
  {| all := fun _ _ => inr (mkError "fts5: syntax error near AND");
     JSON_parse := fun v => inl v |}.

Lemma searchMemories_engine_error_witness :
  searchMemories failingDatabase (VObj [("query", VStr "backup AND")]) = Ok [].
Proof.
  apply (searchMemories_engine_error failingDatabase).
  intros sql params. now eexists.
Defined.

End SearchRunFacts.

(** ** The memory extraction pipeline *)

Module ExtractorFacts.
Import Extractor.

(** The base importance of each memory type, as the specification gives
    it. *)
Definition base_by_type (type : string) : option Q :=
  if String.eqb type "preference" then Some (7 # 10)%Q
  else if String.eqb type "decision" then Some (8 # 10)%Q
  else if String.eqb type "fact" then Some (6 # 10)%Q
  else if String.eqb type "entity" then Some (4 # 10)%Q
  else if String.eqb type "relationship" then Some (5 # 10)%Q
  else None.

(** What the specification says of a stored memory, for a threshold [t]. *)
Definition Sound (t : Q) (m : NewMemory) : Prop :=
  (t <= surpriseScore m)%Q /\
  (exists base, base_by_type (type m) = Some base /\
     (importance m == Qmin 1 (base + (3 # 10) * surpriseScore m))%Q) /\
  (0 <= importance m <= 1)%Q.

Lemma calculateInitialImportance_by_type (type : string) (base s : Q) :
  base_by_type type = Some base ->
  calculateInitialImportance type s = Ok (Qmin 1 (base + s * (3 # 10)))%Q.
Proof.
  unfold base_by_type. intros H.
  repeat match type of H with
         | (if String.eqb ?a ?b then _ else _) = _ =>
             destruct (String.eqb_spec a b) as [-> |]
         end; try discriminate; injection H as <-; reflexivity.
Qed.

Lemma base_by_type_nonneg (type : string) (base : Q) :
  base_by_type type = Some base -> (0 <= base)%Q.
Proof.
  unfold base_by_type. intros H.
  repeat match type of H with
         | (if ?b then _ else _) = _ => destruct b
         end; try discriminate; injection H as <-; discriminate.
Qed.

Lemma importance_range (base s : Q) :
  (0 <= base)%Q -> (0 <= s)%Q -> (0 <= Qmin 1 (base + s * (3 # 10)) <= 1)%Q.
Proof.
  intros Hb Hs. split.
  - apply Q.min_glb; [discriminate |].
    replace 0%Q with (0 + 0)%Q by reflexivity.
    apply Qplus_le_compat; [exact Hb |].
    apply Qmult_le_0_compat; [exact Hs | discriminate].
  - apply Q.le_min_l.
Qed.

Lemma importance_as_specified (base s : Q) :
  (Qmin 1 (base + s * (3 # 10)) == Qmin 1 (base + (3 # 10) * s))%Q.
Proof. now rewrite (Qmult_comm s). Qed.

Section WithCollaborators.

Context {store : Type}.
Variable w : Collaborators store.

(** The contract of ./surprise: a score is not negative. *)
Hypothesis surprise_nonneg :
  forall candidate existing userContent s,
    calculateSurprise w candidate existing userContent = inl s -> (0 <= s)%Q.

(** A computation keeps the records handed to the store sound. *)
Definition keeps {A : Type} (m : @P store A) : Prop :=
  forall st : @State store,
    Forall (Sound (threshold w)) (snd st) ->
    Forall (Sound (threshold w)) (snd (snd (m st))).

Lemma keeps_ret {A : Type} (a : A) : keeps (mret a).
Proof. intros st H. exact H. Qed.

Lemma keeps_pure {A : Type} (r : result A) : keeps (ofResult r).
Proof. intros st H. exact H. Qed.

Lemma keeps_bind {A B : Type} (m : @P store A) (f : A -> @P store B) :
  keeps m -> (forall a, keeps (f a)) -> keeps (m ≫= f).
Proof.
  intros Hm Hf st H. specialize (Hm st H).
  unfold mbind, P_bind. destruct (m st) as [[a | e |] st']; simpl in *; auto.
  now apply Hf.
Qed.

Lemma keeps_bind_pure {A B : Type} (r : result A) (f : A -> @P store B) :
  (forall a, r = Ok a -> keeps (f a)) -> keeps (ofResult r ≫= f).
Proof.
  intros Hf st H. unfold mbind, P_bind, ofResult.
  destruct r as [a | e |]; simpl; auto. now apply Hf.
Qed.

Lemma keeps_try_catch {A : Type} (m : @P store A) (handler : value -> @P store A) :
  keeps m -> (forall e, keeps (handler e)) -> keeps (tryCatch m handler).
Proof.
  intros Hm Hh st H. specialize (Hm st H). unfold tryCatch.
  destruct (m st) as [[a | e |] st']; simpl in *; auto. now apply Hh.
Qed.

Lemma keeps_recent (limit : Z) (session : value) : keeps (recent w limit session).
Proof.
  intros st H. unfold recent. destruct (getRecentMemories _ _ _ _). exact H.
Qed.

Lemma keeps_track (name : string) : keeps (track w name).
Proof. intros st H. unfold track. destruct (trackEntity _ _ _). exact H. Qed.

Lemma keeps_hand (memory : NewMemory) :
  Sound (threshold w) memory -> keeps (hand w memory).
Proof.
  intros Hm st H. unfold hand. destruct (createMemory _ _ _). simpl.
  apply Forall_app. split; [exact H | now constructor].
Qed.

Lemma keeps_createMemoryWithSurprise (options : Options) (base : Q) :
  base_by_type (o_type options) = Some base ->
  keeps (createMemoryWithSurprise w options).
Proof.
  intros Hbase. unfold createMemoryWithSurprise.
  apply keeps_bind; [apply keeps_recent |]. intros existing.
  apply keeps_bind_pure. intros s Hs.
  destruct (calculateSurprise _ _ _ _) as [s' | e] eqn:Hcalc; [| discriminate].
  injection Hs as ->. apply surprise_nonneg in Hcalc.
  destruct (Qlt_bool s (threshold w)) eqn:Hlt; [apply keeps_ret |].
  rewrite (calculateInitialImportance_by_type _ base s Hbase).
  apply keeps_bind_pure. intros importance [= <-].
  apply keeps_try_catch; [| intros e; apply keeps_ret].
  apply keeps_hand. unfold Sound. simpl. split; [| split].
  - unfold Qlt_bool in Hlt. apply Bool.negb_false_iff in Hlt.
    now apply Qle_bool_iff.
  - exists base. split; [exact Hbase | apply importance_as_specified].
  - apply importance_range; [| exact Hcalc].
    now apply (base_by_type_nonneg (o_type options)).
Qed.

Lemma keeps_forEach {A : Type} (body : A -> @P store value) (l : list A) :
  (forall x, keeps (body x)) -> keeps (forEach body l).
Proof.
  intros Hbody. induction l as [| x rest IH]; simpl; [apply keeps_ret |].
  apply keeps_bind; [apply Hbody |]. intros memory.
  apply keeps_bind; [exact IH |]. intros others. apply keeps_ret.
Qed.

Lemma keeps_createAll (session : value) (userContent : string) (found : Candidates) :
  keeps (createAll w session userContent found).
Proof.
  unfold createAll.
  repeat (apply keeps_bind;
          [apply keeps_forEach; intros x;
           try (unfold entityMemory; apply keeps_bind; [apply keeps_track | intros _]);
           try unfold relationshipMemory;
           eapply keeps_createMemoryWithSurprise; reflexivity
          | intros ?]).
  apply keeps_ret.
Qed.

Lemma keeps_extractMemories (assistantResponse conversationMessages context : value) :
  keeps (extractMemories w assistantResponse conversationMessages context).
Proof.
  unfold extractMemories.
  destruct (negb _); [apply keeps_ret |].
  apply keeps_bind_pure. intros session0 _.
  apply keeps_try_catch; [| intros e; apply keeps_ret].
  destruct (String.eqb _ _); [apply keeps_ret |].
  apply keeps_bind_pure. intros last _. apply keeps_createAll.
Qed.

(** C8.  Every record that a run of [extractMemories] hands to the store
    has a surprise score at or above the configured threshold (0.3 by
    default), an importance equal to min(1, base + 0.3 x surprise) for the
    base of its type (preference 0.7, decision 0.8, fact 0.6, entity 0.4,
    relationship 0.5), and so an importance between 0 and 1; a candidate
    scored below the threshold is not among them. *)
Theorem extractMemories_stores_sound_memories
    (assistantResponse conversationMessages context : value) (st : store) :
  Forall (Sound (threshold w))
         (snd (snd (extractMemories w assistantResponse conversationMessages context
                                    (st, [])))).
Proof. apply keeps_extractMemories. constructor. Qed.

(** A candidate scored below the threshold is dropped before the store is
    asked to create anything. *)
Lemma createMemoryWithSurprise_below_threshold (options : Options) (st : @State store) (s : Q) :
  (forall existing, calculateSurprise w
                      (o_content options, o_type options, o_category options)
                      existing (o_userContent options) = inl s) ->
  (s < threshold w)%Q ->
  snd (snd (createMemoryWithSurprise w options st)) = snd st.
Proof.
  intros Hcalc Hlt. unfold createMemoryWithSurprise, recent, mbind, P_bind, ofResult.
  destruct (getRecentMemories _ _ _ _) as [[existing | e] st']; simpl; [| reflexivity].
  rewrite Hcalc. simpl.
  assert (Hb : Qlt_bool s (threshold w) = true).
  { unfold Qlt_bool. apply Bool.negb_true_iff.
    destruct (Qle_bool (threshold w) s) eqn:Hle; [| reflexivity].
    apply Qle_bool_iff in Hle. exfalso. now apply (Qlt_not_le _ _ Hlt). }
  rewrite Hb. reflexivity.
Qed.

End WithCollaborators.

(** *** A run *)

(** A store that keeps what it is handed, and a surprise calculation that
    finds the mention of an entity unsurprising. *)
Definition listStore : Collaborators (list NewMemory) :=
  {| config := mkConfig true None;
     getRecentMemories := fun _ _ st => (inl [], st);
     createMemory := fun m st => (inl (VObj [("content", VStr (content m))]), st ++ [m]);
     trackEntity := fun _ st => (inl tt, st);
     calculateSurprise := fun c _ _ =>
       inl (if String.eqb (snd (fst c)) "entity" then (1 # 10)%Q else (9 # 10)%Q);
     now := 0;
     extractContent := fun v => match v with VStr s => s | _ => EmptyString end;
     candidates := fun _ =>
       mkCandidates ["tabs over spaces"] ["going with SQLite"] [] ["store.js"] [] |}.

Definition listStoreRun : result (list value) * @State (list NewMemory) :=
  extractMemories listStore (VStr "I prefer tabs over spaces") VUndefined VUndefined
                  ([], []).

Lemma extractMemories_stores_sound_witness :
  List.map (fun m => (type m, importance m, surpriseScore m)) (snd (snd listStoreRun))
  = [ ("preference", Qmin 1 ((7 # 10) + (9 # 10) * (3 # 10)), (9 # 10));
      ("decision", Qmin 1 ((8 # 10) + (9 # 10) * (3 # 10)), (9 # 10)) ]%Q /\
  Forall (Sound (threshold listStore)) (snd (snd listStoreRun)).
Proof.
  split.
  - reflexivity.
  - apply (extractMemories_stores_sound_memories listStore).
    intros [[c t] k] existing userContent s. simpl.
    destruct (String.eqb t "entity"); intros [= <-]; discriminate.
Defined.

End ExtractorFacts.

(** ** The memory extraction module: failures and counts *)

Module ExtractionFacts.
Import Extractor ExtractorFacts.

Section WithCollaborators.

Context {store : Type}.
Variable w : Collaborators store.

(** *** No exception leaves [extractMemories] *)

(** A computation answers or raises: it stays within what is modelled. *)
Definition settles {A : Type} (m : @P store A) : Prop :=
  forall st, fst (m st) <> Unmodelled.

Lemma settles_ret {A : Type} (a : A) : settles (mret a).
Proof. intros st. discriminate. Qed.

Lemma settles_outcome {A : Type} (o : A + value) : settles (ofResult (outcome o)).
Proof. intros st. destruct o; discriminate. Qed.

Lemma settles_bind {A B : Type} (m : @P store A) (f : A -> @P store B) :
  settles m -> (forall a, settles (f a)) -> settles (m ≫= f).
Proof.
  intros Hm Hf st. specialize (Hm st). unfold mbind, P_bind.
  destruct (m st) as [[a | e |] st']; simpl in *; [apply Hf | discriminate | now contradiction Hm].
Qed.

Lemma settles_tryCatch {A : Type} (m : @P store A) (handler : value -> @P store A) :
  settles m -> (forall e, settles (handler e)) -> settles (tryCatch m handler).
Proof.
  intros Hm Hh st. specialize (Hm st). unfold tryCatch.
  destruct (m st) as [[a | e |] st']; simpl in *; [discriminate | apply Hh | exact Hm].
Qed.

Lemma settles_recent (limit : Z) (session : value) : settles (recent w limit session).
Proof.
  intros st. unfold recent. destruct (getRecentMemories _ _ _ _) as [[l | e] st'];
    discriminate.
Qed.

Lemma settles_track (name : string) : settles (track w name).
Proof.
  intros st. unfold track. destruct (trackEntity _ _ _) as [[u | e] st']; discriminate.
Qed.

Lemma settles_hand (memory : NewMemory) : settles (hand w memory).
Proof.
  intros st. unfold hand. destruct (createMemory _ _ _) as [[v | e] st']; discriminate.
Qed.

Lemma settles_createMemoryWithSurprise (options : Options) (base : Q) :
  base_by_type (o_type options) = Some base ->
  settles (createMemoryWithSurprise w options).
Proof.
  intros Hbase. unfold createMemoryWithSurprise.
  apply settles_bind; [apply settles_recent |]. intros existing.
  apply settles_bind; [apply settles_outcome |]. intros s.
  destruct (Qlt_bool s (threshold w)); [apply settles_ret |].
  rewrite (calculateInitialImportance_by_type _ base s Hbase).
  apply settles_bind; [intros st; discriminate |]. intros importance.
  apply settles_tryCatch; [apply settles_hand | intros e; apply settles_ret].
Qed.

Lemma settles_forEach {A : Type} (body : A -> @P store value) (l : list A) :
  (forall x, settles (body x)) -> settles (forEach body l).
Proof.
  intros Hbody. induction l as [| x rest IH]; simpl; [apply settles_ret |].
  apply settles_bind; [apply Hbody |]. intros memory.
  apply settles_bind; [exact IH |]. intros others. apply settles_ret.
Qed.

Lemma settles_createAll (session : value) (userContent : string) (found : Candidates) :
  settles (createAll w session userContent found).
Proof.
  unfold createAll.
  repeat (apply settles_bind;
          [apply settles_forEach; intros x;
           try (unfold entityMemory; apply settles_bind; [apply settles_track | intros _]);
           try unfold relationshipMemory;
           eapply settles_createMemoryWithSurprise; reflexivity
          | intros ?]).
  apply settles_ret.
Qed.

Lemma lastUserMessage_settles (conversationMessages : value) :
  lastUserMessage conversationMessages <> Unmodelled.
Proof.
  destruct conversationMessages as [| | | | | messages | |]; try discriminate.
  simpl.
  assert (H : forall l : list value,
             filterR (fun m => role ← get "role" m; Ok (is_str "user" role)) l
             <> Unmodelled).
  { induction l as [| m rest IH]; simpl; [discriminate |].
    destruct (get "role" m) as [role | e |] eqn:Hr; simpl; try discriminate.
    - destruct (filterR _ rest); simpl; [discriminate | discriminate | exact IH].
    - destruct m; discriminate Hr. }
  specialize (H messages). destruct (filterR _ messages); simpl;
    [discriminate | discriminate | now contradiction H].
Qed.

(** Whatever the store, the surprise calculation or the messages do,
    [extractMemories] raises nothing and answers a list, for every context
    but [null] (whose [sessionId] is read before the [try]). *)
Theorem extractMemories_never_raises
    (assistantResponse conversationMessages context : value) (st : @State store) :
  context <> VNull ->
  exists memories st',
    extractMemories w assistantResponse conversationMessages context st
    = (Ok memories, st').
Proof.
  intros Hc. unfold extractMemories.
  destruct (negb _); [now eexists; eexists |].
  assert (Hs : exists session0,
             get "sessionId" match context with VUndefined => VObj [] | _ => context end
             = Ok session0)
    by (destruct context; simpl; eauto; contradiction).
  destruct Hs as [session0 ->].
  unfold mbind at 1, P_bind at 1, ofResult at 1.
  unfold tryCatch.
  match goal with
  | |- context [match ?body st with _ => _ end] =>
      assert (Hb : fst (body st) <> Unmodelled); [| destruct (body st) as [[l | e |] st1]]
  end.
  - destruct (String.eqb _ _); [discriminate |].
    apply settles_bind; [| intros last; apply settles_createAll].
    intros st0. apply lastUserMessage_settles.
  - now eexists; eexists.
  - now eexists; eexists.
  - now contradiction Hb.
Qed.

(** *** How many memories *)

Definition count (found : Candidates) : nat :=
  List.length (preferences found) + List.length (decisions found)
  + List.length (facts found) + List.length (entities found)
  + List.length (relationships found).

(** A computation hands at most [n] records to the store, and answers at
    most as many memories as it handed records. *)
Definition hands {A : Type} (n : nat) (size : A -> nat) (m : @P store A) : Prop :=
  forall st, exists new,
    snd (snd (m st)) = snd st ++ new /\
    List.length new <= n /\
    forall a, fst (m st) = Ok a -> size a <= List.length new.

Definition made (memory : value) : nat := if truthy memory then 1 else 0.

Lemma hands_ret {A : Type} (size : A -> nat) (a : A) :
  size a = 0 -> hands 0 size (mret a).
Proof.
  intros Hz st. exists []. simpl. rewrite List.app_nil_r.
  repeat split; [lia |]. intros a' [= <-]. simpl. lia.
Qed.

Lemma hands_weaken {A : Type} (n n' : nat) (size : A -> nat) (m : @P store A) :
  n <= n' -> hands n size m -> hands n' size m.
Proof.
  intros Hle Hm st. destruct (Hm st) as (new & H1 & H2 & H3).
  exists new. repeat split; [exact H1 | lia | exact H3].
Qed.

(** A step that hands nothing, before a computation that does. *)
Lemma hands_after {A B : Type} (n : nat) (size : B -> nat)
    (m : @P store A) (f : A -> @P store B) :
  (forall st, snd (snd (m st)) = snd st) ->
  (forall a, hands n size (f a)) ->
  hands n size (m ≫= f).
Proof.
  intros Hm Hf st. unfold mbind, P_bind. specialize (Hm st).
  destruct (m st) as [[a | e |] st1]; simpl in *.
  - destruct (Hf a st1) as (new & H1 & H2 & H3). exists new. now rewrite <- Hm.
  - exists []. rewrite List.app_nil_r. repeat split; [exact Hm | simpl; lia | discriminate].
  - exists []. rewrite List.app_nil_r. repeat split; [exact Hm | simpl; lia | discriminate].
Qed.

Lemma hands_createMemoryWithSurprise (options : Options) :
  hands 1 made (createMemoryWithSurprise w options).
Proof.
  unfold createMemoryWithSurprise.
  apply hands_after.
  { intros st. unfold recent. now destruct (getRecentMemories _ _ _ _). }
  intros existing. apply hands_after; [reflexivity |]. intros s.
  destruct (Qlt_bool s (threshold w)).
  { apply (hands_weaken 0); [lia | now apply hands_ret]. }
  apply hands_after; [reflexivity |]. intros importance st.
  unfold tryCatch, hand.
  destruct (createMemory _ _ _) as [[v | e] st1]; simpl;
    (eexists [_]; repeat split; [simpl; lia |]).
  - intros a [= <-]. unfold made. destruct (truthy v); simpl; lia.
  - intros a [= <-]. unfold made. simpl. lia.
Qed.

Lemma hands_forEach {A : Type} (body : A -> @P store value) (l : list A) :
  (forall x, hands 1 made (body x)) ->
  hands (List.length l) (@List.length value) (forEach body l).
Proof.
  intros Hbody. induction l as [| x rest IH]; simpl.
  { now apply hands_ret. }
  intros st. unfold mbind, P_bind.
  destruct (Hbody x st) as (n1 & G1 & L1 & S1).
  destruct (body x st) as [[memory | e |] st1]; simpl in *.
  - destruct (IH st1) as (n2 & G2 & L2 & S2).
    destruct (forEach body rest st1) as [[others | e |] st2]; simpl in *;
      exists (n1 ++ n2); rewrite G2, G1, <- List.app_assoc, List.length_app;
      (repeat split; [lia |]); try discriminate.
    intros a [= <-]. specialize (S1 _ eq_refl). specialize (S2 _ eq_refl).
    unfold made in S1. destruct (truthy memory); simpl; lia.
  - exists n1. repeat split; [exact G1 | lia | discriminate].
  - exists n1. repeat split; [exact G1 | lia | discriminate].
Qed.

Lemma hands_bind_lists {B : Type} (n1 n2 : nat) (size : B -> nat)
    (m : @P store (list value)) (f : list value -> @P store B) :
  hands n1 (@List.length value) m ->
  (forall l, hands n2 (fun b => size b - List.length l) (f l)) ->
  hands (n1 + n2) size (m ≫= f).
Proof.
  intros Hm Hf st. unfold mbind, P_bind.
  destruct (Hm st) as (new1 & G1 & L1 & S1).
  destruct (m st) as [[l | e |] st1]; simpl in *.
  - destruct (Hf l st1) as (new2 & G2 & L2 & S2).
    exists (new1 ++ new2). rewrite G2, G1, <- List.app_assoc, List.length_app.
    repeat split; [lia |]. intros b Hb.
    specialize (S1 _ eq_refl). specialize (S2 _ Hb). lia.
  - exists new1. repeat split; [exact G1 | lia | discriminate].
  - exists new1. repeat split; [exact G1 | lia | discriminate].
Qed.

Lemma hands_entityMemory (session : value) (userContent name : string) :
  hands 1 made (entityMemory w session userContent name).
Proof.
  unfold entityMemory. apply hands_after; [| intros _; apply hands_createMemoryWithSurprise].
  intros st. unfold track. now destruct (trackEntity _ _ _).
Qed.

Lemma hands_createAll (session : value) (userContent : string) (found : Candidates) :
  hands (count found) (@List.length value) (createAll w session userContent found).
Proof.
  unfold createAll, count.
  rewrite <- !Nat.add_assoc.
  apply hands_bind_lists;
    [apply hands_forEach; intros; apply hands_createMemoryWithSurprise | intros m1].
  apply hands_bind_lists;
    [apply hands_forEach; intros; apply hands_createMemoryWithSurprise | intros m2].
  apply hands_bind_lists;
    [apply hands_forEach; intros; apply hands_createMemoryWithSurprise | intros m3].
  apply hands_bind_lists;
    [apply hands_forEach; intros; apply hands_entityMemory | intros m4].
  replace (List.length (relationships found))
    with (List.length (relationships found) + 0) by lia.
  apply hands_bind_lists;
    [apply hands_forEach; intros; apply hands_createMemoryWithSurprise | intros m5].
  apply hands_ret. rewrite !List.length_app. lia.
Qed.

Lemma hands_tryCatch (n : nat) (m : @P store (list value)) :
  hands n (@List.length value) m ->
  hands n (@List.length value) (tryCatch m (fun err => mret [])).
Proof.
  intros Hm st. destruct (Hm st) as (new & G & L & S). unfold tryCatch.
  destruct (m st) as [[l | e |] st1]; simpl in *; exists new;
    (repeat split; [exact G | exact L |]).
  - exact S.
  - intros a [= <-]. simpl. lia.
  - discriminate.
Qed.

Lemma hands_extractMemories (assistantResponse conversationMessages context : value) :
  hands (count (candidates w (extractContent w assistantResponse)))
        (@List.length value)
        (extractMemories w assistantResponse conversationMessages context).
Proof.
  unfold extractMemories.
  destruct (negb _); [apply (hands_weaken 0); [lia | now apply hands_ret] |].
  apply hands_after; [reflexivity |]. intros session0.
  apply hands_tryCatch.
  destruct (String.eqb _ _); [apply (hands_weaken 0); [lia | now apply hands_ret] |].
  apply hands_after; [reflexivity |]. intros last.
  apply hands_createAll.
Qed.

(** A run of [extractMemories] asks the store to create at most one memory
    per candidate the patterns found in the assistant's answer, and answers
    at most as many memories as it asked the store to create.  (Fewer when
    something raises midway: the memories created until then stay in the
    store, and the answer is the empty list.) *)
Theorem extractMemories_at_most_one_memory_per_candidate
    (assistantResponse conversationMessages context : value) (st : store) :
  let run := extractMemories w assistantResponse conversationMessages context (st, []) in
  List.length (snd (snd run))
  <= count (candidates w (extractContent w assistantResponse)) /\
  forall memories, fst run = Ok memories ->
    List.length memories <= List.length (snd (snd run)).
Proof.
  cbv zeta.
  destruct (hands_extractMemories assistantResponse conversationMessages context (st, []))
    as (new & G & L & S).
  rewrite G. simpl. split; [exact L | exact S].
Qed.

End WithCollaborators.

(** *** Runs *)

(** A store that is down, under the collaborators of [listStore]. *)
Definition brokenStore : Collaborators (list NewMemory) :=
  {| config := mkConfig true None;
     getRecentMemories := fun _ _ st => (inr (mkError "database is locked"), st);
     createMemory := createMemory listStore;
     trackEntity := trackEntity listStore;
     calculateSurprise := calculateSurprise listStore;
     now := 0;
     extractContent := extractContent listStore;
     candidates := candidates listStore |}.

Lemma extractMemories_never_raises_witness :
  VUndefined <> VNull /\
  extractMemories brokenStore (VStr "I prefer tabs over spaces") VUndefined VUndefined
                  ([], [])
  = (Ok [], ([], [])).
Proof.
  split; [discriminate |].
  destruct (extractMemories_never_raises brokenStore (VStr "I prefer tabs over spaces")
              VUndefined VUndefined ([], [])) as (memories & st' & H);
    [discriminate |].
  reflexivity.
Defined.

End ExtractionFacts.

(** ** Truncation of tool outputs *)

Module TruncateFacts.
Import Truncate.

#[local] Open Scope Z_scope.

(** The first and the last [n] characters of a string. *)
Definition first_chars (n : nat) (s : string) : string :=
  string_of_list_ascii (List.firstn n (list_ascii_of_string s)).

Definition last_chars (n : nat) (s : string) : string :=
  string_of_list_ascii (List.skipn (String.length s - n) (list_ascii_of_string s)).

Lemma length_chars (s : string) :
  List.length (list_ascii_of_string s) = String.length s.
Proof. induction s as [| c s IH]; simpl; congruence. Qed.

Lemma length_of_chars (l : list ascii) :
  String.length (string_of_list_ascii l) = List.length l.
Proof. induction l as [| c l IH]; simpl; congruence. Qed.

Lemma append_cons (c : ascii) (s t : string) :
  (String c s ++ t)%string = String c (s ++ t).
Proof. reflexivity. Qed.

Lemma string_app_chars (a b : list ascii) :
  string_of_list_ascii (a ++ b)
  = (string_of_list_ascii a ++ string_of_list_ascii b)%string.
Proof.
  induction a as [| c a IH]; [reflexivity |]. simpl. now rewrite append_cons, IH.
Qed.

Lemma string_length_app (a b : string) :
  String.length (a ++ b) = (String.length a + String.length b)%nat.
Proof.
  induction a as [| c a IH]; [reflexivity |]. rewrite append_cons. simpl. now rewrite IH.
Qed.

Lemma string_app_empty (s : string) : (s ++ EmptyString)%string = s.
Proof.
  induction s as [| c s IH]; [reflexivity |]. now rewrite append_cons, IH.
Qed.

Lemma first_chars_length (n : nat) (s : string) :
  (n <= String.length s)%nat -> String.length (first_chars n s) = n.
Proof.
  intros H. unfold first_chars.
  rewrite length_of_chars, List.length_firstn, length_chars. lia.
Qed.

Lemma last_chars_length (n : nat) (s : string) :
  (n <= String.length s)%nat -> String.length (last_chars n s) = n.
Proof.
  intros H. unfold last_chars.
  rewrite length_of_chars, List.length_skipn, length_chars. lia.
Qed.

Lemma first_chars_prefix (n : nat) (s : string) :
  exists rest, s = (first_chars n s ++ rest)%string.
Proof.
  exists (string_of_list_ascii (List.skipn n (list_ascii_of_string s))).
  unfold first_chars.
  now rewrite <- string_app_chars, List.firstn_skipn, string_of_list_ascii_of_string.
Qed.

Lemma last_chars_suffix (n : nat) (s : string) :
  exists rest, s = (rest ++ last_chars n s)%string.
Proof.
  exists (string_of_list_ascii
            (List.firstn (String.length s - n) (list_ascii_of_string s))).
  unfold last_chars.
  now rewrite <- string_app_chars, List.firstn_skipn, string_of_list_ascii_of_string.
Qed.

(** [slice(0, m)] and [slice(-m)] on a string longer than [m]. *)
Lemma relative_inside (len i : Z) : 0 <= i <= len -> relative len i = i.
Proof. intros H. unfold relative. destruct (i <? 0) eqn:Hneg; lia. Qed.

Lemma relative_from_end (len i : Z) : 0 < i <= len -> relative len (- i) = len - i.
Proof. intros H. unfold relative. destruct (- i <? 0) eqn:Hneg; lia. Qed.

Lemma slice_head (s : string) (m : Z) :
  0 <= m < Z.of_nat (String.length s) ->
  slice s 0 (Some m) = first_chars (Z.to_nat m) s.
Proof.
  intros H. unfold slice, first_chars. rewrite length_chars.
  rewrite !relative_inside by lia.
  destruct (m <=? 0) eqn:Hm.
  - assert (m = 0) as -> by lia. reflexivity.
  - rewrite Z.sub_0_r. reflexivity.
Qed.

Lemma slice_tail (s : string) (m : Z) :
  0 < m < Z.of_nat (String.length s) ->
  slice s (- m) None = last_chars (Z.to_nat m) s.
Proof.
  intros H. unfold slice, last_chars. rewrite length_chars.
  rewrite relative_from_end by lia.
  destruct (_ <=? _) eqn:Hle; [lia |].
  replace (Z.to_nat (Z.of_nat (String.length s) - m))
    with (String.length s - Z.to_nat m)%nat by lia.
  rewrite List.firstn_all2; [reflexivity |].
  rewrite List.length_skipn, length_chars. lia.
Qed.

(** [slice(-0)] is the whole string. *)
Lemma slice_minus_zero (s : string) : slice s (- 0) None = s.
Proof.
  unfold slice. rewrite length_chars.
  change (- 0) with 0. rewrite relative_inside by lia.
  destruct (_ <=? _) eqn:Hle.
  - apply Z.leb_le in Hle. destruct s; [reflexivity |].
    cbn [String.length] in Hle. lia.
  - rewrite Z.sub_0_r, Nat2Z.id. change (Z.to_nat 0) with 0%nat.
    rewrite List.skipn_O, List.firstn_all2 by (rewrite length_chars; lia).
    apply string_of_list_ascii_of_string.
Qed.

(** What a head or tail limit keeps of a longer text. *)
Definition kept (limit : Limit) (text : string) : string :=
  if String.eqb (strategy limit) "tail"
  then last_chars (Z.to_nat (maxChars limit)) text
  else first_chars (Z.to_nat (maxChars limit)) text.

Lemma truncateToolOutput_kept (config : value) (limits : Limits) (toolName : string)
    (limit : Limit) (text : string) :
  disabled config = false ->
  limits !! toolName = Some limit ->
  strategy limit <> "middle" ->
  0 < maxChars limit ->
  truncateToolOutput config limits toolName (VStr text)
  = VStr (if Z.of_nat (String.length text) <=? maxChars limit then text
          else kept limit text).
Proof.
  intros Hon Hlimit Hstrategy Hmax.
  unfold truncateToolOutput, entry. rewrite Hon, Hlimit.
  destruct text as [| c rest].
  - destruct (_ <=? _) eqn:Hle; [reflexivity |].
    apply Z.leb_gt in Hle. cbn [String.length] in Hle. lia.
  - set (text := String c rest).
    destruct (Z.of_nat (String.length text) <=? maxChars limit) eqn:Hle;
      [reflexivity |].
    f_equal. unfold applyTruncationStrategy, kept. destruct limit as [m s].
    cbn [maxChars strategy] in *. rewrite Hle. apply Z.leb_gt in Hle.
    destruct (String.eqb s "tail").
    + apply slice_tail. lia.
    + destruct (String.eqb_spec s "middle"); [contradiction |].
      apply slice_head. lia.
Qed.

Lemma kept_length (limit : Limit) (text : string) :
  0 < maxChars limit < Z.of_nat (String.length text) ->
  Z.of_nat (String.length (kept limit text)) = maxChars limit.
Proof.
  intros H. unfold kept.
  destruct (String.eqb _ _);
    [rewrite last_chars_length | rewrite first_chars_length]; lia.
Qed.

(** With the head and tail strategies and a positive limit, the output of
    [truncateToolOutput] is at most [maxChars] long, and it is a prefix of
    the original output (its suffix for the tail strategy). *)
Theorem truncateToolOutput_within_limit (config : value) (limits : Limits)
    (toolName : string) (limit : Limit) (text : string) :
  disabled config = false ->
  limits !! toolName = Some limit ->
  strategy limit <> "middle" ->
  0 < maxChars limit ->
  exists truncated rest,
    truncateToolOutput config limits toolName (VStr text) = VStr truncated /\
    Z.of_nat (String.length truncated) <= maxChars limit /\
    text = (if String.eqb (strategy limit) "tail"
            then rest ++ truncated else truncated ++ rest)%string.
Proof.
  intros Hon Hlimit Hstrategy Hmax.
  rewrite (truncateToolOutput_kept _ _ _ limit) by assumption.
  destruct (_ <=? _) eqn:Hle.
  - exists text, EmptyString. split; [reflexivity |]. split; [lia |].
    destruct (String.eqb _ _); [reflexivity |].
    symmetry. apply string_app_empty.
  - pose proof (kept_length limit text ltac:(lia)) as Hlen.
    unfold kept in *. destruct (String.eqb (strategy limit) "tail").
    + destruct (last_chars_suffix (Z.to_nat (maxChars limit)) text) as [rest Hrest].
      exists (last_chars (Z.to_nat (maxChars limit)) text), rest.
      split; [reflexivity |]. split; [lia | exact Hrest].
    + destruct (first_chars_prefix (Z.to_nat (maxChars limit)) text) as [rest Hrest].
      exists (first_chars (Z.to_nat (maxChars limit)) text), rest.
      split; [reflexivity |]. split; [lia | exact Hrest].
Qed.

Lemma truncateToolOutput_within_limit_witness :
  exists truncated rest,
    truncateToolOutput (VObj []) TRUNCATION_LIMITS "Bash"
      (VStr (string_of_list_ascii (List.repeat "x"%char (Z.to_nat 30001)))) = VStr truncated /\
    Z.of_nat (String.length truncated) <= 30000 /\
    string_of_list_ascii (List.repeat "x"%char (Z.to_nat 30001)) = (rest ++ truncated)%string.
Proof.
  apply (truncateToolOutput_within_limit (VObj []) TRUNCATION_LIMITS "Bash"
           (mkLimit 30000 "tail")).
  - reflexivity.
  - vm_compute. reflexivity.
  - discriminate.
  - reflexivity.
Defined.

(** Truncating a truncated output again changes nothing (head and tail
    strategies). *)
Theorem truncateToolOutput_idempotent (config : value) (limits : Limits)
    (toolName : string) (limit : Limit) (output : value) :
  limits !! toolName = Some limit ->
  strategy limit <> "middle" ->
  0 < maxChars limit ->
  truncateToolOutput config limits toolName
    (truncateToolOutput config limits toolName output)
  = truncateToolOutput config limits toolName output.
Proof.
  intros Hlimit Hstrategy Hmax.
  destruct (disabled config) eqn:Hon.
  { unfold truncateToolOutput. rewrite Hon. reflexivity. }
  destruct output as [ | | b | q | text | items | fields | name];
    try (unfold truncateToolOutput; rewrite Hon; reflexivity).
  rewrite (truncateToolOutput_kept _ _ _ limit text) by assumption.
  rewrite (truncateToolOutput_kept _ _ _ limit) by assumption.
  destruct (Z.of_nat (String.length text) <=? maxChars limit) eqn:Hle.
  - rewrite Hle. reflexivity.
  - apply Z.leb_gt in Hle.
    rewrite (kept_length limit text) by lia. rewrite Z.leb_refl. reflexivity.
Qed.

Lemma truncateToolOutput_idempotent_witness :
  truncateToolOutput (VObj []) TRUNCATION_LIMITS "Grep"
    (truncateToolOutput (VObj []) TRUNCATION_LIMITS "Grep" (VStr "src/index.js:1"))
  = truncateToolOutput (VObj []) TRUNCATION_LIMITS "Grep" (VStr "src/index.js:1").
Proof.
  apply (truncateToolOutput_idempotent _ _ _ (mkLimit 12000 "head")).
  - vm_compute. reflexivity.
  - discriminate.
  - reflexivity.
Defined.

Lemma marker_length (removed : Z) : (56 <= String.length (marker removed))%nat.
Proof. unfold marker, nl. rewrite !string_length_app. simpl. lia. Qed.

(** The middle strategy keeps the first and the last [maxChars / 2]
    characters around a marker, so its output is longer than [maxChars]. *)
Theorem truncateToolOutput_middle_exceeds_limit (config : value) (limits : Limits)
    (toolName : string) (m : Z) (text : string) :
  disabled config = false ->
  limits !! toolName = Some (mkLimit m "middle") ->
  2 <= m < Z.of_nat (String.length text) ->
  let keepSize := Z.to_nat (m / 2) in
  let truncated :=
    (first_chars keepSize text
       ++ marker (Z.of_nat (String.length text) - m / 2 * 2)
       ++ last_chars keepSize text)%string in
  (truncateToolOutput config limits toolName (VStr text) = VStr truncated) /\
  (m + 55 <= Z.of_nat (String.length truncated)).
Proof.
  intros Hon Hlimit Hm keepSize truncated.
  assert (Hk : 0 < m / 2 < Z.of_nat (String.length text)).
  { split; [apply Z.div_str_pos; lia |].
    apply Z.le_lt_trans with m; [| lia]. apply Z.div_le_upper_bound; lia. }
  split.
  - unfold truncateToolOutput, entry. rewrite Hon, Hlimit.
    destruct text as [| c rest]; [simpl in Hm; lia |].
    set (text := String c rest) in *.
    destruct (Z.of_nat (String.length text) <=? m) eqn:Hle;
      [apply Z.leb_le in Hle; lia |].
    cbn [maxChars]. rewrite Hle. unfold applyTruncationStrategy. rewrite Hle.
    change (String.eqb "middle" "tail") with false.
    change (String.eqb "middle" "middle") with true. cbv iota.
    rewrite slice_head, slice_tail by lia. reflexivity.
  - subst truncated. rewrite !string_length_app.
    rewrite first_chars_length, last_chars_length by lia.
    pose proof (marker_length (Z.of_nat (String.length text) - m / 2 * 2)).
    assert (m <= 2 * (m / 2) + 1).
    { pose proof (Z.div_mod m 2 ltac:(lia)). pose proof (Z.mod_pos_bound m 2). lia. }
    lia.
Qed.

Lemma truncateToolOutput_middle_witness :
  truncateToolOutput (VObj []) (<["Read" := mkLimit 4 "middle"]> TRUNCATION_LIMITS)
    "Read" (VStr "0123456789")
  = VStr (first_chars 2 "0123456789" ++ marker 6 ++ last_chars 2 "0123456789")%string /\
  4 + 55 <= Z.of_nat (String.length
                        (first_chars 2 "0123456789" ++ marker 6
                           ++ last_chars 2 "0123456789")%string).
Proof.
  apply (truncateToolOutput_middle_exceeds_limit (VObj [])
           (<["Read" := mkLimit 4 "middle"]> TRUNCATION_LIMITS) "Read" 4 "0123456789").
  - reflexivity.
  - vm_compute. reflexivity.
  - simpl. lia.
Defined.

(** A limit of zero characters with the tail strategy truncates nothing:
    [slice(-0)] is the whole string. *)
Theorem truncateToolOutput_tail_zero (config : value) (limits : Limits)
    (toolName : string) (output : value) :
  limits !! toolName = Some (mkLimit 0 "tail") ->
  truncateToolOutput config limits toolName output = output.
Proof.
  intros Hlimit. unfold truncateToolOutput, entry. rewrite Hlimit.
  destruct (disabled config); [reflexivity |].
  destruct output as [ | | b | q | [| c rest] | items | fields | name];
    try reflexivity.
  cbn [maxChars]. destruct (_ <=? _); [reflexivity |].
  unfold applyTruncationStrategy. 
  destruct (_ <=? _); [reflexivity |].
  change (String.eqb "tail" "tail") with true. cbv iota.
  now rewrite slice_minus_zero.
Qed.

Lemma truncateToolOutput_tail_zero_witness :
  truncateToolOutput (VObj []) (<["Bash" := mkLimit 0 "tail"]> TRUNCATION_LIMITS)
    "Bash" (VStr "make: done")
  = VStr "make: done".
Proof.
  apply truncateToolOutput_tail_zero. vm_compute. reflexivity.
Defined.

Lemma truncateToolOutput_head (config : value) (limits : Limits) (toolName : string)
    (m : Z) (text : string) :
  disabled config = false ->
  limits !! toolName = Some (mkLimit m "head") ->
  0 <= m ->
  truncateToolOutput config limits toolName (VStr text)
  = VStr (if Z.of_nat (String.length text) <=? m then text
          else first_chars (Z.to_nat m) text).
Proof.
  intros Hon Hlimit Hm. unfold truncateToolOutput, entry. rewrite Hon, Hlimit.
  cbn [maxChars]. destruct text as [| c rest].
  - destruct (_ <=? _) eqn:Hle; [reflexivity |].
    apply Z.leb_gt in Hle. cbn [String.length] in Hle. lia.
  - set (text := String c rest).
    destruct (Z.of_nat (String.length text) <=? m) eqn:Hle; [reflexivity |].
    unfold applyTruncationStrategy. rewrite Hle. apply Z.leb_gt in Hle.
    change (String.eqb "head" "tail") with false.
    change (String.eqb "head" "middle") with false. cbv iota.
    now rewrite slice_head by lia.
Qed.

(** After [setTruncationLimit(toolName, maxChars)] the outputs of the tool
    are cut to their first [maxChars] characters: the strategy defaults to
    head, and the limits of the other tools are as before. *)
Theorem setTruncationLimit_then_truncate (config : value) (limits : Limits)
    (toolName : string) (m : Z) :
  disabled config = false ->
  toolName <> "__proto__" ->
  0 <= m ->
  exists limits',
    setTruncationLimit limits toolName m None = Ok limits' /\
    (forall text,
       truncateToolOutput config limits' toolName (VStr text)
       = VStr (if Z.of_nat (String.length text) <=? m then text
               else first_chars (Z.to_nat m) text)) /\
    (forall other, other <> toolName ->
       getTruncationLimit limits' other = getTruncationLimit limits other).
Proof.
  intros Hon Hname Hm. unfold setTruncationLimit.
  destruct (String.eqb_spec toolName "__proto__") as [| _]; [contradiction |].
  eexists. split; [reflexivity |]. split.
  - intros text.
    rewrite (truncateToolOutput_head _ _ _ m) by (try apply lookup_insert_eq; auto).
    reflexivity.
  - intros other Hother. unfold getTruncationLimit, entry, Limits.
    now rewrite lookup_insert_ne by congruence.
Qed.

Lemma setTruncationLimit_then_truncate_witness :
  exists limits',
    setTruncationLimit TRUNCATION_LIMITS "Custom" 3 None = Ok limits' /\
    (forall text,
       truncateToolOutput (VObj []) limits' "Custom" (VStr text)
       = VStr (if Z.of_nat (String.length text) <=? 3 then text
               else first_chars (Z.to_nat 3) text)) /\
    (forall other, other <> "Custom" ->
       getTruncationLimit limits' other = getTruncationLimit TRUNCATION_LIMITS other).
Proof.
  apply (setTruncationLimit_then_truncate (VObj []) TRUNCATION_LIMITS "Custom" 3).
  - reflexivity.
  - discriminate.
  - lia.
Defined.

End TruncateFacts.

(** ** Smart tool selection *)

Module SmartSelectionFacts.
Import Regex SmartSelection ArrayFacts.

Lemma in_budget (b : Q) (n : nat) :
  (0 <= b)%Q ->
  (Z.of_nat n <= Z.max (Qfloor (b / inject_Z 175)) 0)%Z ->
  (inject_Z (Z.of_nat n * 175) <= b)%Q.
Proof.
  intros Hb Hn.
  assert (H0 : (0 <= Qfloor (b / inject_Z 175))%Z).
  { change 0%Z with (Qfloor 0). apply Qfloor_resp_le.
    apply Qle_shift_div_l; [reflexivity |]. now rewrite Qmult_0_l. }
  rewrite Z.max_l in Hn by exact H0.
  apply Qle_trans with (inject_Z (Qfloor (b / inject_Z 175) * 175)).
  - rewrite <- Zle_Qle. nia.
  - rewrite inject_Z_mult.
    apply Qle_trans with (b / inject_Z 175 * inject_Z 175)%Q.
    + apply Qmult_le_compat_r; [apply Qfloor_le | discriminate].
    + rewrite Qmult_comm, Qmult_div_r by discriminate. apply Qle_refl.
Qed.

Lemma enforceBudget_within (options : Options) (selected : list value) :
  (0 <= tokenBudget options)%Q ->
  (inject_Z (estimateToolTokens (VArr (enforceBudget options selected)))
   <= tokenBudget options)%Q.
Proof.
  intros Hb. unfold enforceBudget.
  destruct (Qlt_le_dec _ _) as [Hlt | Hle]; [| exact Hle].
  cbn [estimateToolTokens]. apply in_budget; [exact Hb |].
  pose proof (List.firstn_le_length
                (Z.to_nat (Z.max (Qfloor (tokenBudget options / inject_Z 175)) 0))
                selected).
  lia.
Qed.

Lemma enforceBudget_In (options : Options) (selected : list value) (t : value) :
  In t (enforceBudget options selected) -> In t selected.
Proof.
  unfold enforceBudget. destruct (Qlt_le_dec _ _); [apply firstn_In | auto].
Qed.

Lemma limitForProvider_In (options : Options) (selected : list value) (t : value) :
  In t (limitForProvider options selected) -> In t selected.
Proof.
  unfold limitForProvider. destruct (_ && _); [apply firstn_In | auto].
Qed.

Lemma minimalOverride_In (options : Options) (selected kept : list value) (t : value) :
  minimalOverride options selected = Ok kept -> In t kept -> In t selected.
Proof.
  unfold minimalOverride. destruct (minimalMode options).
  - intros H Ht. now destruct (filterR_In _ _ _ H t Ht).
  - now intros [= <-].
Qed.

Lemma minimalOverride_length (options : Options) (selected kept : list value) :
  minimalOverride options selected = Ok kept ->
  List.length kept <= List.length selected.
Proof.
  unfold minimalOverride. destruct (minimalMode options).
  - apply filterR_length.
  - now intros [= <-].
Qed.

Lemma findBash_In (tools : list value) (tool : value) :
  findBash tools = Ok (Some tool) -> In tool tools.
Proof.
  induction tools as [| t rest IH]; simpl; [discriminate |].
  destruct (get "name" t) as [name | |]; simpl; try discriminate.
  destruct (is_str "Bash" name).
  - intros [= <-]. now left.
  - intros H. right. now apply IH.
Qed.

Lemma adjustForMode_In (options : Options) (c : Classification) (names : list string)
    (all selected adjusted : list value) (t : value) :
  adjustForMode options c names all selected = Ok adjusted ->
  In t adjusted -> In t selected \/ In t all.
Proof.
  unfold adjustForMode. destruct (is_mode "aggressive" options).
  - intros [= <-] Ht. left.
    destruct (Qlt_le_dec _ _); [| exact Ht].
    destruct (Nat.ltb _ _); [now apply firstn_In in Ht | exact Ht].
  - destruct (is_mode "conservative" options); [| intros [= <-]; auto].
    destruct (_ && _); [| intros [= <-]; auto].
    destruct (findBash all) as [[tool |] | |] eqn:Hbash; simpl; try discriminate;
      intros [= <-] Ht; [| auto].
    destruct (truthy tool); [| auto].
    apply List.in_app_or in Ht as [Ht | [<- | []]]; [auto |].
    right. now apply findBash_In.
Qed.

(** The pipeline of [selectToolsSmartly], stage by stage. *)
Lemma selectToolsSmartly_stages (t : value) (ts : list value) (c : Classification)
    (options : Options) (out : value) :
  selectToolsSmartly (VArr (t :: ts)) c options = Ok out ->
  exists names selected adjusted kept,
    relevantToolNames (requestTypeOf c) = Ok names /\
    filterR (named names) (t :: ts) = Ok selected /\
    adjustForMode options c names (t :: ts) selected = Ok adjusted /\
    minimalOverride options
      (enforceBudget options (limitForProvider options adjusted)) = Ok kept /\
    out = VArr kept.
Proof.
  unfold selectToolsSmartly.
  destruct (relevantToolNames _) as [names | |] eqn:Hnames;
    [| discriminate | discriminate].
  rewrite bind_ok.
  destruct (filterR _ _) as [selected | |] eqn:Hselected;
    [| discriminate | discriminate].
  rewrite bind_ok.
  destruct (adjustForMode _ _ _ _ _) as [adjusted | |] eqn:Hadjusted;
    [| discriminate | discriminate].
  rewrite bind_ok.
  destruct (minimalOverride _ _) as [kept | |] eqn:Hkept;
    [| discriminate | discriminate].
  rewrite bind_ok.
  intros [= <-]. exists names, selected, adjusted, kept. auto.
Qed.

(** The tools selected never cost more than the token budget, by the
    estimate of 175 tokens a tool. *)
Theorem selectToolsSmartly_within_budget (tools : value) (c : Classification)
    (options : Options) (out : value) :
  (0 <= tokenBudget options)%Q ->
  selectToolsSmartly tools c options = Ok out ->
  (inject_Z (estimateToolTokens out) <= tokenBudget options)%Q.
Proof.
  intros Hb H.
  destruct tools as [ | | b | q | s | [| t ts] | fields | name];
    try (injection H as <-; exact Hb).
  apply selectToolsSmartly_stages in H
    as (names & selected & adjusted & kept & _ & _ & _ & Hkept & ->).
  pose proof (minimalOverride_length _ _ _ Hkept) as Hlen.
  pose proof (enforceBudget_within options (limitForProvider options adjusted) Hb)
    as Hwithin.
  eapply Qle_trans; [| exact Hwithin].
  cbn [estimateToolTokens]. rewrite <- Zle_Qle. nia.
Qed.

Definition toolNamed (name : string) : value := VObj [("name", VStr name)].

Definition standardTools : list value :=
  List.map toolNamed
    [ "Read"; "Write"; "Edit"; "Bash"; "Grep"; "Glob"; "WebSearch"; "WebFetch";
      "Task"; "TodoWrite"; "AskUserQuestion"; "NotebookEdit" ].

Definition tightBudget : Options := mkOptions "databricks" (inject_Z 600) None false.

Lemma selectToolsSmartly_within_budget_witness :
  selectToolsSmartly (VArr standardTools) (mkClassification "coding" (6 # 10) [])
                     tightBudget
  = Ok (VArr (List.map toolNamed ["Read"; "Write"; "Edit"])) /\
  (inject_Z (estimateToolTokens (VArr (List.map toolNamed ["Read"; "Write"; "Edit"])))
   <= inject_Z 600)%Q.
Proof.
  split; [reflexivity |].
  apply (selectToolsSmartly_within_budget (VArr standardTools)
           (mkClassification "coding" (6 # 10) []) tightBudget).
  - discriminate.
  - reflexivity.
Defined.

(** Every tool selected is one of the tools offered. *)
Theorem selectToolsSmartly_selects_offered_tools (tools selected : list value)
    (c : Classification) (options : Options) :
  selectToolsSmartly (VArr tools) c options = Ok (VArr selected) ->
  forall tool, In tool selected -> In tool tools.
Proof.
  intros H tool Ht. destruct tools as [| t ts].
  - injection H as <-. exact Ht.
  - apply selectToolsSmartly_stages in H
      as (names & sel & adjusted & kept & _ & Hsel & Hadj & Hkept & [= <-]).
    apply (minimalOverride_In _ _ _ _ Hkept) in Ht.
    apply enforceBudget_In, limitForProvider_In in Ht.
    destruct (adjustForMode_In _ _ _ _ _ _ _ Hadj Ht) as [Hin | Hin]; [| exact Hin].
    now destruct (filterR_In _ _ _ Hsel tool Hin).
Qed.

Lemma selectToolsSmartly_selects_offered_witness :
  selectToolsSmartly (VArr standardTools)
    (mkClassification "file_reading" (8 # 10) ["read"])
    (mkOptions "databricks" (inject_Z 2500) (Some "conservative") false)
  = Ok (VArr (List.map toolNamed ["Read"; "Grep"; "Glob"; "Bash"])) /\
  In (toolNamed "Bash") standardTools.
Proof.
  split; [reflexivity |].
  apply (selectToolsSmartly_selects_offered_tools standardTools
           (List.map toolNamed ["Read"; "Grep"; "Glob"; "Bash"])
           (mkClassification "file_reading" (8 # 10) ["read"])
           (mkOptions "databricks" (inject_Z 2500) (Some "conservative") false)).
  - reflexivity.
  - simpl. auto.
Defined.

Lemma enforceBudget_length (options : Options) (selected : list value) :
  List.length (enforceBudget options selected) <= List.length selected.
Proof.
  unfold enforceBudget. destruct (Qlt_le_dec _ _); [| reflexivity].
  rewrite List.length_firstn. lia.
Qed.

(** For the provider ollama at most eight tools are selected. *)
Theorem selectToolsSmartly_ollama_at_most_eight (tools selected : list value)
    (c : Classification) (options : Options) :
  provider options = "ollama" ->
  selectToolsSmartly (VArr tools) c options = Ok (VArr selected) ->
  List.length selected <= 8.
Proof.
  intros Hprovider H. destruct tools as [| t ts].
  - injection H as <-. simpl. lia.
  - apply selectToolsSmartly_stages in H
      as (names & sel & adjusted & kept & _ & _ & _ & Hkept & [= <-]).
    apply minimalOverride_length in Hkept.
    pose proof (enforceBudget_length options (limitForProvider options adjusted)).
    assert (List.length (limitForProvider options adjusted) <= 8).
    { unfold limitForProvider. rewrite Hprovider.
      change (String.eqb "ollama" "ollama") with true. cbn [andb].
      destruct (Nat.ltb 8 (List.length adjusted)) eqn:Hlt.
      - rewrite List.length_firstn. lia.
      - apply Nat.ltb_ge in Hlt. exact Hlt. }
    lia.
Qed.

Definition manyTools : list value :=
  List.map toolNamed
    [ "Read"; "Write"; "Edit"; "Bash"; "Grep"; "Glob"; "WebSearch"; "WebFetch";
      "Task"; "TodoWrite"; "AskUserQuestion" ].

Lemma selectToolsSmartly_ollama_witness :
  selectToolsSmartly (VArr manyTools) (mkClassification "complex_task" (75 # 100) [])
    (mkOptions "ollama" (inject_Z 2500) None false)
  = Ok (VArr (List.firstn 8 manyTools)) /\
  List.length (List.firstn 8 manyTools) <= 8.
Proof.
  split; [reflexivity |].
  apply (selectToolsSmartly_ollama_at_most_eight manyTools _
           (mkClassification "complex_task" (75 # 100) [])
           (mkOptions "ollama" (inject_Z 2500) None false)); reflexivity.
Defined.

(** In minimal mode only tools named Read, Write, Edit or Bash are
    selected. *)
Theorem selectToolsSmartly_minimal_mode (tools selected : list value)
    (c : Classification) (options : Options) (tool : value) :
  minimalMode options = true ->
  tools <> [] ->
  selectToolsSmartly (VArr tools) c options = Ok (VArr selected) ->
  In tool selected ->
  exists name, get "name" tool = Ok (VStr name) /\
               In name ["Read"; "Write"; "Edit"; "Bash"].
Proof.
  intros Hminimal Hne H Ht. destruct tools as [| t ts]; [contradiction |].
  apply selectToolsSmartly_stages in H
    as (names & sel & adjusted & kept & _ & _ & _ & Hkept & [= <-]).
  unfold minimalOverride in Hkept. rewrite Hminimal in Hkept.
  destruct (filterR_In _ _ _ Hkept tool Ht) as [_ Hnamed].
  unfold named in Hnamed.
  destruct (get "name" tool) as [x | |]; [| discriminate | discriminate].
  rewrite bind_ok in Hnamed. injection Hnamed as Hnamed.
  destruct x as [ | | | | name | | | ]; try discriminate.
  exists name. split; [reflexivity |].
  repeat match type of Hnamed with
         | (_ || _ = true) => apply Bool.orb_true_iff in Hnamed as [Hnamed | Hnamed]
         end;
    try discriminate; apply String.eqb_eq in Hnamed; subst name; simpl; auto 6.
Qed.

Lemma selectToolsSmartly_minimal_witness :
  selectToolsSmartly (VArr manyTools) (mkClassification "complex_task" (75 # 100) [])
    (mkOptions "databricks" (inject_Z 2500) None true)
  = Ok (VArr (List.map toolNamed ["Read"; "Write"; "Edit"; "Bash"])) /\
  exists name, get "name" (toolNamed "Edit") = Ok (VStr name) /\
               In name ["Read"; "Write"; "Edit"; "Bash"].
Proof.
  split; [reflexivity |].
  apply (selectToolsSmartly_minimal_mode manyTools
           (List.map toolNamed ["Read"; "Write"; "Edit"; "Bash"])
           (mkClassification "complex_task" (75 # 100) [])
           (mkOptions "databricks" (inject_Z 2500) None true)).
  - reflexivity.
  - discriminate.
  - reflexivity.
  - simpl. auto.
Defined.

Lemma named_defined (names : list string) (tool : value) :
  defined tool = true -> exists b, named names tool = Ok b.
Proof.
  intros H. unfold named. destruct (get_defined_returns "name" tool H) as [x ->].
  simpl. eauto.
Qed.

Lemma named_nothing (tool : value) : defined tool = true -> named [] tool = Ok false.
Proof.
  intros H. unfold named. destruct (get_defined_returns "name" tool H) as [x ->].
  simpl. now destruct x.
Qed.

Lemma findBash_defined (tools : list value) :
  Forall (fun t => defined t = true) tools -> exists found, findBash tools = Ok found.
Proof.
  induction 1 as [| t rest Ht _ IH]; simpl; [eauto |].
  destruct (get_defined_returns "name" t Ht) as [x ->]. simpl.
  destruct (is_str "Bash" x); eauto.
Qed.

(** A request type without relevant tools selects nothing. *)
Lemma selectToolsSmartly_no_names (tools : list value) (c : Classification)
    (options : Options) :
  relevantToolNames (requestTypeOf c) = Ok [] ->
  String.eqb (requestTypeOf c) "file_reading" = false ->
  Forall (fun t => defined t = true) tools ->
  selectToolsSmartly (VArr tools) c options = Ok (VArr []).
Proof.
  intros Hnames Htype Hdefined. destruct tools as [| t ts]; [reflexivity |].
  unfold selectToolsSmartly. rewrite Hnames, bind_ok.
  rewrite (filterR_none (named []) (t :: ts)), bind_ok.
  2: { intros x Hx. apply named_nothing.
       rewrite List.Forall_forall in Hdefined. now apply Hdefined. }
  assert (Hadjust : adjustForMode options c [] (t :: ts) [] = Ok []).
  { unfold adjustForMode. destruct (is_mode "aggressive" options).
    - destruct (Qlt_le_dec _ _); reflexivity.
    - destruct (is_mode "conservative" options); [| reflexivity].
      now rewrite Htype. }
  rewrite Hadjust, bind_ok.
  assert (Hlimit : limitForProvider options [] = []).
  { unfold limitForProvider. now destruct (_ && _). }
  rewrite Hlimit.
  assert (Hbudget : enforceBudget options [] = []).
  { unfold enforceBudget. destruct (Qlt_le_dec _ _); [| reflexivity].
    now rewrite List.firstn_nil. }
  rewrite Hbudget. unfold minimalOverride. now destruct (minimalMode options).
Qed.

(** A conversational request or a simple question gets no tool at all. *)
Theorem selectToolsSmartly_conversational_no_tools (tools : list value)
    (c : Classification) (options : Options) :
  type c = "conversational" \/ type c = "simple_qa" ->
  Forall (fun t => defined t = true) tools ->
  selectToolsSmartly (VArr tools) c options = Ok (VArr []).
Proof.
  intros Htype. apply selectToolsSmartly_no_names;
    unfold requestTypeOf; destruct Htype as [-> | ->]; reflexivity.
Qed.

Lemma selectToolsSmartly_conversational_witness :
  selectToolsSmartly (VArr manyTools) (mkClassification "conversational" 1 ["greeting"])
                     defaults
  = Ok (VArr []).
Proof.
  apply selectToolsSmartly_conversational_no_tools.
  - left. reflexivity.
  - repeat constructor.
Defined.

(** The request types that [classifyRequestType] gives. *)
Definition requestTypes : list string :=
  [ "conversational"; "simple_qa"; "research"; "file_reading";
    "file_modification"; "code_execution"; "complex_task"; "coding" ].

Lemma classifyRequestType_type (payload : Complexity.Payload) :
  In (type (classifyRequestType payload)) requestTypes.
Proof.
  unfold classifyRequestType.
  destruct (getLastUserMessage payload); [| simpl; auto 10].
  repeat match goal with
         | |- context [if ?b then _ else _] => destruct b
         end; simpl; auto 10.
Qed.

Lemma relevantToolNames_known (c : Classification) :
  In (type c) requestTypes ->
  exists names, relevantToolNames (requestTypeOf c) = Ok names.
Proof.
  unfold requestTypeOf, requestTypes. intros H.
  repeat (destruct H as [<- | H]; [eexists; reflexivity |]). destruct H.
Qed.

(** Whatever the request, the selection made for its classification among
    tool objects returns: the type that [classifyRequestType] gives is
    always one that [TOOL_SELECTION_MAP] has. *)
Theorem selectToolsSmartly_of_classification_returns (payload : Complexity.Payload)
    (tools : list value) (options : Options) :
  Forall (fun t => defined t = true) tools ->
  exists selected,
    selectToolsSmartly (VArr tools) (classifyRequestType payload) options
    = Ok (VArr selected).
Proof.
  intros Hdefined. destruct tools as [| t ts]; [exists []; reflexivity |].
  set (c := classifyRequestType payload).
  rewrite List.Forall_forall in Hdefined.
  unfold selectToolsSmartly.
  destruct (relevantToolNames_known c (classifyRequestType_type payload))
    as [names ->].
  rewrite bind_ok.
  destruct (filterR_returns (named names) (t :: ts)) as [selected Hselected].
  { intros x Hx. apply named_defined. now apply Hdefined. }
  rewrite Hselected, bind_ok.
  assert (Hadjust : exists adjusted,
             adjustForMode options c names (t :: ts) selected = Ok adjusted).
  { unfold adjustForMode. destruct (is_mode "aggressive" options); [eauto |].
    destruct (is_mode "conservative" options); [| eauto].
    destruct (_ && _); [| eauto].
    destruct (findBash_defined (t :: ts)) as [found ->];
      [now apply List.Forall_forall | simpl; eauto]. }
  destruct Hadjust as [adjusted Hadjusted]. rewrite Hadjusted, bind_ok.
  assert (Hminimal : exists kept,
             minimalOverride options
               (enforceBudget options (limitForProvider options adjusted)) = Ok kept).
  { unfold minimalOverride. destruct (minimalMode options); [| eauto].
    apply filterR_returns. intros x Hx. apply named_defined, Hdefined.
    apply enforceBudget_In, limitForProvider_In in Hx.
    destruct (adjustForMode_In _ _ _ _ _ _ _ Hadjusted Hx) as [Hin | Hin];
      [| exact Hin].
    now destruct (filterR_In _ _ _ Hselected x Hin). }
  destruct Hminimal as [kept ->]. rewrite bind_ok. eauto.
Qed.

Definition says (text : string) : Complexity.Payload :=
  Complexity.mkPayload
    (Some [Complexity.mkMessage "user" (Complexity.Text text)]) None.

Lemma selectToolsSmartly_of_classification_witness :
  exists selected,
    selectToolsSmartly (VArr manyTools)
      (classifyRequestType (says "please rename the parser module")) defaults
    = Ok (VArr selected).
Proof.
  apply selectToolsSmartly_of_classification_returns. repeat constructor.
Defined.

(** The text that [classifyRequestType] looks at. *)
Definition classified (message : Complexity.Message) : list ascii :=
  Search.toLowerCase (Search.trim (stripReminders (chars (extractContent message)))).

(** A last user message of fewer than 20 characters, once trimmed, without
    a technical keyword is conversational, whatever it asks for: no tool is
    selected for it. *)
Theorem classifyRequestType_short_message_no_tools (payload : Complexity.Payload)
    (message : Complexity.Message) (tools : list value) (options : Options) :
  getLastUserMessage payload = Some message ->
  List.length (Search.trim (classified message)) < 20 ->
  search TECHNICAL_KEYWORDS None (Search.trim (classified message)) = false ->
  Forall (fun t => defined t = true) tools ->
  type (classifyRequestType payload) = "conversational" /\
  selectToolsSmartly (VArr tools) (classifyRequestType payload) options
  = Ok (VArr []).
Proof.
  intros Hlast Hshort Hplain Hdefined.
  assert (Htype : type (classifyRequestType payload) = "conversational").
  { unfold classifyRequestType. rewrite Hlast. fold (classified message).
    destruct (isGreeting (classified message)); [reflexivity |].
    unfold isShortNonTechnical. rewrite Hplain.
    apply Nat.ltb_lt in Hshort. rewrite Hshort. reflexivity. }
  split; [exact Htype |].
  apply selectToolsSmartly_no_names; [| | exact Hdefined];
    unfold requestTypeOf; rewrite Htype; reflexivity.
Qed.

Lemma classifyRequestType_short_message_witness :
  type (classifyRequestType (says "run the tests")) = "conversational" /\
  selectToolsSmartly (VArr manyTools) (classifyRequestType (says "run the tests"))
                     defaults
  = Ok (VArr []).
Proof.
  apply (classifyRequestType_short_message_no_tools (says "run the tests")
           (Complexity.mkMessage "user" (Complexity.Text "run the tests"))).
  - reflexivity.
  - vm_compute. lia.
  - vm_compute. reflexivity.
  - repeat constructor.
Defined.

End SmartSelectionFacts.

(** ** src/tools/tinyfish.js: what the normalisers accept *)

Module TinyFishFacts.
Import Regex Search TinyFish.

Lemma dropWhile_head (p : ascii -> bool) (s : list ascii) (c : ascii) (rest : list ascii) :
  dropWhile p s = c :: rest -> p c = false.
Proof.
  induction s as [| a s IH]; simpl; [discriminate |].
  destruct (p a) eqn:Ha; [exact IH |]. intros [= <- _]. exact Ha.
Qed.

Lemma dropWhile_suffix (p : ascii -> bool) (s : list ascii) :
  exists dropped, s = dropped ++ dropWhile p s.
Proof.
  induction s as [| a s [dropped IH]]; simpl; [now exists [] |].
  destruct (p a); [| now exists []].
  exists (a :: dropped). simpl. now rewrite <- IH.
Qed.

Lemma dropWhile_fixed (p : ascii -> bool) (s : list ascii) :
  match s with [] => True | c :: _ => p c = false end -> dropWhile p s = s.
Proof. destruct s as [| c rest]; simpl; [reflexivity |]. now intros ->. Qed.

(** A trimmed text starts and ends with a character that is not white
    space, unless it is empty. *)
Lemma trim_ends (s : list ascii) :
  match trim s with [] => True | c :: _ => is_space c = false end /\
  match List.rev (trim s) with [] => True | c :: _ => is_space c = false end.
Proof.
  unfold trim. rewrite List.rev_involutive.
  destruct (dropWhile is_space (List.rev (dropWhile is_space s))) as [| c u] eqn:Hu;
    [split; exact I |].
  split; [| exact (dropWhile_head _ _ _ _ Hu)].
  destruct (dropWhile_suffix is_space (List.rev (dropWhile is_space s))) as [dropped Hd].
  rewrite Hu in Hd.
  assert (Hs : dropWhile is_space s = List.rev (c :: u) ++ List.rev dropped).
  { rewrite <- List.rev_app_distr, <- Hd. now rewrite List.rev_involutive. }
  destruct (List.rev (c :: u)) as [| a t] eqn:Hr.
  - apply (f_equal (@List.length ascii)) in Hr. rewrite List.length_rev in Hr.
    discriminate Hr.
  - simpl in Hs. exact (dropWhile_head _ _ _ _ Hs).
Qed.

Lemma trim_idempotent (s : list ascii) : trim (trim s) = trim s.
Proof.
  destruct (trim_ends s) as [Hhead Hlast].
  unfold trim at 1.
  rewrite (dropWhile_fixed is_space (trim s) Hhead).
  rewrite (dropWhile_fixed is_space (List.rev (trim s)) Hlast).
  apply List.rev_involutive.
Qed.

Lemma trimmed_idempotent (s : string) : trimmed (trimmed s) = trimmed s.
Proof.
  unfold trimmed. now rewrite list_ascii_of_string_of_list_ascii, trim_idempotent.
Qed.

Lemma length_zero (s : string) : Nat.eqb (String.length s) 0 = false -> s <> EmptyString.
Proof. intros H ->. discriminate H. Qed.

Definition blankText (s : string) : bool :=
  forallb is_space (list_ascii_of_string s).

Lemma dropWhile_all (p : ascii -> bool) (s : list ascii) :
  forallb p s = true -> dropWhile p s = [].
Proof.
  induction s as [| c rest IH]; simpl; [reflexivity |].
  intros H. apply andb_true_iff in H as [-> H]. now apply IH.
Qed.

Lemma trimmed_blank (s : string) : blankText s = true -> trimmed s = EmptyString.
Proof.
  unfold blankText, trimmed, trim. intros H. now rewrite (dropWhile_all _ _ H).
Qed.

(** A goal or a url that a normaliser accepts is not empty and has no white
    space around it (trimming it again changes nothing); an accepted url
    is one that [new URL] takes.  A goal given as a blank string is
    rejected even when [task], [prompt] or [instruction] hold one: the
    aliases are read only when [goal] is [null] or absent. *)
Theorem normalisers_accept_trimmed_text (validURL : string -> bool) (args : value) :
  (forall goal, normalizeGoal args = Ok goal ->
     goal <> EmptyString /\ trimmed goal = goal) /\
  (forall url, normalizeUrl validURL args = Ok url ->
     url <> EmptyString /\ trimmed url = url /\ validURL url = true) /\
  (forall s, get_opt "goal" args = VStr s -> blankText s = true ->
     normalizeGoal args
     = Throw (mkError "web_agent requires a non-empty goal string.")).
Proof.
  split; [| split].
  - unfold normalizeGoal. intros goal H.
    destruct (firstDefined _ args) as [[| | | | s | | |] | |]; simpl in H; try discriminate.
    destruct (Nat.eqb _ 0) eqn:E; [discriminate |]. injection H as <-.
    split; [exact (length_zero _ E) | apply trimmed_idempotent].
  - unfold normalizeUrl. intros url H.
    destruct (firstDefined _ args) as [[| | | | s | | |] | |]; simpl in H; try discriminate.
    destruct (Nat.eqb _ 0) eqn:E; [discriminate |].
    destruct (validURL (trimmed s)) eqn:V; [| discriminate]. injection H as <-.
    split; [exact (length_zero _ E) | split; [apply trimmed_idempotent | exact V]].
  - intros s Hs Hb. unfold normalizeGoal.
    assert (Hf : firstDefined ["goal"; "task"; "prompt"; "instruction"] args = Ok (VStr s)).
    { unfold get_opt in Hs. simpl.
      destruct (get "goal" args) as [v | e |]; try discriminate Hs. now subst v. }
    rewrite Hf. simpl. now rewrite (trimmed_blank s Hb).
Qed.

Example normalizeGoal_task_alias :
  normalizeGoal (VObj [("task", VStr "  book a table for two ")])
  = Ok "book a table for two".
Proof. reflexivity. Qed.

Example normalizeGoal_blank_goal_hides_task :
  normalizeGoal (VObj [("goal", VStr "  "); ("task", VStr "book a table for two")])
  = Throw (mkError "web_agent requires a non-empty goal string.").
Proof. reflexivity. Qed.

End TinyFishFacts.
